(** * Steam profile comment parser: a shallow embedding of [src/parser.py]

    The development follows the layout of the Python class
    [SteamProfileCommentParser]: Python strings and the string methods the
    parser calls, the document tree BeautifulSoup hands to the parser, the
    [urllib.parse] functions used to build page URLs, and then the methods of
    the class itself, written with explicit state passing.  The properties of
    the specification are stated and proved in the second half of the file. *)

From Stdlib Require Import ZArith NArith List Bool Lia String Ascii DecimalPos.
From stdpp Require Import base option list gmap sets.

#[local] Open Scope Z_scope.

(** ** Python strings

    A Python [str] is a sequence of Unicode code points.  Code points are
    natural numbers ([N]); the literals of the source are written with [lit],
    which reads an ASCII literal character by character. *)

Abbreviation str := (list N).

Definition lit (s : string) : str :=
  map (fun a : ascii => N_of_ascii a) (list_ascii_of_string s).

Module Py.

(** [str.isspace] for one character: the white-space table of CPython
    ([_PyUnicode_IsWhitespace]).  [str.strip()] and the regular-expression
    class [\s] both use it. *)
Definition isspace (c : N) : bool :=
  ((9 <=? c) && (c <=? 13) || (28 <=? c) && (c <=? 32)
   || (c =? 133) || (c =? 160) || (c =? 5760)
   || (8192 <=? c) && (c <=? 8202)
   || (c =? 8232) || (c =? 8233) || (c =? 8239) || (c =? 8287)
   || (c =? 12288))%N.

Definition eqb (a b : str) : bool := bool_decide (a = b).

(** [s.startswith(p)] *)
Fixpoint startswith (p s : str) : bool :=
  match p, s with
  | [], _ => true
  | _ :: _, [] => false
  | a :: p', b :: s' => (a =? b)%N && startswith p' s'
  end.

(** [sub in s] *)
Fixpoint contains (sub s : str) : bool :=
  startswith sub s ||
  match s with
  | [] => false
  | _ :: s' => contains sub s'
  end.

(** [s.lstrip()], [s.rstrip()] and [s.strip()] without argument. *)
Fixpoint lstrip (s : str) : str :=
  match s with
  | c :: s' => if isspace c then lstrip s' else s
  | [] => []
  end.

Definition rstrip (s : str) : str := rev (lstrip (rev s)).

Definition strip (s : str) : str := rstrip (lstrip s).

(** [s.replace(old, new)] for a non-empty [old]: the occurrences are
    replaced from left to right and do not overlap.  [skip] counts the
    characters of the occurrence being replaced that are still to be
    dropped. *)
Fixpoint replace_from (old new : str) (skip : nat) (s : str) : str :=
  match s with
  | [] => []
  | c :: s' =>
      match skip with
      | S k => replace_from old new k s'
      | O =>
          if startswith old s
          then new ++ replace_from old new (Nat.pred (length old)) s'
          else c :: replace_from old new O s'
      end
  end.

Definition replace (old new s : str) : str := replace_from old new O s.

(** [s.lower()], on the ASCII letters.  The parser lowers a class name only
    to test whether it contains one of the words comment, text and
    timestamp.  Outside ASCII the lower case of a character holds an ASCII
    letter in two cases only, the Kelvin sign (k) and the dotted capital I
    (an i followed by a combining dot), and neither can be part of an
    occurrence of these words: the test gives what Python gives. *)
Definition lower_char (c : N) : N :=
  if ((65 <=? c) && (c <=? 90))%N then (c + 32)%N else c.

Definition lower (s : str) : str := map lower_char s.

(** [sep.join(parts)] *)
Fixpoint join (sep : str) (parts : list str) : str :=
  match parts with
  | [] => []
  | [p] => p
  | p :: ps => p ++ sep ++ join sep ps
  end.

(** The truth value of a string. *)
Definition truthy (s : str) : bool :=
  match s with [] => false | _ => true end.

(** [str(n)] for an integer. *)
Fixpoint uint_str (d : Decimal.uint) : str :=
  match d with
  | Decimal.Nil => []
  | Decimal.D0 d => 48%N :: uint_str d
  | Decimal.D1 d => 49%N :: uint_str d
  | Decimal.D2 d => 50%N :: uint_str d
  | Decimal.D3 d => 51%N :: uint_str d
  | Decimal.D4 d => 52%N :: uint_str d
  | Decimal.D5 d => 53%N :: uint_str d
  | Decimal.D6 d => 54%N :: uint_str d
  | Decimal.D7 d => 55%N :: uint_str d
  | Decimal.D8 d => 56%N :: uint_str d
  | Decimal.D9 d => 57%N :: uint_str d
  end.

Definition str_of_N (n : N) : str := uint_str (N.to_uint n).

Definition str_of_Z (z : Z) : str :=
  match z with
  | Zneg p => 45%N :: str_of_N (Npos p)
  | _ => str_of_N (Z.to_N z)
  end.

End Py.

(** ** Regular expressions of the parser

    The patterns on links, URLs and counts have the shape
    [prefix (class+) suffix]: a literal, a non-empty greedy run of one
    character class captured as group 1, and a literal that the class does
    not match.  [search] returns group 1 of the leftmost match.  (The two
    patterns on script texts are fields of [Runtime], with the JSON reader
    they feed.) *)
Module Re.

Fixpoint span (cls : N -> bool) (s : str) : str :=
  match s with
  | c :: s' => if cls c then c :: span cls s' else []
  | [] => []
  end.

Definition match_here (prefix : str) (cls : N -> bool) (suffix s : str)
  : option str :=
  if Py.startswith prefix s then
    let rest := drop (length prefix) s in
    let group := span cls rest in
    if Py.truthy group && Py.startswith suffix (drop (length group) rest)
    then Some group else None
  else None.

Fixpoint search (prefix : str) (cls : N -> bool) (suffix s : str)
  : option str :=
  match match_here prefix cls suffix s with
  | Some g => Some g
  | None =>
      match s with
      | [] => None
      | _ :: s' => search prefix cls suffix s'
      end
  end.

(** [\S+] as bs4 uses it to split a [class] attribute into its values
    ([nonwhitespace_re.findall]). *)
Fixpoint findall_nonspace (cur s : str) : list str :=
  match s with
  | [] => if Py.truthy cur then [rev cur] else []
  | c :: s' =>
      if Py.isspace c
      then (if Py.truthy cur then rev cur :: findall_nonspace [] s'
            else findall_nonspace [] s')
      else findall_nonspace (c :: cur) s'
  end.

End Re.

(** ** The document tree of BeautifulSoup

    [BeautifulSoup(markup, "html.parser")] turns markup into a tree of tags
    and strings.  A page is represented by that tree; the root plays the
    part of the soup object.  An attribute dictionary is kept as an
    association list, read from the left. *)

#[local] Set Warnings "-register-all".

Inductive Node : Type :=
| NavigableString (s : str)
| Tag (name : str) (attrs : list (str * str)) (contents : list Node).

Module Bs.

(** [tag.descendants]: every node below the tag, in document order. *)
Fixpoint descendants (n : Node) : list Node :=
  match n with
  | NavigableString _ => []
  | Tag _ _ cs =>
      (fix below (l : list Node) : list Node :=
         match l with
         | [] => []
         | c :: l' => c :: descendants c ++ below l'
         end) cs
  end.

(** [tag.attrs.get(key)] on the raw attribute values. *)
Definition get (n : Node) (key : str) : option str :=
  match n with
  | Tag _ attrs _ => snd <$> List.find (fun kv => Py.eqb (fst kv) key) attrs
  | NavigableString _ => None
  end.

(** [tag.get(key, default)] for a single-valued attribute. *)
Definition get_or (n : Node) (key dflt : str) : str :=
  default dflt (get n key).

(** [tag.get("class")]: the parser tree stores [class] as the list of its
    white-space separated values. *)
Definition classes (n : Node) : option (list str) :=
  Re.findall_nonspace [] <$> get n (lit "class").

(** Matching a tag name. *)
Definition named (name : str) (n : Node) : bool :=
  match n with
  | Tag nm _ _ => Py.eqb nm name
  | NavigableString _ => false
  end.

Definition is_tag (n : Node) : bool :=
  match n with Tag _ _ _ => true | NavigableString _ => false end.

(** Matching a single-valued attribute against a test ([href=...],
    [src=...], [id=...]): an absent attribute does not match. *)
Definition attr (key : str) (test : str -> bool) (n : Node) : bool :=
  match get n key with
  | Some v => test v
  | None => false
  end.

(** Matching [class_=...]: the test is tried on every class value and then
    on the values joined by a space. *)
Definition class_ (test : str -> bool) (n : Node) : bool :=
  match classes n with
  | Some cs => existsb test cs || test (Py.join (lit " ") cs)
  | None => false
  end.

Definition find_all (p : Node -> bool) (n : Node) : list Node :=
  List.filter (fun d => is_tag d && p d) (descendants n).

Definition find (p : Node -> bool) (n : Node) : option Node :=
  head (find_all p n).

(** The strings below a tag, in document order. *)
Definition strings (n : Node) : list str :=
  omap (fun d => match d with NavigableString s => Some s | _ => None end)
       (descendants n).

(** [tag.text] *)
Definition text (n : Node) : str := concat (strings n).

(** [tag.get_text(strip=True)]: every string is stripped, the empty ones
    are dropped. *)
Definition get_text_strip (n : Node) : str :=
  concat (List.filter Py.truthy (map Py.strip (strings n))).

(** [tag.string] *)
Fixpoint string_ (n : Node) : option str :=
  match n with
  | NavigableString s => Some s
  | Tag _ _ [c] => string_ c
  | Tag _ _ _ => None
  end.

End Bs.

(** ** The environment of a crawl

    The parser talks to the network and reads the clock.  Both are recorded
    in the state of the crawl: the requests and pauses in [events], the
    number of clock readings in [clock].  What the environment answers, and
    the library functions that are not modelled in this file, are the fields
    of [Runtime]. *)

Inductive Event : Type :=
| Get (url : str)
| Sleep (milliseconds : Z).

(** [session.get(url, timeout=30)] followed by [raise_for_status()]: the
    tree of the page, or a [requests.RequestException]. *)
Inductive Response : Type :=
| Page (html : Node)
| RequestFailed.

Class Runtime : Type := {
  (** the builtin [hash] on strings, fixed for one run of the interpreter *)
  hash : str -> Z;
  (** the decimal value of a decimal digit outside ASCII (category Nd) *)
  unicode_decimal : N -> option N;
  (** [datetime.now().isoformat()], given the number of earlier readings *)
  now_isoformat : nat -> str;
  (** the answer to a request, given the events so far *)
  session_get : list Event -> str -> Response;
  (** group 1 of [InitializeCommentThread\s*\(\s*[^,]+,\s*[^,]+,\s*({[^}]+})]
      in a script *)
  re_thread_data : str -> option str;
  (** [json.loads(text)] then [int(data["total_count"])]: [None] when the
      key is missing or one of the two raises *)
  json_total_count : str -> option Z;
  (** group 1 of [g_rgProfileData\s*=\s*({[^}]+})] *)
  re_profile_data : str -> option str;
  (** [json.loads(text).get("steamid")] when it is truthy, formatted as the
      f-string does; [None] when it is falsy or [json.loads] raises *)
  json_steamid : str -> option str;
  (** [urllib.parse.urljoin]: [None] when it raises [ValueError] *)
  urljoin : str -> str -> option str;
  (** the checks of [urlsplit] on a network location (brackets of an IPv6
      host, NFKC normalisation): [false] when they raise [ValueError] *)
  netloc_ok : str -> bool;
  (** [math.ceil(a / b)] in floating point for [a] of 2^53 and more: [None]
      when the division raises [OverflowError] *)
  float_ceil_div : Z -> Z -> option Z
}.

(** ** Comment records and the state of the parser *)

Inductive Status : Type := online | offline | in_game | unknown.

(** The dictionary [_parse_single_comment] returns. *)
Record Comment : Type := {
  user : str;
  steam_id : option str;
  comment_profile_url : str;
  comment_text : str;
  timestamp : str;
  avatar_url : str;
  status : Status;
  comment_id : str;
  parsed_time : str
}.

(** One value of [comments_data]. *)
Record UserData : Type := {
  count : Z;
  comments : list Comment
}.

(** The attributes of [SteamProfileCommentParser] ([comments_per_page] is
    the constant 50), and the two components of the environment. *)
Record State : Type := {
  comments_data : gmap str UserData;
  total_comments : Z;
  profile_url : option str;
  base_comments_url : option str;
  seen_comment_ids : gset str;
  clock : nat;
  events : list Event
}.

Definition comments_per_page : Z := 50.

(** [SteamProfileCommentParser()] *)
Definition __init__ : State := {|
  comments_data := ∅;
  total_comments := 0;
  profile_url := None;
  base_comments_url := None;
  seen_comment_ids := ∅;
  clock := O;
  events := []
|}.

(** The message Steam shows for a comment it has not analysed yet:
    "Это сообщение ещё не проанализировано нашей системой". *)
Definition SYSTEM_MESSAGE : str :=
  [1069; 1090; 1086; 32; 1089; 1086; 1086; 1073; 1097; 1077; 1085; 1080;
   1077; 32; 1077; 1097; 1105; 32; 1085; 1077; 32; 1087; 1088; 1086; 1072;
   1085; 1072; 1083; 1080; 1079; 1080; 1088; 1086; 1074; 1072; 1085; 1086;
   32; 1085; 1072; 1096; 1077; 1081; 32; 1089; 1080; 1089; 1090; 1077; 1084;
   1086; 1081]%N.

Section Parser.
Context `{Runtime}.

(** The characters [\d] matches, and their values for [int]. *)
Definition digit_value (c : N) : option N :=
  if ((48 <=? c) && (c <=? 57))%N then Some (c - 48)%N
  else if (c <? 128)%N then None
  else unicode_decimal c.

Definition isdigit (c : N) : bool := bool_decide (is_Some (digit_value c)).

(** [datetime.now().isoformat()] *)
Definition datetime_now (st : State) : str * State :=
  (now_isoformat (clock st),
   {| comments_data := comments_data st;
      total_comments := total_comments st;
      profile_url := profile_url st;
      base_comments_url := base_comments_url st;
      seen_comment_ids := seen_comment_ids st;
      clock := S (clock st);
      events := events st |}).

(** The effect of a request or of a pause on the environment. *)
Definition emit (e : Event) (st : State) : State :=
  {| comments_data := comments_data st;
     total_comments := total_comments st;
     profile_url := profile_url st;
     base_comments_url := base_comments_url st;
     seen_comment_ids := seen_comment_ids st;
     clock := clock st;
     events := events st ++ [e] |}.

(** *** [_parse_single_comment] *)

Definition status_of_classes (classes_str : str) : Status :=
  if Py.contains (lit "online") classes_str then online
  else if Py.contains (lit "offline") classes_str then offline
  else if Py.contains (lit "in-game") classes_str then in_game
  else unknown.

Definition _parse_single_comment (comment_element : Node) (st : State)
  : option Comment * State :=
  (* username *)
  let user_link :=
    match Bs.find (fun n => Bs.named (lit "a") n
                     && Bs.class_ (Py.eqb (lit "commentthread_author_link")) n)
                  comment_element with
    | Some l => Some l
    | None =>
        Bs.find (fun n => Bs.named (lit "a") n
                   && Bs.attr (lit "href")
                        (fun x => Py.truthy x
                                  && (Py.contains (lit "/profiles/") x
                                      || Py.contains (lit "/id/") x)) n)
                comment_element
    end in
  match user_link with
  | None => (None, st)
  | Some user_link =>
      let user_name := Bs.get_text_strip user_link in
      (* profile URL *)
      let user_profile_link := Bs.get_or user_link (lit "href") [] in
      (* steam ID extraction *)
      let steam_id :=
        if Py.truthy user_profile_link then
          match Re.search (lit "/profiles/") isdigit [] user_profile_link with
          | Some g => Some g
          | None =>
              Re.search (lit "/id/") (fun c => negb (c =? 47)%N) []
                        user_profile_link
          end
        else None in
      (* comment text *)
      let comment_text_div :=
        match Bs.find (fun n => Bs.named (lit "div") n
                         && Bs.class_ (Py.eqb (lit "commentthread_comment_text")) n)
                      comment_element with
        | Some d => Some d
        | None =>
            Bs.find (fun n => Bs.named (lit "div") n
                       && Bs.class_ (fun x => Py.truthy x
                                       && Py.contains (lit "text") (Py.lower x)) n)
                    comment_element
        end in
      let comment_text :=
        match comment_text_div with
        | Some d => Bs.get_text_strip d
        | None => []
        end in
      (* timestamp *)
      let timestamp_span :=
        match Bs.find (fun n => Bs.named (lit "span") n
                         && Bs.class_ (Py.eqb (lit "commentthread_comment_timestamp")) n)
                      comment_element with
        | Some s => Some s
        | None =>
            Bs.find (fun n => Bs.named (lit "span") n
                       && Bs.class_ (fun x => Py.truthy x
                                       && Py.contains (lit "timestamp") (Py.lower x)) n)
                    comment_element
        end in
      let timestamp :=
        match timestamp_span with
        | Some s =>
            let title := Bs.get_or s (lit "title") [] in
            if Py.truthy title then title else Bs.get_text_strip s
        | None => []
        end in
      (* avatar *)
      let avatar_img :=
        match Bs.find (fun n => Bs.named (lit "img") n
                         && Bs.attr (lit "src")
                              (Py.contains (lit "avatars.fastly.steamstatic.com")) n)
                      comment_element with
        | Some i => Some i
        | None =>
            Bs.find (fun n => Bs.named (lit "img") n
                       && Bs.attr (lit "src")
                            (Py.contains (lit "steamstatic.com")) n)
                    comment_element
        end in
      let avatar_url :=
        match avatar_img with
        | Some i => Bs.get_or i (lit "src") []
        | None => []
        end in
      (* online status *)
      let avatar_div :=
        Bs.find (fun n => Bs.named (lit "div") n
                   && Bs.class_ (fun x =>
                        Py.contains (lit "commentthread_comment_avatar") x
                        || Py.contains (lit "playerAvatar") x) n)
                comment_element in
      let status :=
        match avatar_div with
        | Some d =>
            status_of_classes (Py.join (lit " ") (default [] (Bs.classes d)))
        | None => unknown
        end in
      (* comment ID *)
      let comment_id := Bs.get_or comment_element (lit "id") [] in
      let comment_id :=
        if Py.startswith (lit "comment_") comment_id
        then Py.replace (lit "comment_") [] comment_id
        else comment_id in
      (* generate ID if missing *)
      let comment_id :=
        if Py.truthy comment_id then comment_id
        else user_name ++ lit "_" ++ timestamp ++ lit "_"
             ++ Py.str_of_Z (hash comment_text mod 1000000) in
      (* parse time *)
      let '(parsed_time, st) := datetime_now st in
      (Some {| user := user_name;
               steam_id := steam_id;
               comment_profile_url := user_profile_link;
               comment_text := comment_text;
               timestamp := timestamp;
               avatar_url := avatar_url;
               status := status;
               comment_id := comment_id;
               parsed_time := parsed_time |}, st)
  end.

End Parser.

Section Pages.
Context `{Runtime}.

(** *** [_parse_comments_from_html] *)

(** The comment blocks of a page: the [div]s of class
    [commentthread_comment], or else every [div] with a class that contains
    the word comment. *)
Definition comment_blocks (soup : Node) : list Node :=
  match Bs.find_all (fun n => Bs.named (lit "div") n
                       && Bs.class_ (Py.eqb (lit "commentthread_comment")) n)
                    soup with
  | [] =>
      Bs.find_all (fun n => Bs.named (lit "div") n
                     && Bs.class_ (fun x => Py.truthy x
                                     && Py.contains (lit "comment") (Py.lower x)) n)
                  soup
  | blocks => blocks
  end.

(** The value [comments_data[user]] has when it is read: the dictionary is
    a [defaultdict]. *)
Definition user_data (st : State) (user : str) : UserData :=
  default {| count := 0; comments := [] |} (comments_data st !! user).

(** One turn of the loop over the comment blocks, on the pair of the local
    counter [comments_count] and the state. *)
Definition parse_block (acc : Z * State) (comment : Node) : Z * State :=
  let '(comments_count, st) := acc in
  let '(comment_data, st) := _parse_single_comment comment st in
  match comment_data with
  | None => (comments_count, st)
  | Some comment_data =>
      (* skip empty comments *)
      if negb (Py.truthy (comment_text comment_data))
         || negb (Py.truthy (Py.strip (comment_text comment_data)))
      then (comments_count, st)
      (* skip system messages *)
      else if Py.contains SYSTEM_MESSAGE (comment_text comment_data)
      then (comments_count, st)
      (* skip already seen comments *)
      else if bool_decide (comment_id comment_data ∈ seen_comment_ids st)
      then (comments_count, st)
      else
        let user := user comment_data in
        let data := user_data st user in
        (comments_count + 1,
         {| comments_data :=
              <[user := {| count := count data + 1;
                           comments := comments data ++ [comment_data] |}]>
                (comments_data st);
            total_comments := total_comments st + 1;
            profile_url := profile_url st;
            base_comments_url := base_comments_url st;
            seen_comment_ids := {[comment_id comment_data]} ∪ seen_comment_ids st;
            clock := clock st;
            events := events st |})
  end.

Definition _parse_comments_from_html (html_content : Node) (st : State)
  : Z * State :=
  let soup := html_content in
  fold_left parse_block (comment_blocks soup) (0, st).

(** The pages of a crawl, parsed one after the other. *)
Definition parse_pages (pages : list Node) (st : State) : State :=
  fold_left (fun st html => snd (_parse_comments_from_html html st)) pages st.

End Pages.

(** ** Exceptions

    A computation that may raise returns a [result]; the handlers of the
    source are the [match]es on it. *)

Inductive exn : Type :=
| RequestException
| ValueError
| UnicodeEncodeError
| OverflowError.

Inductive result (A : Type) : Type :=
| Ok (a : A)
| Raise (e : exn).
Arguments Ok {A} a.
Arguments Raise {A} e.

Definition bind {A B : Type} (r : result A) (k : A -> result B) : result B :=
  match r with
  | Ok a => k a
  | Raise e => Raise e
  end.

Notation "x <- r ;; k" := (bind r (fun x => k))
  (at level 100, r at next level, right associativity).

(** ** UTF-8

    [str.encode("utf-8")] with the strict error handler, and
    [bytes.decode("utf-8", "replace")], which puts U+FFFD for every maximal
    ill-formed part of the input.  Bytes are numbers below 256. *)
Module Utf8.

#[local] Open Scope N_scope.

Definition encode_char (c : N) : option (list N) :=
  if c <? 128 then Some [c]
  else if c <? 2048 then Some [192 + c / 64; 128 + c mod 64]
  else if c <? 65536 then
    if (55296 <=? c) && (c <=? 57343) then None
    else Some [224 + c / 4096; 128 + (c / 64) mod 64; 128 + c mod 64]
  else if c <? 1114112 then
    Some [240 + c / 262144; 128 + (c / 4096) mod 64;
          128 + (c / 64) mod 64; 128 + c mod 64]
  else None.

Fixpoint encode (s : str) : option (list N) :=
  match s with
  | [] => Some []
  | c :: s' =>
      match encode_char c, encode s' with
      | Some bs, Some bs' => Some (bs ++ bs')
      | _, _ => None
      end
  end.

(** The decoder is either between two characters, or inside one: [need]
    bytes are still to come, the bits read so far are [acc], and the next
    byte has to lie between [lo] and [hi]. *)
Inductive decoder : Type :=
| Start
| Pending (need : nat) (acc lo hi : N).

Definition replacement : N := 65533.

(** A byte read between two characters: what is written, and the state. *)
Definition lead (b : N) : str * decoder :=
  if b <? 128 then ([b], Start)
  else if b <? 194 then ([replacement], Start)
  else if b <? 224 then ([], Pending 1 (b - 192) 128 191)
  else if b =? 224 then ([], Pending 2 0 160 191)
  else if b =? 237 then ([], Pending 2 13 128 159)
  else if b <? 240 then ([], Pending 2 (b - 224) 128 191)
  else if b =? 240 then ([], Pending 3 0 144 191)
  else if b <? 244 then ([], Pending 3 (b - 240) 128 191)
  else if b =? 244 then ([], Pending 3 4 128 143)
  else ([replacement], Start).

Fixpoint decode_from (d : decoder) (bs : list N) : str :=
  match bs with
  | [] =>
      match d with
      | Start => []
      | Pending _ _ _ _ => [replacement]
      end
  | b :: bs' =>
      match d with
      | Start => let '(out, d') := lead b in out ++ decode_from d' bs'
      | Pending need acc lo hi =>
          if (lo <=? b) && (b <=? hi) then
            let acc' := acc * 64 + (b - 128) in
            match need with
            | S (S k) => decode_from (Pending (S k) acc' 128 191) bs'
            | _ => acc' :: decode_from Start bs'
            end
          else
            let '(out, d') := lead b in
            replacement :: out ++ decode_from d' bs'
      end
  end.

Definition decode_replace (bs : list N) : str := decode_from Start bs.

End Utf8.

(** ** [urllib.parse]

    The functions [_get_page_url] and [_normalize_url] call, after
    CPython 3.11.  A dictionary of query parameters keeps its keys in the
    order of insertion, so it is an association list. *)
Module Url.

(** [s.find(c)] for one character: the part before the first [c] and the
    part after it. *)
Fixpoint partition (c : N) (s : str) : option (str * str) :=
  match s with
  | [] => None
  | x :: s' =>
      if (x =? c)%N then Some ([], s')
      else match partition c s' with
           | Some (before, after) => Some (x :: before, after)
           | None => None
           end
  end.

(** [s.split(c)] *)
Fixpoint split (c : N) (s : str) : list str :=
  match s with
  | [] => [[]]
  | x :: s' =>
      if (x =? c)%N then [] :: split c s'
      else match split c s' with
           | part :: parts => (x :: part) :: parts
           | [] => [[x]]
           end
  end.

(** *** Quoting *)

Definition hexdigit (n : N) : N :=
  if (n <? 10)%N then (48 + n)%N else (55 + n)%N.

Definition hexval (c : N) : option N :=
  if ((48 <=? c) && (c <=? 57))%N then Some (c - 48)%N
  else if ((65 <=? c) && (c <=? 70))%N then Some (c - 55)%N
  else if ((97 <=? c) && (c <=? 102))%N then Some (c - 87)%N
  else None.

(** [_ALWAYS_SAFE] *)
Definition always_safe (b : N) : bool :=
  ((65 <=? b) && (b <=? 90) || (97 <=? b) && (b <=? 122)
   || (48 <=? b) && (b <=? 57)
   || (b =? 95) || (b =? 46) || (b =? 45) || (b =? 126))%N.

(** [quote_from_bytes(bs, safe)] *)
Definition quote_from_bytes (safe : N -> bool) (bs : list N) : str :=
  flat_map (fun b => if always_safe b || safe b then [b]
                     else [37%N; hexdigit (b / 16); hexdigit (b mod 16)]) bs.

(** [quote(string, safe)] *)
Definition quote (safe : N -> bool) (s : str) : result str :=
  match Utf8.encode s with
  | Some bs => Ok (quote_from_bytes safe bs)
  | None => Raise UnicodeEncodeError
  end.

(** [quote_plus(string)] *)
Definition quote_plus (s : str) : result str :=
  if negb (Py.contains (lit " ") s) then quote (fun _ => false) s
  else
    quoted <- quote (fun b => (b =? 32)%N) s ;;
    Ok (Py.replace (lit " ") (lit "+") quoted).

(** [unquote_to_bytes(string)] on an ASCII string. *)
Fixpoint unquote_to_bytes (s : str) : list N :=
  match s with
  | [] => []
  | c :: s' =>
      if (c =? 37)%N then
        match s' with
        | h1 :: h2 :: rest =>
            match hexval h1, hexval h2 with
            | Some a, Some b => (16 * a + b)%N :: unquote_to_bytes rest
            | _, _ => c :: unquote_to_bytes s'
            end
        | _ => c :: unquote_to_bytes s'
        end
      else c :: unquote_to_bytes s'
  end.

(** The loop of [unquote] over the ASCII runs of the string: [run] is the
    run being read, backwards. *)
Fixpoint unquote_runs (run s : str) : str :=
  match s with
  | [] => Utf8.decode_replace (unquote_to_bytes (rev run))
  | c :: s' =>
      if (c <? 128)%N then unquote_runs (c :: run) s'
      else Utf8.decode_replace (unquote_to_bytes (rev run))
           ++ c :: unquote_runs [] s'
  end.

(** [unquote(string)] *)
Definition unquote (s : str) : str :=
  if negb (Py.contains (lit "%") s) then s else unquote_runs [] s.

(** *** Query strings *)

Abbreviation dict := (list (str * list str)).

Definition dict_mem (key : str) (d : dict) : bool :=
  existsb (fun kv => Py.eqb (fst kv) key) d.

Definition dict_get (key : str) (d : dict) : option (list str) :=
  snd <$> List.find (fun kv => Py.eqb (fst kv) key) d.

(** [d[key] = values] *)
Fixpoint dict_set (key : str) (values : list str) (d : dict) : dict :=
  match d with
  | [] => [(key, values)]
  | (k, vs) :: d' =>
      if Py.eqb k key then (k, values) :: d'
      else (k, vs) :: dict_set key values d'
  end.

(** [d[key].append(value)] when the key is there, [d[key] = [value]] when
    it is not. *)
Fixpoint dict_add (key value : str) (d : dict) : dict :=
  match d with
  | [] => [(key, [value])]
  | (k, vs) :: d' =>
      if Py.eqb k key then (k, vs ++ [value]) :: d'
      else (k, vs) :: dict_add key value d'
  end.

(** [parse_qsl(qs)] *)
Definition parse_qsl (qs : str) : list (str * str) :=
  let query_args := if Py.truthy qs then split 38 qs else [] in
  omap (fun name_value =>
          if negb (Py.truthy name_value) then None
          else match partition 61 name_value with
               | None => None
               | Some (name, value) =>
                   if Py.truthy value then
                     Some (unquote (Py.replace (lit "+") (lit " ") name),
                           unquote (Py.replace (lit "+") (lit " ") value))
                   else None
               end)
       query_args.

(** [parse_qs(qs)] *)
Definition parse_qs (qs : str) : dict :=
  fold_left (fun parsed_result nv => dict_add (fst nv) (snd nv) parsed_result)
            (parse_qsl qs) [].

(** [urlencode(query, doseq=True)] on a dictionary of lists. *)
Fixpoint quote_all (k : str) (values : list str) : result (list str) :=
  match values with
  | [] => Ok []
  | elt :: values' =>
      elt' <- quote_plus elt ;;
      rest <- quote_all k values' ;;
      Ok ((k ++ lit "=" ++ elt') :: rest)
  end.

Fixpoint urlencode_items (query : dict) : result (list str) :=
  match query with
  | [] => Ok []
  | (k, v) :: query' =>
      k' <- quote_plus k ;;
      l <- quote_all k' v ;;
      rest <- urlencode_items query' ;;
      Ok (l ++ rest)
  end.

Definition urlencode (query : dict) : result str :=
  l <- urlencode_items query ;;
  Ok (Py.join (lit "&") l).

(** *** Splitting and joining URLs *)

Record ParseResult : Type := {
  scheme : str;
  netloc : str;
  path : str;
  params : str;
  query : str;
  fragment : str
}.

(** [parsed._replace(query=q)] *)
Definition _replace_query (q : str) (parsed : ParseResult) : ParseResult :=
  {| scheme := scheme parsed;
     netloc := netloc parsed;
     path := path parsed;
     params := params parsed;
     query := q;
     fragment := fragment parsed |}.

Definition uses_netloc : list str :=
  map lit [""; "ftp"; "http"; "gopher"; "nntp"; "telnet"; "imap"; "wais";
           "file"; "mms"; "https"; "shttp"; "snews"; "prospero"; "rtsp";
           "rtspu"; "rsync"; "svn"; "svn+ssh"; "sftp"; "nfs"; "git";
           "git+ssh"; "ws"; "wss"]%string.

Definition uses_params : list str :=
  map lit [""; "ftp"; "hdl"; "prospero"; "http"; "imap"; "https"; "shttp";
           "rtsp"; "rtspu"; "sip"; "sips"; "mms"; "sftp"; "tel"]%string.

Definition is_in (s : str) (l : list str) : bool := existsb (Py.eqb s) l.

Definition is_ascii_alpha (c : N) : bool :=
  ((65 <=? c) && (c <=? 90) || (97 <=? c) && (c <=? 122))%N.

(** [c in scheme_chars] *)
Definition scheme_char (c : N) : bool :=
  is_ascii_alpha c
  || ((48 <=? c) && (c <=? 57) || (c =? 43) || (c =? 45) || (c =? 46))%N.

(** [url.lstrip(_WHATWG_C0_CONTROL_OR_SPACE)] *)
Fixpoint lstrip_c0 (url : str) : str :=
  match url with
  | c :: url' => if (c <=? 32)%N then lstrip_c0 url' else url
  | [] => []
  end.

(** The three [replace] calls that remove tabs, carriage returns and line
    feeds. *)
Definition remove_unsafe (url : str) : str :=
  List.filter (fun c => negb ((c =? 9) || (c =? 13) || (c =? 10))%N) url.

(** [_splitnetloc(url, 2)] for a [url] that starts with two slashes. *)
Definition _splitnetloc (url : str) : str * str :=
  let rest := drop 2 url in
  let domain :=
    Re.span (fun c => negb ((c =? 47) || (c =? 63) || (c =? 35))%N) rest in
  (domain, drop (length domain) rest).

(** The part before the last [c] of a string, and the part from it on. *)
Definition rpartition (c : N) (s : str) : option (str * str) :=
  match partition c (rev s) with
  | Some (after, before) => Some (rev before, c :: rev after)
  | None => None
  end.

(** [_splitparams(url)] for a [url] that contains a semicolon. *)
Definition _splitparams (url : str) : str * str :=
  match rpartition 47 url with
  | Some (head, tail) =>
      match partition 59 tail with
      | Some (before, after) => (head ++ before, after)
      | None => (url, [])
      end
  | None =>
      match partition 59 url with
      | Some (before, after) => (before, after)
      | None => (url, [])
      end
  end.

Section Split.
Context `{Runtime}.

(** [urlsplit(url)] as a [ParseResult] with empty [params]. *)
Definition urlsplit (url : str) : result ParseResult :=
  let url := remove_unsafe (lstrip_c0 url) in
  let '(scheme, url) :=
    match partition 58 url with
    | Some (c :: before, after) =>
        if is_ascii_alpha c && forallb scheme_char (c :: before)
        then (Py.lower (c :: before), after)
        else ([], url)
    | _ => ([], url)
    end in
  let '(netloc, url) :=
    if Py.startswith (lit "//") url then _splitnetloc url else ([], url) in
  let '(url, fragment) :=
    match partition 35 url with
    | Some (before, after) => (before, after)
    | None => (url, [])
    end in
  let '(url, query) :=
    match partition 63 url with
    | Some (before, after) => (before, after)
    | None => (url, [])
    end in
  if netloc_ok netloc then
    Ok {| scheme := scheme; netloc := netloc; path := url; params := [];
          query := query; fragment := fragment |}
  else Raise ValueError.

(** [urlparse(url)] *)
Definition urlparse (url : str) : result ParseResult :=
  r <- urlsplit url ;;
  let '(url, params) :=
    if is_in (scheme r) uses_params && Py.contains (lit ";") (path r)
    then _splitparams (path r)
    else (path r, []) in
  Ok {| scheme := scheme r; netloc := netloc r; path := url;
        params := params; query := query r; fragment := fragment r |}.

End Split.

(** [urlunsplit] on the five components. *)
Definition urlunsplit (scheme netloc url query fragment : str) : str :=
  let url :=
    if Py.truthy netloc
       || (Py.truthy scheme && is_in scheme uses_netloc
           && negb (Py.startswith (lit "//") url))
    then
      let url :=
        if Py.truthy url && negb (Py.startswith (lit "/") url)
        then lit "/" ++ url else url in
      lit "//" ++ netloc ++ url
    else url in
  let url := if Py.truthy scheme then scheme ++ lit ":" ++ url else url in
  let url := if Py.truthy query then url ++ lit "?" ++ query else url in
  if Py.truthy fragment then url ++ lit "#" ++ fragment else url.

(** [parsed.geturl()], that is [urlunparse(parsed)]. *)
Definition geturl (parsed : ParseResult) : str :=
  let url :=
    if Py.truthy (params parsed)
    then path parsed ++ lit ";" ++ params parsed
    else path parsed in
  urlunsplit (scheme parsed) (netloc parsed) url (query parsed)
             (fragment parsed).

End Url.

Section Crawl.
Context `{Runtime}.

(** *** [int(text)] on a string

    White space around the number is dropped, a sign may come first, and
    the digits may be grouped by single underscores; [None] stands for
    [ValueError].  (The bound recent interpreters put on the number of
    digits of a conversion is left out, here and in [Py.str_of_Z].) *)
Fixpoint int_digits (acc : N) (after_digit : bool) (s : str) : option N :=
  match s with
  | [] => if after_digit then Some acc else None
  | c :: s' =>
      match digit_value c with
      | Some d => int_digits (10 * acc + d) true s'
      | None =>
          if (c =? 95)%N && after_digit then int_digits acc false s'
          else None
      end
  end.

Definition py_int (s : str) : option Z :=
  let '(negative, body) :=
    match Py.strip s with
    | 45%N :: body => (true, body)
    | 43%N :: body => (false, body)
    | body => (false, body)
    end in
  match int_digits 0 false body with
  | Some n => Some (if negative then - Z.of_N n else Z.of_N n)
  | None => None
  end.

(** *** [_get_total_comments_count] *)

(** The loop over the script tags: the first script that makes the method
    return, and the count it returns. *)
Fixpoint script_total_count (script_tags : list Node) : option Z :=
  match script_tags with
  | [] => None
  | script :: script_tags' =>
      let returned :=
        match Bs.string_ script with
        | Some s =>
            if Py.truthy s && Py.contains (lit "InitializeCommentThread") s
            then match re_thread_data s with
                 | Some data => json_total_count data
                 | None => None
                 end
            else None
        | None => None
        end in
      match returned with
      | Some n => Some n
      | None => script_total_count script_tags'
      end
  end.

Definition all_comments_link (soup : Node) : option Node :=
  Bs.find (fun n => Bs.named (lit "a") n
             && Bs.class_ (Py.eqb (lit "commentthread_allcommentslink")) n)
          soup.

Definition totalcount_elem (soup : Node) : option Node :=
  Bs.find (Bs.attr (lit "id")
             (fun x => Py.truthy x && Py.contains (lit "totalcount") x))
          soup.

Definition _get_total_comments_count (soup : Node) : Z :=
  (* method 1: look for InitializeCommentThread script *)
  match script_total_count (Bs.find_all (Bs.named (lit "script")) soup) with
  | Some n => n
  | None =>
      (* method 2: "All comments" link with count *)
      let by_link :=
        match all_comments_link soup with
        | Some link =>
            Re.search (lit "(") isdigit (lit ")") (Bs.get_text_strip link)
        | None => None
        end in
      match by_link with
      | Some digits =>
          match py_int digits with
          | Some n => n
          | None => 0 (* the handler of the whole method *)
          end
      | None =>
          (* method 3: element containing totalcount *)
          match totalcount_elem soup with
          | Some elem =>
              match py_int (Py.strip (Bs.text elem)) with
              | Some n => n
              | None => 0
              end
          | None => 0
          end
      end
  end.

(** *** [_normalize_url] and [_get_all_comments_url] *)

Definition _normalize_url (url base_url : str) : result str :=
  if Py.startswith (lit "/") url then
    parsed <- Url.urlparse base_url ;;
    match urljoin (lit "https://" ++ Url.netloc parsed) url with
    | Some joined => Ok joined
    | None => Raise ValueError
    end
  else if negb (Py.startswith (lit "http") url) then
    match urljoin base_url url with
    | Some joined => Ok joined
    | None => Raise ValueError
    end
  else Ok url.

Definition _get_all_comments_url (soup : Node) (base_url : str) : option str :=
  (* method 1: find "All comments" link *)
  let href :=
    match all_comments_link soup with
    | Some link =>
        match Bs.get link (lit "href") with
        | Some href => if Py.truthy href then Some href else None
        | None => None
        end
    | None => None
    end in
  match href with
  | Some href =>
      match _normalize_url href base_url with
      | Ok url => Some url
      | Raise _ => None
      end
  | None =>
      (* method 2: extract from profile data *)
      let steamid :=
        match re_profile_data (Bs.text soup) with
        | Some data => json_steamid data
        | None => None
        end in
      match steamid with
      | Some steamid =>
          Some (lit "https://steamcommunity.com/profiles/" ++ steamid
                ++ lit "/allcomments")
      | None =>
          (* method 3: construct from URL pattern *)
          if Py.contains (lit "/profiles/") base_url then
            match Re.search (lit "/profiles/") isdigit [] base_url with
            | Some id =>
                Some (lit "https://steamcommunity.com/profiles/" ++ id
                      ++ lit "/allcomments")
            | None => None
            end
          else if Py.contains (lit "/id/") base_url then
            match Re.search (lit "/id/") (fun c => negb (c =? 47)%N) []
                            base_url with
            | Some name =>
                Some (lit "https://steamcommunity.com/id/" ++ name
                      ++ lit "/allcomments")
            | None => None
            end
          else None
      end
  end.

(** *** [_get_page_url] *)

Definition _get_page_url (page_num : Z) (st : State) : result str :=
  match base_comments_url st with
  | None | Some [] => Ok []
  | Some base_comments_url =>
      parsed_url <- Url.urlparse base_comments_url ;;
      let query_params := Url.parse_qs (Url.query parsed_url) in
      (* return original URL for page 1 if no 'p' parameter *)
      if (page_num =? 1) && negb (Url.dict_mem (lit "p") query_params)
      then Ok base_comments_url
      else
        (* add/update page parameter *)
        let query_params :=
          Url.dict_set (lit "p") [Py.str_of_Z page_num] query_params in
        (* reconstruct URL *)
        new_query <- Url.urlencode query_params ;;
        Ok (Url.geturl (Url._replace_query new_query parsed_url))
  end.

(** *** [_parse_all_pages_optimized] *)

(** How a turn of the page loop ends: the loop goes on with the next page
    and the given value of [no_new_comments_pages], or it is left. *)
Inductive Flow : Type :=
| Continue (no_new_comments_pages : Z)
| Break.

(** [session.get(url, timeout=30)] and [raise_for_status()] *)
Definition fetch (url : str) (st : State) : Response * State :=
  (session_get (events st) url, emit (Get url) st).

Definition page_loop_body (page_num no_new_comments_pages : Z) (st : State)
  : Flow * State :=
  match _get_page_url page_num st with
  | Raise _ => (Continue no_new_comments_pages, st)
  | Ok page_url =>
      (* rate limiting *)
      let st := emit (Sleep 500) st in
      let '(response, st) := fetch page_url st in
      match response with
      | RequestFailed => (Continue no_new_comments_pages, st)
      | Page html =>
          (* parse comments *)
          let '(comments_count, st) := _parse_comments_from_html html st in
          (* stop if no new comments for 2 consecutive pages *)
          if comments_count =? 0 then
            let no_new_comments_pages := no_new_comments_pages + 1 in
            if 2 <=? no_new_comments_pages then (Break, st)
            else (Continue no_new_comments_pages, emit (Sleep 200) st)
          else (Continue 0, emit (Sleep 200) st)
      end
  end.

Fixpoint page_loop (page_nums : list Z) (no_new_comments_pages : Z)
    (st : State) : State :=
  match page_nums with
  | [] => st
  | page_num :: page_nums' =>
      match page_loop_body page_num no_new_comments_pages st with
      | (Continue no_new_comments_pages, st) =>
          page_loop page_nums' no_new_comments_pages st
      | (Break, st) => st
      end
  end.

(** [range(2, total_pages + 1)] *)
Definition page_range (total_pages : Z) : list Z := seqZ 2 (total_pages - 1).

Definition _parse_all_pages_optimized (total_pages : Z) (st : State) : State :=
  page_loop (page_range total_pages) 0 st.

(** *** [parse_profile] *)

(** [math.ceil(a / b)].  The quotient is a floating-point number; for the
    page size 50 and a count below 2^53 its ceiling is the exact one, and
    above that the environment says what the arithmetic gives. *)
Definition math_ceil_div (a b : Z) : result Z :=
  if a <? 2 ^ 53 then Ok ((a + b - 1) / b)
  else match float_ceil_div a b with
       | Some q => Ok q
       | None => Raise OverflowError
       end.

Definition set_profile_url (url : str) (st : State) : State :=
  {| comments_data := comments_data st;
     total_comments := total_comments st;
     profile_url := Some url;
     base_comments_url := base_comments_url st;
     seen_comment_ids := seen_comment_ids st;
     clock := clock st;
     events := events st |}.

Definition set_base_comments_url (url : str) (st : State) : State :=
  {| comments_data := comments_data st;
     total_comments := total_comments st;
     profile_url := profile_url st;
     base_comments_url := Some url;
     seen_comment_ids := seen_comment_ids st;
     clock := clock st;
     events := events st |}.

(** The body of the [try] statement. *)
Definition parse_profile_try (profile_url : str) (max_pages : Z) (st : State)
  : result (gmap str UserData) * State :=
  (* load first page *)
  let '(response, st) := fetch profile_url st in
  match response with
  | RequestFailed => (Raise RequestException, st)
  | Page html =>
      let soup := html in
      (* get total comment count *)
      let total_comments := _get_total_comments_count soup in
      if 0 <? total_comments then
        (* get all comments URL *)
        match _get_all_comments_url soup profile_url with
        | Some (c :: url) =>
            let st := set_base_comments_url (c :: url) st in
            (* calculate pages to parse *)
            match math_ceil_div total_comments comments_per_page with
            | Raise e => (Raise e, st)
            | Ok total_pages =>
                let total_pages :=
                  if negb (max_pages =? 0) then Z.min total_pages max_pages
                  else total_pages in
                (* parse first page *)
                let '(_, st) := _parse_comments_from_html html st in
                (* parse remaining pages *)
                let st :=
                  if 1 <? total_pages
                  then _parse_all_pages_optimized total_pages st
                  else st in
                (Ok (comments_data st), st)
            end
        | _ =>
            (* fallback to first page only *)
            let '(_, st) := _parse_comments_from_html html st in
            (Ok (comments_data st), st)
        end
      else
        let '(_, st) := _parse_comments_from_html html st in
        (Ok (comments_data st), st)
  end.

Definition parse_profile (profile_url : str) (max_pages : Z) (st : State)
  : gmap str UserData * State :=
  let st := set_profile_url profile_url st in
  match parse_profile_try profile_url max_pages st with
  | (Ok data, st) => (data, st)
  | (Raise RequestException, st) => (∅, st)
  | (Raise _, st) => (∅, st)
  end.

End Crawl.
Definition same_parser (st st' : State) : Prop :=
  comments_data st' = comments_data st
  /\ total_comments st' = total_comments st
  /\ profile_url st' = profile_url st
  /\ base_comments_url st' = base_comments_url st
  /\ seen_comment_ids st' = seen_comment_ids st
  /\ events st' = events st.

(** The attributes the deduplication works on. *)
Definition same_store (st st' : State) : Prop :=
  comments_data st' = comments_data st
  /\ total_comments st' = total_comments st
  /\ seen_comment_ids st' = seen_comment_ids st.

Definition whitespace_only (s : str) : Prop :=
  Forall (fun c => Py.isspace c = true) s.

Definition text_rejected (c : Comment) : Prop :=
  whitespace_only (comment_text c)
  \/ Py.contains SYSTEM_MESSAGE (comment_text c) = true.

Definition rejected (st : State) (c : Comment) : Prop :=
  text_rejected c \/ comment_id c ∈ seen_comment_ids st.

Definition admitted (c : Comment) (st : State) : State :=
  {| comments_data :=
       <[user c := {| count := count (user_data st (user c)) + 1;
                      comments := comments (user_data st (user c)) ++ [c] |}]>
         (comments_data st);
     total_comments := total_comments st + 1;
     profile_url := profile_url st;
     base_comments_url := base_comments_url st;
     seen_comment_ids := {[comment_id c]} ∪ seen_comment_ids st;
     clock := clock st;
     events := events st |}.

Definition stored (st : State) (u : str) (i : nat) : option Comment :=
  comments_data st !! u ≫= fun d => comments d !! i.

Definition counts_agree (st : State) : Prop :=
  map_Forall (fun _ d => count d = Z.of_nat (length (comments d)))
             (comments_data st).

(** The pair a block or a page returns, against the counter and the state
    it started from. *)
Definition counted (n : Z) (st : State) (r : Z * State) : Prop :=
  fst r - n = total_comments (snd r) - total_comments st
  /\ fst r - n = Z.of_nat (size (seen_comment_ids (snd r)))
                 - Z.of_nat (size (seen_comment_ids st)).

Record dedup_inv (st : State) : Prop := {
  inv_total : total_comments st = Z.of_nat (size (seen_comment_ids st));
  inv_stored_seen : forall u i c,
    stored st u i = Some c -> comment_id c ∈ seen_comment_ids st;
  inv_seen_stored : forall id,
    id ∈ seen_comment_ids st ->
    exists u i c, stored st u i = Some c /\ comment_id c = id;
  inv_once : forall u1 i1 c1 u2 i2 c2,
    stored st u1 i1 = Some c1 -> stored st u2 i2 = Some c2 ->
    comment_id c1 = comment_id c2 -> u1 = u2 /\ i1 = i2
}.

Section AppearsIn.
Context `{Runtime}.
Definition appears_in (pages : list Node) (c : Comment) : Prop :=
  exists page block st st',
    page ∈ pages /\ block ∈ comment_blocks page
    /\ _parse_single_comment block st = (Some c, st').
End AppearsIn.


(** The author link, the text and the raw identifier of a comment block, as
    [_parse_single_comment] reads them. *)
Definition user_link_of (comment_element : Node) : option Node :=
  match Bs.find (fun n => Bs.named (lit "a") n
                   && Bs.class_ (Py.eqb (lit "commentthread_author_link")) n)
                comment_element with
  | Some l => Some l
  | None =>
      Bs.find (fun n => Bs.named (lit "a") n
                 && Bs.attr (lit "href")
                      (fun x => Py.truthy x
                                && (Py.contains (lit "/profiles/") x
                                    || Py.contains (lit "/id/") x)) n)
              comment_element
  end.

Definition comment_text_div_of (comment_element : Node) : option Node :=
  match Bs.find (fun n => Bs.named (lit "div") n
                   && Bs.class_ (Py.eqb (lit "commentthread_comment_text")) n)
                comment_element with
  | Some d => Some d
  | None =>
      Bs.find (fun n => Bs.named (lit "div") n
                 && Bs.class_ (fun x => Py.truthy x
                                 && Py.contains (lit "text") (Py.lower x)) n)
              comment_element
  end.

Definition block_text (comment_element : Node) : str :=
  match comment_text_div_of comment_element with
  | Some d => Bs.get_text_strip d
  | None => []
  end.

Definition block_id (comment_element : Node) : str :=
  Bs.get_or comment_element (lit "id") [].

(** [f"{user}_{timestamp}_{hash(text) % 1000000}"] *)
Definition synthesized_id `{Runtime} (user timestamp text : str) : str :=
  user ++ lit "_" ++ timestamp ++ lit "_"
  ++ Py.str_of_Z (hash text mod 1000000).

(** A page without the script that initialises the comment thread: no
    script tag has a string that contains the name of the call. *)
Definition lacks_init_script (soup : Node) : Prop :=
  Forall (fun script =>
            match Bs.string_ script with
            | Some s => Py.contains (lit "InitializeCommentThread") s = false
            | None => True
            end)
         (Bs.find_all (Bs.named (lit "script")) soup).

Section Outcome.
Context `{Runtime}.

(** What a turn of the page loop gets from a page: the URL, the number
    [_parse_comments_from_html] returns and the state after it; [None] when
    the URL cannot be built or the request fails. *)
Definition page_outcome (page_num : Z) (st : State)
  : option (str * Z * State) :=
  match _get_page_url page_num st with
  | Ok page_url =>
      match session_get (events st ++ [Sleep 500]) page_url with
      | Page html =>
          let '(comments_count, st') :=
            _parse_comments_from_html html
              (emit (Get page_url) (emit (Sleep 500) st)) in
          Some (page_url, comments_count, st')
      | RequestFailed => None
      end
  | Raise _ => None
  end.

End Outcome.

(** ** Strings, dictionaries and decoders that are well formed

    The notions the facts about [urllib.parse] are stated with. *)

(** A code point that UTF-8 can encode: not a surrogate. *)
Definition scalar_value (c : N) : Prop :=
  (c < 55296 \/ 57343 < c < 1114112)%N.

Definition well_formed (s : str) : Prop := Forall scalar_value s.

Definition is_scalar_value (c : N) : bool :=
  ((c <? 55296) || (57343 <? c) && (c <? 1114112))%N.

(** The characters [quote] writes when the space is safe. *)
Definition quoted_char (c : N) : Prop :=
  (45 <= c < 127 /\ c <> 61 \/ c = 32 \/ c = 37)%N.

Definition space_safe (b : N) : bool := (b =? 32)%N.

(** One field of a query string, as the loop of [parse_qsl] reads it. *)
Definition parse_field (name_value : str) : option (str * str) :=
  if negb (Py.truthy name_value) then None
  else match Url.partition 61 name_value with
       | None => None
       | Some (name, value) =>
           if Py.truthy value then
             Some (Url.unquote (Py.replace (lit "+") (lit " ") name),
                   Url.unquote (Py.replace (lit "+") (lit " ") value))
           else None
       end.

(** The pairs of a dictionary of lists, in the order [urlencode] writes
    them. *)
Definition dict_pairs (d : Url.dict) : list (str * str) :=
  flat_map (fun kv => map (pair (fst kv)) (snd kv)) d.

(** A dictionary as [parse_qs] builds it: every key once, no empty list,
    no empty value, and strings of scalar values. *)
Definition dict_ok (d : Url.dict) : Prop :=
  NoDup (map fst d)
  /\ Forall (fun kv => well_formed (fst kv) /\ snd kv <> []
                       /\ Forall (fun v => well_formed v /\ v <> []) (snd kv)) d.

(** A field of a query string that stands for a key and a value. *)
Definition encodes (item : str) (kv : str * str) : Prop :=
  exists qk qv,
    item = qk ++ lit "=" ++ qv
    /\ Forall (fun c => c <> 38 /\ c <> 61)%N qk
    /\ Forall (fun c => c <> 38 /\ c <> 61)%N qv
    /\ qv <> []
    /\ Url.unquote (Py.replace (lit "+") (lit " ") qk) = fst kv
    /\ Url.unquote (Py.replace (lit "+") (lit " ") qv) = snd kv.

(** The code points a decoder in the given state can still produce are
    scalar values. *)
Definition decoder_ok (d : Utf8.decoder) : Prop :=
  match d with
  | Utf8.Start => True
  | Utf8.Pending need acc lo hi =>
      (128 <= lo /\ hi <= 191)%N
      /\ exists unit : N,
           (need = 1%nat /\ unit = 1 \/ need = 2%nat /\ unit = 64
            \/ need = 3%nat /\ unit = 4096)%N
           /\ (acc * 64 * unit + (hi - 128) * unit + (unit - 1) < 55296
               \/ 57343 < acc * 64 * unit + (lo - 128) * unit
                  /\ acc * 64 * unit + (hi - 128) * unit + (unit - 1)
                     < 1114112)%N
  end.

(** ** Sample pages and a sample environment

    Concrete inputs for the examples: markup in the shape Steam serves, and
    an environment that serves a fixed site. *)
Module Sample.

Definition tag (name : string) (attrs : list (string * string))
    (contents : list Node) : Node :=
  Tag (lit name) (map (fun kv => (lit (fst kv), lit (snd kv))) attrs) contents.

Definition text (s : string) : Node := NavigableString (lit s).

Definition author (name : string) : Node :=
  tag "a" [("class", "hoverunderline commentthread_author_link");
           ("href", "https://steamcommunity.com/id/" ++ name)]%string
      [text name].

Definition body (contents : list Node) : Node :=
  tag "div" [("class", "commentthread_comment_text")]%string contents.

Definition stamp : Node :=
  tag "span" [("class", "commentthread_comment_timestamp");
              ("title", "1 January, 2024 @ 10:00:00 am")]%string
      [text "1 Jan @ 10:00am"].

(** A comment block with the given [id] attribute, author and text. *)
Definition comment (id name : string) (contents : list Node) : Node :=
  tag "div" [("class", "commentthread_comment responsive_body_text");
             ("id", id)]%string
      [author name; stamp; body contents].

Definition page (contents : list Node) : Node :=
  tag "[document]" [] [tag "html" [] [tag "body" [] contents]].

(** The site: the pages by URL; any other request fails. *)
Definition serve (site : list (string * Node)) (url : str) : Response :=
  match List.find (fun entry => Py.eqb (lit (fst entry)) url) site with
  | Some entry => Page (snd entry)
  | None => RequestFailed
  end.

Definition runtime (site : list (string * Node)) : Runtime := {|
  hash := fun s => Z.of_nat (length s) * 1000003 + 7;
  unicode_decimal := fun _ => None;
  now_isoformat := fun k => lit "2024-01-01T10:00:00." ++ Py.str_of_N (N.of_nat k);
  session_get := fun _ url => serve site url;
  re_thread_data := fun _ => None;
  json_total_count := fun _ => None;
  re_profile_data := fun _ => None;
  json_steamid := fun _ => None;
  urljoin := fun _ url => Some url;
  netloc_ok := fun _ => true;
  float_ceil_div := fun a b => if a <? 2 ^ 1024 then Some ((a + b - 1) / b) else None
|}.

(** Three blocks: the placeholder of Steam, a comment, and the same comment
    again. *)
Definition three_blocks : Node :=
  page [comment "comment_100" "alice" [NavigableString SYSTEM_MESSAGE];
        comment "comment_101" "bob" [text "nice profile"];
        comment "comment_101" "bob" [text "nice profile"]].

Definition one_block : Node :=
  page [comment "comment_101" "bob" [text "nice profile"]].

(** A block with an author and a date but no text, and blocks whose [id]
    attribute is the bare prefix, holds the prefix twice, or is missing. *)
Definition no_text_block : Node :=
  tag "div" [("class", "commentthread_comment"); ("id", "comment_7")]%string
      [author "bob"; stamp].

Definition bare_prefix_block : Node :=
  comment "comment_" "bob" [text "nice profile"].

Definition repeated_prefix_block : Node :=
  comment "comment_1comment_2" "bob" [text "nice profile"].

Definition no_id_block : Node :=
  tag "div" [("class", "commentthread_comment")]%string
      [author "bob"; stamp; body [text "nice profile"]].

(** A first page with no script and no link to all the comments, and a
    counter element. *)
Definition counter_page (count : string) : Node :=
  page [tag "div" [("class", "commentthread_header")]%string
          [tag "span" [("id", "commentthread_Profile_7_totalcount")]%string
             [text count]];
        comment "comment_101" "bob" [text "nice profile"]].

(** A listing of seven pages: pages 5 and 6 repeat comments of pages 2
    and 3, and page 7 has a comment of its own. *)
Definition listing : string := "https://steamcommunity.com/id/bob/allcomments".

Definition crawl_site : list (string * Node) :=
  [(listing ++ "?p=2", page [comment "comment_201" "ann" [text "two"]]);
   (listing ++ "?p=3", page [comment "comment_301" "bob" [text "three"]]);
   (listing ++ "?p=4", page [comment "comment_401" "cid" [text "four"]]);
   (listing ++ "?p=5", page [comment "comment_201" "ann" [text "two"]]);
   (listing ++ "?p=6", page [comment "comment_301" "bob" [text "three"]]);
   (listing ++ "?p=7", page [comment "comment_701" "dan" [text "seven"]])
  ]%string.

(** A parser that knows the listing and has parsed nothing yet. *)
Definition crawl_start : State :=
  set_base_comments_url (lit listing) __init__.

(** An environment whose first page announces more comments than a
    floating-point number can hold. *)
Definition profile : string := "https://steamcommunity.com/id/bob".

Definition huge_page : Node :=
  page [tag "script" [] [text "InitializeCommentThread( 'Profile', 'Profile_7', {} );"];
        comment "comment_101" "bob" [text "nice profile"]].

Definition huge_runtime : Runtime := {|
  hash := fun s => Z.of_nat (length s);
  unicode_decimal := fun _ => None;
  now_isoformat := fun _ => lit "2024-01-01T10:00:00";
  session_get := fun _ url => serve [(profile, huge_page)] url;
  re_thread_data := fun _ => Some (lit "{}");
  json_total_count := fun _ => Some (2 ^ 1100);
  re_profile_data := fun _ => None;
  json_steamid := fun _ => None;
  urljoin := fun _ url => Some url;
  netloc_ok := fun _ => true;
  float_ceil_div := fun a b => if a <? 2 ^ 1024 then Some ((a + b - 1) / b) else None
|}.

End Sample.

(** Linear arithmetic with quotients and remainders by constants. *)
Ltac nlia := zify; Z.to_euclidean_division_equations; lia.
(** ** Further properties of the store

    The predicates below speak of the store a crawl builds: where records
    are kept, what their texts look like, how two stores compare and what
    the per-user counters add up to. *)

(** Every record of the store is kept under the name of its author. *)
Definition filed_by_user (st : State) : Prop :=
  map_Forall (fun u d => Forall (fun c => user c = u) (comments d))
             (comments_data st).

(** Every record of the store has a text that passes the two text tests. *)
Definition texts_accepted (st : State) : Prop :=
  map_Forall (fun _ d => Forall (fun c => ~ text_rejected c) (comments d))
             (comments_data st).

(** The store of [st'] continues the store of [st]: no user is lost, and
    the list of every user starts with the list it was. *)
Definition continues (st st' : State) : Prop :=
  dom (comments_data st) ⊆ dom (comments_data st')
  /\ forall u, comments (user_data st u) `prefix_of` comments (user_data st' u).

(** The sum of the [count] fields of a store. *)
Definition sum_counts (m : gmap str UserData) : Z :=
  map_fold (fun _ d n => count d + n) 0 m.

(** ** Further properties of one record *)

(** A string that does not start with white space. *)
Definition starts_clean (s : str) : Prop :=
  match s with
  | c :: _ => Py.isspace c = false
  | [] => True
  end.

(** The two patterns [_parse_single_comment] tries on the link of the
    author, [/profiles/(\d+)] and then [/id/([^/]+)]. *)
Definition steam_id_of `{Runtime} (user_profile_link : str) : option str :=
  match Re.search (lit "/profiles/") isdigit [] user_profile_link with
  | Some g => Some g
  | None =>
      Re.search (lit "/id/") (fun c => negb (c =? 47)%N) [] user_profile_link
  end.

(** ** Further properties of a crawl *)

(** The URLs requested in a list of events, in order. *)
Definition requests (evs : list Event) : list str :=
  omap (fun e => match e with Get url => Some url | Sleep _ => None end) evs.

(** Every request of [evs] comes directly after a pause of half a second;
    [prev] is the event before the list. *)
Fixpoint paced_from (prev : option Event) (evs : list Event) : bool :=
  match evs with
  | [] => true
  | Get url :: evs' =>
      match prev with
      | Some (Sleep 500) => paced_from (Some (Get url)) evs'
      | _ => false
      end
  | Sleep ms :: evs' => paced_from (Some (Sleep ms)) evs'
  end.

(** The URL the page loop asks for page [page_num], when
    [_get_page_url] returns one. *)
Definition page_url_of `{Runtime} (st : State) (page_num : Z) : option str :=
  match _get_page_url page_num st with
  | Ok page_url => Some page_url
  | Raise _ => None
  end.

(** ** The start of [main] ([src/main.py])

    [main] reads the URL of the profile and the number of pages, prepares
    and checks the URL, and calls [parse_profile] on a new parser.  The
    definitions below follow the function up to that call; [None] stands
    for the early [return] of an input that is refused, and for the
    [ValueError] of [int] that the handler of [main] reports. *)

(** A literal of a pattern: the rest of the string after it. *)
Definition after_literal (p s : str) : option str :=
  if Py.startswith p s then Some (drop (length p) s) else None.

(** [re.match(r"https?://steamcommunity\.com/(id|profiles)/[^/]+/?", url)]:
    the pattern is tried at the start of the string, and nothing is asked
    of what follows the match. *)
Definition profile_url_match (url : str) : bool :=
  match after_literal (lit "http") url with
  | None => false
  | Some rest =>
      let host_and_path (rest : str) : bool :=
        match after_literal (lit "://steamcommunity.com/") rest with
        | None => false
        | Some rest =>
            let name (rest : str) : bool :=
              match after_literal (lit "/") rest with
              | Some (c :: _) => negb (c =? 47)%N
              | _ => false
              end in
            match after_literal (lit "id") rest with
            | Some rest => name rest
            | None => false
            end
            || match after_literal (lit "profiles") rest with
               | Some rest => name rest
               | None => false
               end
        end in
      match after_literal (lit "s") rest with
      | Some rest => host_and_path rest
      | None => false
      end
      || host_and_path rest
  end.

(** The URL [main] passes on, from the line [input] returns. *)
Definition main_profile_url (line : str) : option str :=
  let profile_url := Py.strip line in
  if negb (Py.truthy profile_url) then None
  else
    (* add https:// if missing *)
    let profile_url :=
      if negb (Py.startswith (lit "http://") profile_url
               || Py.startswith (lit "https://") profile_url)
      then lit "https://" ++ profile_url
      else profile_url in
    (* validate Steam profile URL format *)
    if negb (profile_url_match profile_url) then None
    else Some profile_url.

(** [max_pages = 200 if not max_pages_input else int(max_pages_input)] *)
Definition main_max_pages `{Runtime} (line : str) : option Z :=
  let max_pages_input := Py.strip line in
  if negb (Py.truthy max_pages_input) then Some 200
  else py_int max_pages_input.

(** [main], from the two lines it reads to the result of [parse_profile]
    and the parser after it. *)
Definition main_crawl `{Runtime} (url_line pages_line : str)
  : option (gmap str UserData * State) :=
  match main_profile_url url_line with
  | None => None
  | Some profile_url =>
      match main_max_pages pages_line with
      | None => None
      | Some max_pages => Some (parse_profile profile_url max_pages __init__)
      end
  end.

(** The URLs the pattern of [main] describes. *)
Definition profile_url_shape (url : str) : Prop :=
  exists scheme kind c rest,
    url = scheme ++ lit "://steamcommunity.com/" ++ kind ++ lit "/" ++ c :: rest
    /\ (scheme = lit "http" \/ scheme = lit "https")
    /\ (kind = lit "id" \/ kind = lit "profiles")
    /\ c <> 47%N.


Section StringFacts.

Lemma lstrip_nil_iff s : Py.lstrip s = [] <-> whitespace_only s.
Proof.
  unfold whitespace_only. induction s as [|c s IH]; simpl.
  - split; [constructor | reflexivity].
  - destruct (Py.isspace c) eqn:E.
    + rewrite IH. split; [by constructor | by inversion 1].
    + split; [discriminate | inversion 1; congruence].
Qed.

Lemma lstrip_whitespace_only s : whitespace_only (Py.lstrip s) <-> whitespace_only s.
Proof.
  unfold whitespace_only. induction s as [|c s IH]; simpl; [done|].
  destruct (Py.isspace c) eqn:E; [|done].
  rewrite IH. split; [by constructor | by inversion 1].
Qed.

Lemma strip_nil_iff s : Py.strip s = [] <-> whitespace_only s.
Proof.
  unfold Py.strip, Py.rstrip.
  rewrite <- (lstrip_whitespace_only s).
  split.
  - intros E. apply (f_equal (@rev N)) in E. rewrite rev_involutive in E. simpl in E.
    apply lstrip_nil_iff in E. unfold whitespace_only in *.
    apply Forall_rev in E. by rewrite rev_involutive in E.
  - intros W. assert (E : Py.lstrip (rev (Py.lstrip s)) = []).
    { apply lstrip_nil_iff. unfold whitespace_only in *. by apply Forall_rev. }
    by rewrite E.
Qed.

Lemma empty_test_iff s :
  negb (Py.truthy s) || negb (Py.truthy (Py.strip s)) = true <-> whitespace_only s.
Proof.
  rewrite <- strip_nil_iff. destruct s as [|c s]; simpl; [done|].
  destruct (Py.strip (c :: s)); simpl; split; done.
Qed.

End StringFacts.

Section PageProofs.
Context `{Runtime}.

Lemma parse_single_comment_frame comment st :
  same_parser st (snd (_parse_single_comment comment st)).
Proof.
  unfold _parse_single_comment.
  destruct (match Bs.find _ comment with Some l => Some l | None => _ end);
    simpl; repeat split; reflexivity.
Qed.

Lemma same_parser_store st st' : same_parser st st' -> same_store st st'.
Proof. unfold same_parser, same_store. tauto. Qed.

Lemma parse_single_comment_text comment st st' c st1 c' st1' :
  _parse_single_comment comment st = (Some c, st1) ->
  _parse_single_comment comment st' = (Some c', st1') ->
  comment_id c' = comment_id c /\ comment_text c' = comment_text c /\ user c' = user c.
Proof.
  unfold _parse_single_comment.
  destruct (match Bs.find _ comment with Some l => Some l | None => _ end);
    simpl; [|discriminate].
  intros [= <- _] [= <- _]. simpl. done.
Qed.

Lemma rejected_test st c :
  (negb (Py.truthy (comment_text c)) || negb (Py.truthy (Py.strip (comment_text c)))
   = true
   \/ Py.contains SYSTEM_MESSAGE (comment_text c) = true
   \/ bool_decide (comment_id c ∈ seen_comment_ids st) = true)
  <-> rejected st c.
Proof.
  unfold rejected, text_rejected. rewrite empty_test_iff, bool_decide_eq_true. tauto.
Qed.

Lemma parse_block_none n st comment st1 :
  _parse_single_comment comment st = (None, st1) ->
  parse_block (n, st) comment = (n, st1).
Proof. unfold parse_block. by intros ->. Qed.

Lemma parse_block_rejected n st comment c st1 :
  _parse_single_comment comment st = (Some c, st1) ->
  rejected st1 c ->
  parse_block (n, st) comment = (n, st1).
Proof.
  unfold parse_block. intros -> R. apply rejected_test in R.
  destruct (negb _ || negb _); [done|].
  destruct (Py.contains _ _); [done|].
  destruct (bool_decide _); [done|].
  destruct R as [|[|]]; done.
Qed.

Lemma parse_block_admitted n st comment c st1 :
  _parse_single_comment comment st = (Some c, st1) ->
  ~ rejected st1 c ->
  parse_block (n, st) comment = (n + 1, admitted c st1).
Proof.
  unfold parse_block. intros -> R. rewrite <- rejected_test in R.
  destruct (negb _ || negb _); [tauto|].
  destruct (Py.contains _ _); [tauto|].
  destruct (bool_decide _); [tauto|]. done.
Qed.

Lemma rejected_dec st c : rejected st c \/ ~ rejected st c.
Proof.
  rewrite <- rejected_test.
  destruct (negb _ || negb _); [tauto|].
  destruct (Py.contains _ _); [tauto|].
  destruct (bool_decide _); [tauto|]. 
  intuition discriminate.
Qed.


(** *** What admitting a record does to the store *)

Lemma stored_admitted c st u i c' :
  stored (admitted c st) u i = Some c' <->
  stored st u i = Some c'
  \/ (u = user c /\ i = length (comments (user_data st (user c))) /\ c' = c).
Proof.
  unfold stored, admitted, user_data; simpl.
  destruct (decide (u = user c)) as [->|Hne].
  - rewrite lookup_insert_eq; simpl.
    destruct (comments_data st !! user c) as [d|] eqn:E; simpl.
    + destruct (decide (i < length (comments d))%nat).
      * rewrite lookup_app_l by done. split; [tauto|].
        intros [|(_ & -> & _)]; [done | lia].
      * rewrite lookup_app_r by lia.
        rewrite (lookup_ge_None_2 (comments d) i) by lia.
        destruct (i - length (comments d))%nat as [|k] eqn:Ek; simpl.
        -- split; [intros [= <-]; right; repeat split; lia
                  | intros [|(_ & _ & ->)]; done].
        -- split; [done | intros [|(_ & -> & _)]; [done | lia]].
    + destruct i as [|i]; simpl.
      * split; [intros [= <-]; by right | intros [|(_ & _ & ->)]; done].
      * split; [done | intros [|(_ & [=] & _)]; done].
  - rewrite lookup_insert_ne by done. split; [tauto|].
    intros [|(-> & _)]; done.
Qed.

(** *** The count invariant *)

Lemma counts_agree_admitted c st : counts_agree st -> counts_agree (admitted c st).
Proof.
  unfold counts_agree, admitted, user_data; simpl. intros Hst.
  apply map_Forall_insert_2; [|done]. simpl.
  destruct (comments_data st !! user c) as [d|] eqn:E; simpl.
  - rewrite length_app, (Hst _ _ E). simpl. lia.
  - done.
Qed.

Lemma counts_agree_frame st st' : same_store st st' -> counts_agree st -> counts_agree st'.
Proof. unfold counts_agree. by intros (-> & _). Qed.

(** *** The two ways a block can go *)

Lemma parse_block_spec n st comment :
  (exists st1, same_parser st st1 /\ parse_block (n, st) comment = (n, st1)
     /\ forall c st', _parse_single_comment comment st = (Some c, st') -> rejected st c)
  \/ (exists c st1,
        _parse_single_comment comment st = (Some c, st1)
        /\ same_parser st st1 /\ ~ rejected st1 c
        /\ parse_block (n, st) comment = (n + 1, admitted c st1)).
Proof.
  pose proof (parse_single_comment_frame comment st) as Hf.
  destruct (_parse_single_comment comment st) as [[c|] st1] eqn:E; simpl in Hf.
  - destruct (rejected_dec st1 c) as [R|R].
    + left. exists st1. split; [done|]. split; [by apply (parse_block_rejected _ _ _ c)|].
      intros c' st' [= <- _]. unfold rejected in *.
      destruct Hf as (_ & _ & _ & _ & <- & _). done.
    + right. exists c, st1. by rewrite (parse_block_admitted _ _ _ _ _ E R).
  - left. exists st1. split; [done|]. split; [by apply parse_block_none | done].
Qed.

(** An invariant of the parser attributes that admitting a record keeps is
    kept by a block, a page and a sequence of pages. *)
Section Invariant.
Variable P : State -> Prop.
Hypothesis P_frame : forall st st', same_store st st' -> P st -> P st'.
Hypothesis P_admitted : forall c st, ~ rejected st c -> P st -> P (admitted c st).

Lemma parse_block_keeps n st comment :
  P st -> P (snd (parse_block (n, st) comment)).
Proof.
  intros Hst.
  destruct (parse_block_spec n st comment)
    as [(st1 & Hf & -> & _) | (c & st1 & _ & Hf & R & ->)]; simpl;
    eauto using same_parser_store.
Qed.

Lemma parse_html_keeps html st :
  P st -> P (snd (_parse_comments_from_html html st)).
Proof.
  unfold _parse_comments_from_html. generalize 0 as n.
  revert st. induction (comment_blocks html) as [|b blocks IH]; intros st n Hst;
    cbn [fold_left]; [done|].
  pose proof (parse_block_keeps n st b Hst) as Hb.
  destruct (parse_block (n, st) b) as [n' st']. by apply IH.
Qed.

Lemma parse_pages_keeps pages st : P st -> P (parse_pages pages st).
Proof.
  revert st. induction pages as [|p pages IH]; intros st Hst;
    cbn [parse_pages fold_left]; [done|].
  apply IH. by apply parse_html_keeps.
Qed.

Lemma fetch_same_store url st : same_store st (snd (fetch url st)).
Proof. done. Qed.

Lemma page_loop_body_keeps page_num k st :
  P st -> P (snd (page_loop_body page_num k st)).
Proof.
  intros Hst. unfold page_loop_body.
  destruct (_get_page_url page_num st) as [page_url|e]; [|done].
  unfold fetch; cbn [fst snd].
  destruct (session_get _ page_url) as [html|].
  - set (st1 := emit (Get page_url) (emit (Sleep 500) st)).
    assert (Hst1 : P st1) by (apply (P_frame st); done).
    pose proof (parse_html_keeps html st1 Hst1) as Hh.
    destruct (_parse_comments_from_html html st1) as [n st2]. simpl in Hh.
    destruct (n =? 0); [destruct (2 <=? k + 1)|]; simpl;
      try done; by apply (P_frame st2).
  - simpl. by apply (P_frame st).
Qed.

Lemma page_loop_keeps page_nums k st : P st -> P (page_loop page_nums k st).
Proof.
  revert k st. induction page_nums as [|n page_nums IH]; intros k st Hst;
    cbn [page_loop]; [done|].
  pose proof (page_loop_body_keeps n k st Hst) as Hb.
  destruct (page_loop_body n k st) as [[k'|] st']; simpl in Hb; auto.
Qed.

Lemma parse_profile_keeps url max_pages st :
  P st -> P (snd (parse_profile url max_pages st)).
Proof.
  intros Hst. unfold parse_profile.
  set (st0 := set_profile_url url st).
  assert (Hst0 : P st0) by (apply (P_frame st); done).
  assert (Ht : P (snd (parse_profile_try url max_pages st0))).
  { unfold parse_profile_try, fetch.
    set (st1 := emit (Get url) st0).
    assert (Hst1 : P st1) by (apply (P_frame st0); done).
    destruct (session_get (events st0) url) as [html|]; [|done].
    assert (Hfirst : forall s, P s ->
              P (snd (let '(_, s') := _parse_comments_from_html html s in
                      (Ok (comments_data s'), s')))).
    { intros s Hs. pose proof (parse_html_keeps html s Hs) as Hh.
      by destruct (_parse_comments_from_html html s). }
    destruct (0 <? _get_total_comments_count html); [|by apply Hfirst].
    destruct (_get_all_comments_url html url) as [[|c base]|];
      [by apply Hfirst| |by apply Hfirst].
    set (st2 := set_base_comments_url (c :: base) st1).
    assert (Hst2 : P st2) by (apply (P_frame st1); done).
    destruct (math_ceil_div _ _) as [total_pages|e]; [|done].
    pose proof (parse_html_keeps html st2 Hst2) as Hh.
    destruct (_parse_comments_from_html html st2) as [n st3]. simpl in Hh.
    destruct (1 <? _); simpl; [|done].
    by apply page_loop_keeps. }
  destruct (parse_profile_try url max_pages st0) as [[data|[]] st']; done.
Qed.

End Invariant.

Lemma parse_profile_result url max_pages st :
  fst (parse_profile url max_pages st)
  = comments_data (snd (parse_profile url max_pages st))
  \/ fst (parse_profile url max_pages st) = ∅.
Proof.
  unfold parse_profile.
  set (st0 := set_profile_url url st).
  assert (Ht : forall data st', parse_profile_try url max_pages st0 = (Ok data, st')
               -> data = comments_data st').
  { unfold parse_profile_try, fetch. intros data st'.
    destruct (session_get (events st0) url) as [html|]; [|discriminate].
    destruct (0 <? _).
    - destruct (_get_all_comments_url html url) as [[|c base]|].
      + destruct (_parse_comments_from_html html _); by intros [= <- <-].
      + destruct (math_ceil_div _ _); [|discriminate].
        destruct (_parse_comments_from_html html _).
        by intros [= <- <-].
      + destruct (_parse_comments_from_html html _); by intros [= <- <-].
    - destruct (_parse_comments_from_html html _); by intros [= <- <-]. }
  destruct (parse_profile_try url max_pages st0) as [[data|[]] st'] eqn:E;
    simpl; auto.
Qed.

(** *** The deduplication invariant *)

Lemma dedup_inv_init : dedup_inv __init__.
Proof.
  split; simpl.
  - done.
  - unfold stored; simpl. intros u i c. by rewrite lookup_empty.
  - intros id Hid. set_solver.
  - unfold stored; simpl. intros u1 i1 c1 u2 i2 c2. by rewrite lookup_empty.
Qed.

Lemma dedup_inv_frame st st' : same_store st st' -> dedup_inv st -> dedup_inv st'.
Proof.
  intros (Hd & Ht & Hs) [I1 I2 I3 I4].
  split; unfold stored in *; rewrite ?Hd, ?Ht, ?Hs; done.
Qed.

Lemma dedup_inv_admitted c st :
  ~ rejected st c -> dedup_inv st -> dedup_inv (admitted c st).
Proof.
  intros R [I1 I2 I3 I4].
  assert (Hfresh : comment_id c ∉ seen_comment_ids st) by (unfold rejected in R; tauto).
  split.
  - simpl. rewrite size_union by (by apply disjoint_singleton_l).
    rewrite size_singleton. lia.
  - intros u i c' [Hold|(_ & _ & ->)]%stored_admitted; simpl.
    + apply elem_of_union_r. eauto.
    + apply elem_of_union_l. by apply elem_of_singleton.
  - simpl. intros id [->%elem_of_singleton|Hid]%elem_of_union.
    + exists (user c), (length (comments (user_data st (user c)))), c.
      split; [|done]. apply stored_admitted. by right.
    + destruct (I3 id Hid) as (u & i & c' & Hst & Hc).
      exists u, i, c'. split; [|done]. apply stored_admitted. by left.
  - intros u1 i1 c1 u2 i2 c2
      [H1|(-> & -> & ->)]%stored_admitted [H2|(-> & -> & ->)]%stored_admitted Hid.
    + eauto.
    + exfalso. apply Hfresh. rewrite <- Hid. eauto.
    + exfalso. apply Hfresh. rewrite Hid. eauto.
    + done.
Qed.

Lemma parse_pages_dedup_inv pages : dedup_inv (parse_pages pages __init__).
Proof.
  apply parse_pages_keeps;
    eauto using dedup_inv_frame, dedup_inv_admitted, dedup_inv_init.
Qed.

Lemma parse_profile_dedup_inv url max_pages :
  dedup_inv (snd (parse_profile url max_pages __init__)).
Proof.
  apply parse_profile_keeps;
    eauto using dedup_inv_frame, dedup_inv_admitted, dedup_inv_init.
Qed.

(** *** What a page returns *)

Lemma parse_block_counted n st comment :
  counted n st (parse_block (n, st) comment).
Proof.
  destruct (parse_block_spec n st comment)
    as [(st1 & (_ & Ht & _ & _ & Hs & _) & -> & _)
       | (c & st1 & _ & (_ & Ht & _ & _ & Hs & _) & R & ->)];
    unfold counted; simpl.
  - rewrite Ht, Hs. lia.
  - assert (Hfresh : comment_id c ∉ seen_comment_ids st1)
      by (unfold rejected in R; tauto).
    rewrite size_union by (by apply disjoint_singleton_l).
    rewrite size_singleton, Ht, Hs. lia.
Qed.

Lemma fold_parse_block_counted blocks n st :
  counted n st (fold_left parse_block blocks (n, st)).
Proof.
  revert n st. induction blocks as [|b blocks IH]; intros n st;
    cbn [fold_left].
  - unfold counted; simpl. lia.
  - pose proof (parse_block_counted n st b) as Hb.
    destruct (parse_block (n, st) b) as [n' st'].
    specialize (IH n' st'). unfold counted in *. simpl in Hb. lia.
Qed.

(** *** The set of seen identifiers only grows *)

Lemma parse_block_seen_mono n st comment :
  seen_comment_ids st ⊆ seen_comment_ids (snd (parse_block (n, st) comment)).
Proof.
  apply (parse_block_keeps (fun st' => seen_comment_ids st ⊆ seen_comment_ids st'));
    [| |done].
  - intros s s' (_ & _ & ->). done.
  - intros c s _ Hs. simpl. set_solver.
Qed.

Lemma parse_html_seen_mono html st :
  seen_comment_ids st ⊆ seen_comment_ids (snd (_parse_comments_from_html html st)).
Proof.
  apply (parse_html_keeps (fun st' => seen_comment_ids st ⊆ seen_comment_ids st'));
    [| |done].
  - intros s s' (_ & _ & ->). done.
  - intros c s _ Hs. simpl. set_solver.
Qed.

Lemma parse_pages_seen_mono pages st :
  seen_comment_ids st ⊆ seen_comment_ids (parse_pages pages st).
Proof.
  apply (parse_pages_keeps (fun st' => seen_comment_ids st ⊆ seen_comment_ids st'));
    [| |done].
  - intros s s' (_ & _ & ->). done.
  - intros c s _ Hs. simpl. set_solver.
Qed.

(** *** A record that passes the text filters is seen afterwards *)

Lemma parse_block_sees n st comment c st0 st0' :
  _parse_single_comment comment st0 = (Some c, st0') ->
  ~ text_rejected c ->
  comment_id c ∈ seen_comment_ids (snd (parse_block (n, st) comment)).
Proof.
  intros E0 T.
  destruct (parse_block_spec n st comment)
    as [(st1 & Hf & -> & Hrej) | (c' & st1 & E & Hf & R & ->)]; simpl.
  - destruct (_parse_single_comment comment st) as [[c'|] st'] eqn:E.
    + destruct (parse_single_comment_text _ _ _ _ _ _ _ E0 E) as (Hid & Htx & _).
      destruct (Hrej c' st' eq_refl) as [[W|S]|Hin].
      * exfalso. apply T. left. by rewrite <- Htx.
      * exfalso. apply T. right. by rewrite <- Htx.
      * destruct Hf as (_ & _ & _ & _ & -> & _). by rewrite <- Hid.
    + exfalso. revert E0 E. unfold _parse_single_comment.
      destruct (match Bs.find _ comment with Some l => Some l | None => _ end);
        simpl; discriminate.
  - destruct (parse_single_comment_text _ _ _ _ _ _ _ E0 E) as (Hid & _).
    rewrite <- Hid. set_solver.
Qed.

Lemma fold_parse_block_sees blocks n st comment c st0 st0' :
  comment ∈ blocks ->
  _parse_single_comment comment st0 = (Some c, st0') ->
  ~ text_rejected c ->
  comment_id c ∈ seen_comment_ids (snd (fold_left parse_block blocks (n, st))).
Proof.
  intros Hin E0 T. revert n st.
  induction blocks as [|b blocks IH]; intros n st; [by inversion Hin|].
  cbn [fold_left].
  apply elem_of_cons in Hin as [->|Hin].
  - pose proof (parse_block_sees n st b c st0 st0' E0 T) as Hs.
    destruct (parse_block (n, st) b) as [n' st']. simpl in Hs.
    pose proof (parse_html_seen_mono (Tag [] [] []) st').
    clear IH. revert n' Hs. generalize st'. clear.
    induction blocks as [|b' blocks IH]; intros st n Hs; cbn [fold_left]; [done|].
    pose proof (parse_block_seen_mono n st b') as Hm.
    destruct (parse_block (n, st) b') as [n' st']. apply IH. set_solver.
  - destruct (parse_block (n, st) b) as [n' st']. by apply IH.
Qed.

Lemma parse_pages_sees pages st c :
  appears_in pages c -> ~ text_rejected c ->
  comment_id c ∈ seen_comment_ids (parse_pages pages st).
Proof.
  intros (page & block & st0 & st0' & Hp & Hb & E0) T. revert st.
  induction pages as [|p pages IH]; intros st; [by inversion Hp|].
  cbn [parse_pages fold_left].
  apply elem_of_cons in Hp as [->|Hp].
  - apply parse_pages_seen_mono. unfold _parse_comments_from_html.
    by eapply fold_parse_block_sees.
  - by apply IH.
Qed.

End PageProofs.

(** ** Facts about UTF-8 and [urllib.parse] *)

Section Utf8Facts.
#[local] Open Scope N_scope.
Import Utf8.

Lemma lead_ascii b : b < 128 -> lead b = ([b], Start).
Proof. intros. unfold lead. destruct (N.ltb_spec b 128); [done | lia]. Qed.

Lemma lead_two b : 194 <= b < 224 -> lead b = ([], Pending 1 (b - 192) 128 191).
Proof.
  intros. unfold lead.
  repeat match goal with |- context [N.ltb ?a ?b] => destruct (N.ltb_spec a b); try lia end.
  done.
Qed.

Lemma lead_three b :
  224 <= b < 240 ->
  lead b = ([], Pending 2 (b - 224) (if b =? 224 then 160 else 128)
                         (if b =? 237 then 159 else 191)).
Proof.
  intros. unfold lead.
  repeat match goal with
         | |- context [N.ltb ?a ?b] => destruct (N.ltb_spec a b); try lia
         | |- context [N.eqb ?a ?b] => destruct (N.eqb_spec a b); try lia
         end; subst; done.
Qed.

Lemma lead_four b :
  240 <= b < 245 ->
  lead b = ([], Pending 3 (b - 240) (if b =? 240 then 144 else 128)
                         (if b =? 244 then 143 else 191)).
Proof.
  intros. unfold lead.
  repeat match goal with
         | |- context [N.ltb ?a ?b] => destruct (N.ltb_spec a b); try lia
         | |- context [N.eqb ?a ?b] => destruct (N.eqb_spec a b); try lia
         end; subst; done.
Qed.

Lemma pending_more k acc lo hi b bs :
  lo <= b <= hi ->
  decode_from (Pending (S (S k)) acc lo hi) (b :: bs)
  = decode_from (Pending (S k) (acc * 64 + (b - 128)) 128 191) bs.
Proof.
  intros. cbn [decode_from].
  destruct (N.leb_spec lo b); [|lia]. destruct (N.leb_spec b hi); [|lia]. done.
Qed.

Lemma pending_last acc lo hi b bs :
  lo <= b <= hi ->
  decode_from (Pending 1 acc lo hi) (b :: bs)
  = (acc * 64 + (b - 128)) :: decode_from Start bs.
Proof.
  intros. cbn [decode_from].
  destruct (N.leb_spec lo b); [|lia]. destruct (N.leb_spec b hi); [|lia]. done.
Qed.

Lemma start_step b bs :
  decode_from Start (b :: bs) = fst (lead b) ++ decode_from (snd (lead b)) bs.
Proof. cbn [decode_from]. by destruct (lead b). Qed.

Lemma decode_encode_char c bs rest :
  encode_char c = Some bs ->
  decode_from Start (bs ++ rest) = c :: decode_from Start rest.
Proof.
  unfold encode_char.
  destruct (N.ltb_spec c 128).
  { intros [= <-]. cbn [app]. by rewrite start_step, lead_ascii. }
  destruct (N.ltb_spec c 2048).
  { intros [= <-]. cbn [app].
    rewrite start_step, lead_two by nlia. cbn [app fst snd].
    rewrite pending_last by nlia. f_equal. nlia. }
  destruct (N.ltb_spec c 65536).
  { destruct (N.leb_spec 55296 c); destruct (N.leb_spec c 57343);
      cbn [andb]; try discriminate; intros [= <-]; cbn [app];
      rewrite start_step, lead_three by nlia; cbn [app fst snd];
      (rewrite pending_more;
       [| repeat match goal with
                 | |- context [N.eqb ?a ?b] => destruct (N.eqb_spec a b)
                 end; nlia]);
      rewrite pending_last by nlia; f_equal; nlia. }
  destruct (N.ltb_spec c 1114112); [|discriminate].
  intros [= <-]. cbn [app].
  rewrite start_step, lead_four by nlia. cbn [app fst snd].
  rewrite pending_more;
    [| repeat match goal with
              | |- context [N.eqb ?a ?b] => destruct (N.eqb_spec a b)
              end; nlia].
  rewrite pending_more by nlia.
  rewrite pending_last by nlia. f_equal. nlia.
Qed.

Lemma decode_encode s bs :
  encode s = Some bs -> decode_replace bs = s.
Proof.
  unfold decode_replace. revert bs. induction s as [|c s IH]; intros bs; simpl.
  - by intros [= <-].
  - destruct (encode_char c) as [b1|] eqn:E1; [|discriminate].
    destruct (encode s) as [b2|]; [|discriminate].
    intros [= <-]. rewrite (decode_encode_char _ _ _ E1). f_equal. by apply IH.
Qed.

End Utf8Facts.

Section QuoteFacts.
#[local] Open Scope N_scope.
Import Utf8 Url.

(** single characters *)
Lemma contains_char a s : Py.contains [a] s = existsb (N.eqb a) s.
Proof.
  induction s as [|c s IH]; [done|]. cbn [Py.contains Py.startswith existsb].
  rewrite IH. by rewrite andb_true_r.
Qed.

Lemma replace_char a b s :
  Py.replace [a] [b] s = map (fun c => if a =? c then b else c) s.
Proof.
  unfold Py.replace. induction s as [|c s IH]; [done|].
  cbn [Py.replace_from Py.startswith length Nat.pred map]. rewrite andb_true_r.
  destruct (a =? c); cbn [app]; by rewrite IH.
Qed.

Lemma existsb_false_Forall {A} (f : A -> bool) l :
  existsb f l = false <-> Forall (fun x => f x = false) l.
Proof.
  induction l as [|x l IH]; simpl; [split; [constructor|done]|].
  rewrite orb_false_iff, IH. split; [intros []; by constructor | by inversion 1].
Qed.

Lemma hexval_hexdigit n : n < 16 -> hexval (hexdigit n) = Some n.
Proof.
  intros Hn. unfold hexval, hexdigit.
  destruct (N.ltb_spec n 10).
  - destruct (N.leb_spec 48 (48 + n)); [|lia].
    destruct (N.leb_spec (48 + n) 57); [|lia]. simpl. f_equal. lia.
  - destruct (N.leb_spec 48 (55 + n)); [|lia].
    destruct (N.leb_spec (55 + n) 57); [lia|]. simpl.
    destruct (N.leb_spec 65 (55 + n)); [|lia].
    destruct (N.leb_spec (55 + n) 70); [|lia]. simpl. f_equal. lia.
Qed.

Lemma always_safe_range b :
  always_safe b = true -> 45 <= b < 127 /\ b <> 61.
Proof.
  unfold always_safe. rewrite !orb_true_iff, !andb_true_iff, !N.leb_le, !N.eqb_eq. lia.
Qed.

Lemma hexdigit_range n :
  n < 16 -> 48 <= hexdigit n <= 57 \/ 65 <= hexdigit n <= 70.
Proof. unfold hexdigit. destruct (N.ltb_spec n 10); lia. Qed.

Lemma quote_from_bytes_cons safe b bs :
  quote_from_bytes safe (b :: bs)
  = (if always_safe b || safe b then [b]
     else [37; hexdigit (b / 16); hexdigit (b mod 16)])
    ++ quote_from_bytes safe bs.
Proof. reflexivity. Qed.

Lemma quote_from_bytes_chars bs :
  Forall (fun b => b < 256) bs ->
  Forall quoted_char (quote_from_bytes space_safe bs).
Proof.
  induction 1 as [|b bs Hb _ IH]; [constructor|].
  rewrite quote_from_bytes_cons. apply Forall_app. split; [|done].
  destruct (always_safe b) eqn:Es; cbn [orb].
  - apply Forall_singleton. left. by apply always_safe_range.
  - unfold space_safe. destruct (N.eqb_spec b 32) as [->|].
    + apply Forall_singleton. right. by left.
    + pose proof (hexdigit_range (b / 16) ltac:(nlia)).
      pose proof (hexdigit_range (b mod 16) ltac:(nlia)).
      repeat apply Forall_cons_2; try apply Forall_nil_2; unfold quoted_char; lia.
Qed.

Lemma unquote_quote_bytes bs :
  Forall (fun b => b < 256) bs ->
  unquote_to_bytes (quote_from_bytes space_safe bs) = bs.
Proof.
  induction 1 as [|b bs Hb _ IH]; [done|].
  rewrite quote_from_bytes_cons.
  destruct (always_safe b || space_safe b) eqn:Es; cbn [app].
  - cbn [unquote_to_bytes]. destruct (N.eqb_spec b 37) as [->|]; [done|].
    by rewrite IH.
  - cbn [unquote_to_bytes]. rewrite N.eqb_refl.
    rewrite !hexval_hexdigit by nlia. rewrite IH. f_equal. nlia.
Qed.

(** Without a percent sign nothing was escaped. *)
Lemma quote_from_bytes_plain bs :
  existsb (N.eqb 37) (quote_from_bytes space_safe bs) = false ->
  quote_from_bytes space_safe bs = bs /\ Forall (fun b => b < 128) bs.
Proof.
  induction bs as [|b bs IH]; [done|].
  rewrite quote_from_bytes_cons.
  destruct (always_safe b || space_safe b) eqn:Es; cbn [app existsb].
  - intros [_ E]%orb_false_iff. destruct (IH E) as [-> Hall]. split; [done|].
    constructor; [|done].
    apply orb_true_iff in Es as [Es|Es].
    + apply always_safe_range in Es. lia.
    + unfold space_safe in Es. apply N.eqb_eq in Es. lia.
  - by rewrite N.eqb_refl.
Qed.

Lemma decode_ascii bs :
  Forall (fun b => b < 128) bs -> decode_replace bs = bs.
Proof.
  unfold decode_replace. induction 1 as [|b bs Hb _ IH]; [done|].
  rewrite start_step, lead_ascii by done. cbn [fst snd app]. by rewrite IH.
Qed.

Lemma unquote_runs_ascii run s :
  Forall (fun c => c < 128) s ->
  unquote_runs run s = decode_replace (unquote_to_bytes (rev run ++ s)).
Proof.
  intros Hs. revert run. induction Hs as [|c s Hc _ IH]; intros run.
  - by rewrite app_nil_r.
  - cbn [unquote_runs]. destruct (N.ltb_spec c 128); [|lia].
    rewrite IH. cbn [rev]. by rewrite <- app_assoc.
Qed.

Lemma quoted_char_ascii s : Forall quoted_char s -> Forall (fun c => c < 128) s.
Proof.
  intros Hs. eapply Forall_impl; [exact Hs|]. unfold quoted_char. intros; lia.
Qed.

(** [unquote] undoes [quote]. *)
Lemma unquote_quote s bs :
  encode s = Some bs -> Forall (fun b => b < 256) bs ->
  unquote (quote_from_bytes space_safe bs) = s.
Proof.
  intros E Hbs. unfold unquote. change (lit "%") with [37].
  rewrite contains_char.
  destruct (existsb _ _) eqn:Ep; cbn [negb].
  - rewrite unquote_runs_ascii
      by (apply quoted_char_ascii; by apply quote_from_bytes_chars).
    cbn [rev app]. rewrite unquote_quote_bytes by done. by apply decode_encode.
  - destruct (quote_from_bytes_plain _ Ep) as [-> Hall].
    rewrite <- (decode_ascii bs Hall). by apply decode_encode.
Qed.

End QuoteFacts.

Section QuotePlus.
#[local] Open Scope N_scope.
Import Utf8 Url.

Lemma encode_char_scalar c :
  scalar_value c ->
  exists bs, encode_char c = Some bs /\ Forall (fun b => b < 256) bs
             /\ bs <> [] /\ (c <> 32 -> Forall (fun b => b <> 32) bs).
Proof.
  intros Hc. unfold encode_char, scalar_value in *.
  destruct (N.ltb_spec c 128).
  { eexists. split; [done|]. repeat split; [|done|].
    - apply Forall_singleton. lia.
    - intros. by apply Forall_singleton. }
  destruct (N.ltb_spec c 2048).
  { eexists. split; [done|]. repeat split; [|done|];
      intros; repeat apply Forall_cons_2; try apply Forall_nil_2; nlia. }
  destruct (N.ltb_spec c 65536).
  { destruct (N.leb_spec 55296 c); destruct (N.leb_spec c 57343);
      cbn [andb]; try lia;
      (eexists; split; [done|]; repeat split; [|done|];
       intros; repeat apply Forall_cons_2; try apply Forall_nil_2; nlia). }
  destruct (N.ltb_spec c 1114112); [|lia].
  eexists. split; [done|]. repeat split; [|done|];
    intros; repeat apply Forall_cons_2; try apply Forall_nil_2; nlia.
Qed.

Lemma encode_well_formed s :
  well_formed s ->
  exists bs, encode s = Some bs /\ Forall (fun b => b < 256) bs
             /\ (s <> [] -> bs <> [])
             /\ (Forall (fun c => c <> 32) s -> Forall (fun b => b <> 32) bs).
Proof.
  induction 1 as [|c s Hc _ (bs & E & Hb & Hne & Hsp)].
  - exists []. repeat split; done.
  - destruct (encode_char_scalar c Hc) as (b1 & E1 & Hb1 & Hne1 & Hsp1).
    exists (b1 ++ bs). cbn [encode]. rewrite E1, E. repeat split.
    + by apply Forall_app.
    + intros _. destruct b1; done.
    + intros Hs. inversion Hs; subst. apply Forall_app; auto.
Qed.

Lemma quote_from_bytes_no_space bs :
  Forall (fun b => b <> 32) bs ->
  quote_from_bytes (fun _ => false) bs = quote_from_bytes space_safe bs.
Proof.
  induction 1 as [|b bs Hb _ IH]; [done|].
  rewrite !quote_from_bytes_cons, IH. unfold space_safe.
  destruct (N.eqb_spec b 32); done.
Qed.

Lemma quote_from_bytes_keeps_no_space bs :
  Forall (fun b => b < 256) bs -> Forall (fun b => b <> 32) bs ->
  Forall (fun c => c <> 32) (quote_from_bytes space_safe bs).
Proof.
  induction 1 as [|b bs Hb _ IH]; intros Hsp; [constructor|].
  inversion Hsp; subst.
  rewrite quote_from_bytes_cons. apply Forall_app. split; [|auto].
  destruct (always_safe b || space_safe b).
  - by apply Forall_singleton.
  - pose proof (hexdigit_range (b / 16) ltac:(nlia)).
    pose proof (hexdigit_range (b mod 16) ltac:(nlia)).
    repeat apply Forall_cons_2; try apply Forall_nil_2; lia.
Qed.

Lemma quote_from_bytes_nonempty safe bs :
  bs <> [] -> quote_from_bytes safe bs <> [].
Proof.
  destruct bs as [|b bs]; [done|]. intros _. rewrite quote_from_bytes_cons.
  by destruct (always_safe b || safe b).
Qed.

Lemma map_plus_space s :
  Forall quoted_char s ->
  map (fun c => if 43 =? c then 32 else c)
      (map (fun c => if 32 =? c then 43 else c) s) = s.
Proof.
  induction 1 as [|c s Hc _ IH]; [done|]. cbn [map]. rewrite IH. f_equal.
  destruct (N.eqb_spec 32 c) as [<-|]; [done|].
  destruct (N.eqb_spec 43 c) as [<-|]; [|done]. unfold quoted_char in Hc. lia.
Qed.

Lemma map_plus_id s :
  Forall quoted_char s -> map (fun c => if 43 =? c then 32 else c) s = s.
Proof.
  induction 1 as [|c s Hc _ IH]; [done|]. cbn [map]. rewrite IH. f_equal.
  destruct (N.eqb_spec 43 c) as [<-|]; [|done]. unfold quoted_char in Hc. lia.
Qed.

(** What [quote_plus] writes can be cut at [&] and [=], and [unquote] after
    the plus signs are put back gives the string again. *)
Lemma quote_plus_spec s :
  well_formed s ->
  exists q, quote_plus s = Ok q
            /\ unquote (Py.replace (lit "+") (lit " ") q) = s
            /\ Forall (fun c => c <> 38 /\ c <> 61) q
            /\ (s <> [] -> q <> []).
Proof.
  intros Hs. destruct (encode_well_formed s Hs) as (bs & E & Hb & Hne & Hsp).
  pose proof (quote_from_bytes_chars bs Hb) as Hq.
  unfold quote_plus, quote. rewrite E. cbn [bind].
  change (lit " ") with [32]. change (lit "+") with [43].
  rewrite contains_char.
  destruct (existsb (N.eqb 32) s) eqn:Esp; cbn [negb].
  - eexists. split; [done|]. rewrite !replace_char.
    rewrite map_plus_space by done. split; [by apply unquote_quote|]. split.
    + apply Forall_map. eapply Forall_impl; [exact Hq|].
      intros c Hc. cbn beta. unfold quoted_char in Hc.
      destruct (N.eqb_spec 32 c); lia.
    + intros Hn Hm. apply map_eq_nil in Hm. revert Hm.
      by apply quote_from_bytes_nonempty, Hne.
  - apply existsb_false_Forall in Esp.
    assert (Hsp' : Forall (fun c => c <> 32) s).
    { eapply Forall_impl; [exact Esp|]. intros c Hc. cbn beta in Hc.
      apply N.eqb_neq in Hc. lia. }
    rewrite quote_from_bytes_no_space by auto.
    eexists. split; [done|]. rewrite replace_char.
    rewrite map_plus_id by done. split; [by apply unquote_quote|]. split.
    + pose proof (quote_from_bytes_keeps_no_space bs Hb (Hsp Hsp')) as H32.
      apply Forall_forall. intros c Hin.
      pose proof (proj1 (Forall_forall _ _) Hq c Hin) as Hc.
      pose proof (proj1 (Forall_forall _ _) H32 c Hin) as Hc'.
      unfold quoted_char in Hc. cbn beta in Hc'. lia.
    + intros Hn. by apply quote_from_bytes_nonempty, Hne.
Qed.

End QuotePlus.

Section QueryFacts.
#[local] Open Scope N_scope.
Import Url.

Lemma split_plain c p : Forall (fun x => x <> c) p -> split c p = [p].
Proof.
  induction 1 as [|x p Hx _ IH]; [done|]. cbn [split].
  destruct (N.eqb_spec x c); [done|]. by rewrite IH.
Qed.

Lemma split_app c p rest :
  Forall (fun x => x <> c) p -> split c (p ++ c :: rest) = p :: split c rest.
Proof.
  induction 1 as [|x p Hx _ IH]; cbn [app split].
  - by rewrite N.eqb_refl.
  - destruct (N.eqb_spec x c); [done|]. by rewrite IH.
Qed.

Lemma partition_app c p rest :
  Forall (fun x => x <> c) p -> partition c (p ++ c :: rest) = Some (p, rest).
Proof.
  induction 1 as [|x p Hx _ IH]; cbn [app partition].
  - by rewrite N.eqb_refl.
  - destruct (N.eqb_spec x c); [done|]. by rewrite IH.
Qed.

Lemma split_join items :
  items <> [] -> Forall (Forall (fun x => x <> 38)) items ->
  split 38 (Py.join (lit "&") items) = items.
Proof.
  intros Hne Hall. induction Hall as [|p items Hp Hall IH]; [done|].
  destruct items as [|p' items].
  - cbn [Py.join]. by apply split_plain.
  - change (Py.join (lit "&") (p :: p' :: items))
      with (p ++ 38 :: Py.join (lit "&") (p' :: items)).
    rewrite split_app by done. by rewrite IH.
Qed.

Lemma encodes_no_amp item kv :
  encodes item kv -> Forall (fun x => x <> 38) item /\ item <> [].
Proof.
  intros (qk & qv & -> & Hk & Hv & Hne & _). split.
  - apply Forall_app. split; [|apply Forall_cons_2; [done|]].
    + eapply Forall_impl; [exact Hk|]. intros; cbn beta in *; lia.
    + cbn [app]. eapply Forall_impl; [exact Hv|]. intros; cbn beta in *; lia.
  - by destruct qk.
Qed.

Lemma parse_field_encodes item kv : encodes item kv -> parse_field item = Some kv.
Proof.
  intros He. destruct (encodes_no_amp _ _ He) as [_ Hne].
  destruct He as (qk & qv & -> & Hk & Hv & Hqv & Ek & Ev).
  unfold parse_field.
  assert (Ht : Py.truthy (qk ++ lit "=" ++ qv) = true) by by destruct qk.
  rewrite Ht. cbn [negb].
  change (lit "=" ++ qv) with (61 :: qv). rewrite partition_app.
  - destruct qv; [done|]. cbn [Py.truthy]. rewrite Ek, Ev. by destruct kv.
  - eapply Forall_impl; [exact Hk|]. intros; cbn beta in *; lia.
Qed.

Lemma parse_qsl_join items pairs :
  Forall2 encodes items pairs -> parse_qsl (Py.join (lit "&") items) = pairs.
Proof.
  intros Hall. unfold parse_qsl. fold parse_field.
  destruct Hall as [|item kv items pairs He Hall]; [done|].
  assert (Hitems : Forall2 encodes (item :: items) (kv :: pairs)) by by constructor.
  assert (Hamp : Forall (Forall (fun x => x <> 38)) (item :: items)).
  { clear -Hitems. induction Hitems; constructor; [|done].
    by eapply encodes_no_amp. }
  assert (Htruthy : Py.truthy (Py.join (lit "&") (item :: items)) = true).
  { destruct (encodes_no_amp _ _ He) as [_ Hne].
    destruct item; [done|]. by destruct items. }
  rewrite Htruthy, split_join by done.
  clear -Hitems. induction Hitems as [|i p its ps Hi _ IH]; [done|].
  cbn [omap list_omap]. by rewrite (parse_field_encodes _ _ Hi), IH.
Qed.

End QueryFacts.

Section EncodeFacts.
#[local] Open Scope N_scope.
Import Url.

Lemma quote_all_encodes k qk vs :
  Forall (fun c => c <> 38 /\ c <> 61) qk ->
  unquote (Py.replace (lit "+") (lit " ") qk) = k ->
  Forall (fun v => well_formed v /\ v <> []) vs ->
  exists l, quote_all qk vs = Ok l /\ Forall2 encodes l (map (pair k) vs).
Proof.
  intros Hqk Ek. induction 1 as [|v vs [Hv Hne] _ (l & El & Hl)].
  - exists []. split; [done | constructor].
  - destruct (quote_plus_spec v Hv) as (qv & Eq & Eu & Hc & Hn).
    exists ((qk ++ lit "=" ++ qv) :: l). cbn [quote_all]. rewrite Eq. cbn [bind].
    rewrite El. cbn [bind]. split; [done|].
    constructor; [|done]. exists qk, qv. auto 10.
Qed.

Lemma urlencode_items_encodes d :
  dict_ok d ->
  exists items, urlencode_items d = Ok items
                /\ Forall2 encodes items (dict_pairs d).
Proof.
  intros [_ Hall]. induction Hall as [|[k vs] d (Hk & _ & Hvs) _ (items & Ei & Hi)].
  - exists []. split; [done | constructor].
  - cbn [fst snd] in *.
    destruct (quote_plus_spec k Hk) as (qk & Eq & Eu & Hc & _).
    destruct (quote_all_encodes k qk vs Hc Eu Hvs) as (l & El & Hl).
    exists (l ++ items). cbn [urlencode_items]. rewrite Eq. cbn [bind].
    rewrite El. cbn [bind]. rewrite Ei. cbn [bind]. split; [done|].
    unfold dict_pairs. cbn [flat_map fst snd]. by apply Forall2_app.
Qed.

(** *** Grouping the pairs again *)

Lemma dict_add_fresh k v acc :
  k ∉ map fst acc -> dict_add k v acc = acc ++ [(k, [v])].
Proof.
  induction acc as [|[k' vs] acc IH]; intros Hk; [done|].
  cbn [dict_add app]. unfold Py.eqb.
  rewrite bool_decide_eq_false_2 by (intros ->; apply Hk; cbn; left).
  rewrite IH; [done|]. intros Hin. apply Hk. cbn. by right.
Qed.

Lemma dict_add_last k v ws acc :
  k ∉ map fst acc ->
  dict_add k v (acc ++ [(k, ws)]) = acc ++ [(k, ws ++ [v])].
Proof.
  induction acc as [|[k' vs] acc IH]; intros Hk.
  - cbn [dict_add app]. unfold Py.eqb. by rewrite bool_decide_eq_true_2.
  - cbn [dict_add app]. unfold Py.eqb.
    rewrite bool_decide_eq_false_2 by (intros ->; apply Hk; cbn; left).
    rewrite IH; [done|]. intros Hin. apply Hk. cbn. by right.
Qed.

Lemma fold_dict_add_values k vs ws acc :
  k ∉ map fst acc ->
  fold_left (fun parsed_result nv => dict_add (fst nv) (snd nv) parsed_result)
            (map (pair k) vs) (acc ++ [(k, ws)])
  = acc ++ [(k, ws ++ vs)].
Proof.
  intros Hk. revert ws. induction vs as [|v vs IH]; intros ws.
  - by rewrite app_nil_r.
  - cbn [map fold_left fst snd]. rewrite dict_add_last by done.
    rewrite IH. by rewrite <- app_assoc.
Qed.

Lemma fold_dict_add_pairs d acc :
  NoDup (map fst acc ++ map fst d) ->
  Forall (fun kv => snd kv <> []) d ->
  fold_left (fun parsed_result nv => dict_add (fst nv) (snd nv) parsed_result)
            (dict_pairs d) acc
  = acc ++ d.
Proof.
  intros Hnd Hall. revert acc Hnd.
  induction Hall as [|[k vs] d Hvs _ IH]; intros acc Hnd.
  - by rewrite app_nil_r.
  - cbn [snd] in Hvs. destruct vs as [|v vs]; [done|].
    unfold dict_pairs. cbn [flat_map fst snd map]. rewrite fold_left_app.
    cbn [fold_left fst snd].
    assert (Hk : k ∉ map fst acc).
    { cbn [map fst] in Hnd. apply NoDup_app in Hnd as (_ & Hd & _).
      intros Hin. apply (Hd k Hin). left. }
    rewrite dict_add_fresh by done.
    rewrite fold_dict_add_values by done. cbn [app].
    fold (dict_pairs d). rewrite IH.
    + by rewrite <- app_assoc.
    + rewrite map_app. cbn [map fst]. rewrite <- app_assoc. exact Hnd.
Qed.

(** [parse_qs] reads back what [urlencode] writes. *)
Lemma parse_qs_urlencode d :
  dict_ok d -> exists q, urlencode d = Ok q /\ parse_qs q = d.
Proof.
  intros Hd. destruct (urlencode_items_encodes d Hd) as (items & Ei & Hi).
  exists (Py.join (lit "&") items). unfold urlencode. rewrite Ei. cbn [bind].
  split; [done|]. unfold parse_qs. rewrite (parse_qsl_join _ _ Hi).
  destruct Hd as [Hnd Hall].
  rewrite fold_dict_add_pairs; [done | done |].
  eapply Forall_impl; [exact Hall|]. by intros kv (_ & ? & _).
Qed.

End EncodeFacts.

Section DecodeFacts.
#[local] Open Scope N_scope.
Import Utf8 Url.

Lemma lead_ok b :
  b < 256 -> Forall scalar_value (fst (lead b)) /\ decoder_ok (snd (lead b)).
Proof.
  intros Hb. unfold lead, scalar_value, replacement.
  repeat match goal with
         | |- context [N.ltb ?a ?b] => destruct (N.ltb_spec a b)
         | |- context [N.eqb ?a ?b] => destruct (N.eqb_spec a b)
         end; cbn [fst snd decoder_ok]; subst;
    (split; [first [apply Forall_nil_2 | apply Forall_singleton; lia] | ]);
    try done; (split; [lia|]).
  - exists 1. lia.
  - exists 64. lia.
  - exists 64. lia.
  - exists 64. lia.
  - exists 4096. lia.
  - exists 4096. lia.
  - exists 4096. lia.
Qed.

Lemma decode_from_scalar d bs :
  Forall (fun b => b < 256) bs -> decoder_ok d ->
  Forall scalar_value (decode_from d bs).
Proof.
  intros Hbs. revert d. induction Hbs as [|b bs Hb _ IH]; intros d Hd.
  - destruct d; cbn [decode_from]; [constructor|].
    apply Forall_singleton. unfold scalar_value, replacement. lia.
  - destruct (lead_ok b Hb) as [Hout Hst].
    destruct d as [|need acc lo hi].
    + rewrite start_step. apply Forall_app. split; [done | by apply IH].
    + cbn [decode_from].
      destruct (N.leb_spec lo b); cbn [andb];
        [destruct (N.leb_spec b hi)|]; cbn [andb].
      * destruct Hd as (Hlohi & unit & Hunit & Hrange).
        destruct need as [|[|[|[|need]]]]; try lia.
        -- apply Forall_cons_2; [|by apply IH]. unfold scalar_value. lia.
        -- apply IH. cbn [decoder_ok]. split; [lia|]. exists 1. lia.
        -- apply IH. cbn [decoder_ok]. split; [lia|]. exists 64. lia.
      * destruct (lead b) as [out d']. cbn [fst snd] in *.
        apply Forall_cons_2; [unfold scalar_value, replacement; lia|].
        apply Forall_app. split; [done | by apply IH].
      * destruct (lead b) as [out d']. cbn [fst snd] in *.
        apply Forall_cons_2; [unfold scalar_value, replacement; lia|].
        apply Forall_app. split; [done | by apply IH].
Qed.

Lemma decode_from_nonempty d bs :
  (bs <> [] \/ d <> Start) -> decode_from d bs <> [].
Proof.
  revert d. induction bs as [|b bs IH]; intros d Hd.
  - destruct d; [by destruct Hd | done].
  - destruct d as [|need acc lo hi].
    + rewrite start_step. unfold lead.
      repeat match goal with
             | |- context [N.ltb ?a ?b] => destruct (N.ltb_spec a b)
             | |- context [N.eqb ?a ?b] => destruct (N.eqb_spec a b)
             end; cbn [fst snd app]; try done; apply IH; by right.
    + cbn [decode_from].
      destruct ((lo <=? b) && (b <=? hi)).
      * destruct need as [|[|need]]; [done|done|]. apply IH. by right.
      * by destruct (lead b).
Qed.

Lemma unquote_to_bytes_bound s :
  Forall (fun c => c < 128) s -> Forall (fun b => b < 256) (unquote_to_bytes s).
Proof.
  intros Hs.
  assert (Hgen : forall n s, (length s <= n)%nat -> Forall (fun c => c < 128) s ->
                             Forall (fun b => b < 256) (unquote_to_bytes s)).
  { clear. induction n as [|n IH]; intros s Hn Hs.
    - destruct s; [constructor | simpl in Hn; lia].
    - destruct s as [|c s]; [constructor|]. cbn [unquote_to_bytes].
      inversion Hs as [|? ? Hc Hs']; subst. simpl in Hn.
      assert (Hplain : Forall (fun b => b < 256) (c :: unquote_to_bytes s)).
      { apply Forall_cons_2; [lia|]. apply IH; [lia | done]. }
      destruct (c =? 37); [|done].
      destruct s as [|h1 [|h2 rest]]; [done..|].
      destruct (hexval h1) as [a|] eqn:E1; [|done].
      destruct (hexval h2) as [b|] eqn:E2; [|done].
      apply Forall_cons_2.
      + assert (a < 16 /\ b < 16); [|lia].
        revert E1 E2. unfold hexval.
        repeat match goal with
               | |- context [N.leb ?a ?b] => destruct (N.leb_spec a b)
               end; cbn [andb]; intros [= <-] [= <-]; lia.
      + apply IH; [simpl in *; lia|].
        inversion Hs' as [|? ? _ Hs'']; subst. by inversion Hs''. }
  by apply (Hgen (length s)).
Qed.

Lemma unquote_to_bytes_nonempty s : s <> [] -> unquote_to_bytes s <> [].
Proof.
  destruct s as [|c s]; [done|]. intros _. cbn [unquote_to_bytes].
  destruct (c =? 37); [|done].
  destruct s as [|h1 [|h2 rest]]; [done..|].
  by destruct (hexval h1), (hexval h2).
Qed.

Lemma unquote_runs_well_formed run s :
  Forall (fun c => c < 128) run -> well_formed s ->
  well_formed (unquote_runs run s).
Proof.
  intros Hrun Hs. revert run Hrun.
  induction Hs as [|c s Hc _ IH]; intros run Hrun; cbn [unquote_runs].
  - apply decode_from_scalar; [|done].
    apply unquote_to_bytes_bound. by apply Forall_rev.
  - destruct (N.ltb_spec c 128).
    + apply IH. by constructor.
    + apply Forall_app. split.
      * apply decode_from_scalar; [|done].
        apply unquote_to_bytes_bound. by apply Forall_rev.
      * apply Forall_cons_2; [done|]. by apply IH.
Qed.

Lemma unquote_runs_nonempty run s :
  run <> [] \/ s <> [] -> unquote_runs run s <> [].
Proof.
  revert run. induction s as [|c s IH]; intros run Hne; cbn [unquote_runs].
  - apply decode_from_nonempty. left. apply unquote_to_bytes_nonempty.
    destruct Hne as [Hne|]; [|done]. intros Hr.
    apply (f_equal (@rev N)) in Hr. rewrite rev_involutive in Hr. done.
  - destruct (c <? 128).
    + apply IH. by left.
    + intros E. by apply app_eq_nil in E as [_ ?].
Qed.

Lemma unquote_well_formed s : well_formed s -> well_formed (unquote s).
Proof.
  intros Hs. unfold unquote. destruct (negb _); [done|].
  by apply unquote_runs_well_formed.
Qed.

Lemma unquote_nonempty s : s <> [] -> unquote s <> [].
Proof.
  intros Hs. unfold unquote. destruct (negb _); [done|].
  apply unquote_runs_nonempty. by right.
Qed.

End DecodeFacts.

Section DictFacts.
#[local] Open Scope N_scope.
Import Url.

Lemma split_Forall (P : N -> Prop) c s :
  Forall P s -> Forall (Forall P) (split c s).
Proof.
  induction 1 as [|x s Hx _ IH]; cbn [split].
  - by repeat constructor.
  - destruct (x =? c); [by constructor|].
    destruct (split c s) as [|part parts]; [by repeat constructor|].
    inversion IH; subst. constructor; [by constructor | done].
Qed.

Lemma partition_Forall (P : N -> Prop) c s before after :
  partition c s = Some (before, after) -> Forall P s ->
  Forall P before /\ Forall P after.
Proof.
  revert before. induction s as [|x s IH]; intros before; cbn [partition];
    [done|].
  intros E Hs. inversion Hs as [|? ? Hx Hs']; subst.
  destruct (x =? c).
  - injection E as <- <-. by split.
  - destruct (partition c s) as [[b a]|]; [|done]. injection E as <- <-.
    destruct (IH b eq_refl Hs'). split; [by constructor | done].
Qed.

Lemma plus_to_space_well_formed s :
  well_formed s -> well_formed (Py.replace (lit "+") (lit " ") s).
Proof.
  intros Hs. change (lit "+") with [43]. change (lit " ") with [32].
  rewrite replace_char. apply Forall_map. eapply Forall_impl; [exact Hs|].
  intros c Hc. cbn beta. destruct (43 =? c); [|done]. unfold scalar_value. lia.
Qed.

Lemma plus_to_space_nonempty s :
  s <> [] -> Py.replace (lit "+") (lit " ") s <> [].
Proof.
  change (lit "+") with [43]. change (lit " ") with [32].
  rewrite replace_char. by destruct s.
Qed.

Lemma parse_qsl_ok qs :
  well_formed qs ->
  Forall (fun nv => well_formed (fst nv) /\ well_formed (snd nv) /\ snd nv <> [])
         (parse_qsl qs).
Proof.
  intros Hqs. unfold parse_qsl.
  assert (Hargs : Forall well_formed (if Py.truthy qs then split 38 qs else [])).
  { destruct (Py.truthy qs); [by apply split_Forall | constructor]. }
  induction Hargs as [|nv args Hnv _ IH]; [constructor|].
  cbn [omap list_omap]. destruct (negb (Py.truthy nv)); [done|].
  destruct (partition 61 nv) as [[name value]|] eqn:E; [|done].
  destruct (partition_Forall _ _ _ _ _ E Hnv) as [Hname Hvalue].
  destruct value as [|v value]; [done|]. cbn [Py.truthy].
  constructor; [|done]. cbn [fst snd]. repeat split.
  - by apply unquote_well_formed, plus_to_space_well_formed.
  - by apply unquote_well_formed, plus_to_space_well_formed.
  - by apply unquote_nonempty, plus_to_space_nonempty.
Qed.

Lemma dict_add_keys k v d :
  map fst (dict_add k v d)
  = if bool_decide (k ∈ map fst d) then map fst d else map fst d ++ [k].
Proof.
  induction d as [|[k' vs] d IH]; [done|]. cbn [dict_add map fst].
  unfold Py.eqb. destruct (decide (k' = k)) as [->|Hne].
  - rewrite bool_decide_eq_true_2 by done.
    rewrite (bool_decide_eq_true_2 (k ∈ k :: map fst d)) by left. done.
  - rewrite bool_decide_eq_false_2 by done. cbn [map fst]. rewrite IH.
    destruct (decide (k ∈ map fst d)) as [Hin|Hin].
    + rewrite !bool_decide_eq_true_2; [done | by right | done].
    + rewrite !bool_decide_eq_false_2; [done | | done].
      intros [?|?]%elem_of_cons; congruence.
Qed.

Lemma dict_add_ok k v d :
  well_formed k -> well_formed v -> v <> [] -> dict_ok d ->
  dict_ok (dict_add k v d).
Proof.
  intros Hk Hv Hne [Hnd Hall]. split.
  - rewrite dict_add_keys. case_bool_decide; [done|].
    apply NoDup_app. split; [done|]. split; [|apply NoDup_singleton].
    intros x Hx ->%list_elem_of_singleton. done.
  - clear Hnd. induction Hall as [|[k' vs] d (Hk' & Hvs & Hvals) Hd IH].
    + cbn [dict_add]. apply Forall_singleton. cbn [fst snd].
      split; [done|]. split; [done|]. by apply Forall_singleton.
    + cbn [dict_add fst snd] in *. destruct (Py.eqb k' k).
      * constructor; [|done]. cbn [fst snd]. split; [done|].
        split; [by destruct vs|]. apply Forall_app. split; [done|].
        by apply Forall_singleton.
      * by constructor.
Qed.

Lemma parse_qs_ok qs : well_formed qs -> dict_ok (parse_qs qs).
Proof.
  intros Hqs. unfold parse_qs.
  assert (Hinit : dict_ok []) by (split; constructor).
  revert Hinit. generalize (@nil (str * list str)).
  induction (parse_qsl_ok qs Hqs) as [|[k v] pairs (Hk & Hv & Hne) _ IH];
    intros acc Hacc; cbn [fold_left]; [done|].
  apply IH. by apply dict_add_ok.
Qed.

Lemma dict_set_keys k vs d :
  map fst (dict_set k vs d)
  = if bool_decide (k ∈ map fst d) then map fst d else map fst d ++ [k].
Proof.
  induction d as [|[k' ws] d IH]; [done|]. cbn [dict_set map fst].
  unfold Py.eqb. destruct (decide (k' = k)) as [->|Hne].
  - rewrite bool_decide_eq_true_2 by done.
    rewrite (bool_decide_eq_true_2 (k ∈ k :: map fst d)) by left. done.
  - rewrite bool_decide_eq_false_2 by done. cbn [map fst]. rewrite IH.
    destruct (decide (k ∈ map fst d)) as [Hin|Hin].
    + rewrite !bool_decide_eq_true_2; [done | by right | done].
    + rewrite !bool_decide_eq_false_2; [done | | done].
      intros [?|?]%elem_of_cons; congruence.
Qed.

Lemma dict_set_ok k vs d :
  well_formed k -> vs <> [] -> Forall (fun v => well_formed v /\ v <> []) vs ->
  dict_ok d -> dict_ok (dict_set k vs d).
Proof.
  intros Hk Hne Hvs [Hnd Hall]. split.
  - rewrite dict_set_keys. case_bool_decide; [done|].
    apply NoDup_app. split; [done|]. split; [|apply NoDup_singleton].
    intros x Hx ->%list_elem_of_singleton. done.
  - clear Hnd. induction Hall as [|[k' ws] d Hkv Hd IH].
    + cbn [dict_set]. by apply Forall_singleton.
    + cbn [dict_set]. destruct (Py.eqb k' k) eqn:E.
      * constructor; [|done]. cbn [fst snd] in *. by destruct Hkv.
      * by constructor.
Qed.

Lemma dict_get_set_eq k vs d : dict_get k (dict_set k vs d) = Some vs.
Proof.
  unfold dict_get. induction d as [|[k' ws] d IH]; cbn [dict_set List.find fst].
  - unfold Py.eqb. by rewrite bool_decide_eq_true_2.
  - destruct (Py.eqb k' k) eqn:E; cbn [List.find fst]; by rewrite E.
Qed.

Lemma dict_get_set_ne k k' vs d :
  k' <> k -> dict_get k' (dict_set k vs d) = dict_get k' d.
Proof.
  intros Hne. unfold dict_get.
  induction d as [|[k0 ws] d IH]; cbn [dict_set List.find fst].
  - unfold Py.eqb. by rewrite bool_decide_eq_false_2 by done.
  - unfold Py.eqb in *. destruct (decide (k0 = k)) as [->|Hk0].
    + rewrite bool_decide_eq_true_2 by done. cbn [List.find fst].
      by rewrite bool_decide_eq_false_2 by done.
    + rewrite bool_decide_eq_false_2 by done. cbn [List.find fst].
      destruct (bool_decide (k0 = k')); [done|]. exact IH.
Qed.

End DictFacts.

Section SplitFacts.
Context `{Runtime}.
Import Url.

Lemma lstrip_c0_Forall (P : N -> Prop) s : Forall P s -> Forall P (lstrip_c0 s).
Proof.
  induction 1 as [|c s Hc Hs IH]; cbn [lstrip_c0]; [constructor|].
  destruct (c <=? 32)%N; [done | by constructor].
Qed.

Lemma filter_Forall {A} (P : A -> Prop) f (s : list A) :
  Forall P s -> Forall P (List.filter f s).
Proof.
  induction 1 as [|c s Hc Hs IH]; cbn [List.filter]; [constructor|].
  destruct (f c); [by constructor | done].
Qed.

Lemma span_Forall (P : N -> Prop) cls s : Forall P s -> Forall P (Re.span cls s).
Proof.
  induction 1 as [|c s Hc Hs IH]; cbn [Re.span]; [constructor|].
  destruct (cls c); [by constructor | constructor].
Qed.

(** The query [urlsplit] cuts out of a URL is made of characters of the
    URL. *)
Lemma urlsplit_query (P : N -> Prop) url r :
  urlsplit url = Ok r -> Forall P url -> Forall P (query r).
Proof.
  intros E Hurl. unfold urlsplit in E.
  assert (H0 : Forall P (remove_unsafe (lstrip_c0 url)))
    by by apply filter_Forall, lstrip_c0_Forall.
  revert E. generalize dependent (remove_unsafe (lstrip_c0 url)). intros u0 H0.
  match goal with
  | |- context [let '(a, b) := ?X in _] => destruct X as [sch u1] eqn:E1
  end.
  assert (H1 : Forall P u1).
  { revert E1. destruct (partition 58 u0) as [[[|c before] after]|] eqn:Ep;
      try by intros [= _ <-].
    destruct (_ && _); intros [= _ <-]; [|done].
    by destruct (partition_Forall P _ _ _ _ Ep H0). }
  clear E1 H0.
  match goal with
  | |- context [let '(a, b) := ?X in _] => destruct X as [loc u2] eqn:E2
  end.
  assert (H2 : Forall P u2).
  { revert E2. destruct (Py.startswith _ _); [|by intros [= _ <-]].
    unfold _splitnetloc. intros [= _ <-]. by apply Forall_drop, Forall_drop. }
  clear E2 H1.
  match goal with
  | |- context [let '(a, b) := ?X in _] => destruct X as [u3 frag] eqn:E3
  end.
  assert (H3 : Forall P u3).
  { revert E3. destruct (partition 35 u2) as [[b a]|] eqn:Ep; intros [= <- _];
      [|done]. by destruct (partition_Forall P _ _ _ _ Ep H2). }
  clear E3 H2.
  match goal with
  | |- context [let '(a, b) := ?X in _] => destruct X as [u4 q] eqn:E4
  end.
  assert (H4 : Forall P q).
  { revert E4. destruct (partition 63 u3) as [[b a]|] eqn:Ep; intros [= _ <-];
      [|constructor]. by destruct (partition_Forall P _ _ _ _ Ep H3). }
  destruct (netloc_ok loc); [|discriminate]. by intros [= <-].
Qed.

Lemma urlparse_query (P : N -> Prop) url parsed :
  urlparse url = Ok parsed -> Forall P url -> Forall P (query parsed).
Proof.
  unfold urlparse. destruct (urlsplit url) as [r|] eqn:E; [|discriminate].
  cbn [bind]. intros Ep Hurl. pose proof (urlsplit_query P url r E Hurl) as Hq.
  revert Ep.
  match goal with
  | |- context [let '(a, b) := ?X in _] => destruct X
  end.
  by intros [= <-].
Qed.

End SplitFacts.

Section DecimalFacts.

Lemma uint_str_digits d : Forall (fun c => 48 <= c <= 57)%N (Py.uint_str d).
Proof. induction d; cbn [Py.uint_str]; constructor; (lia || done). Qed.

Lemma str_of_Z_digits (z : Z) :
  (0 <= z)%Z -> Forall (fun c => 48 <= c <= 57)%N (Py.str_of_Z z) /\ Py.str_of_Z z <> [].
Proof.
  intros Hz. unfold Py.str_of_Z, Py.str_of_N.
  destruct z as [|p|p]; [| |lia].
  - split; [apply uint_str_digits | done].
  - split; [apply uint_str_digits|]. cbn [Z.to_N N.to_uint].
    pose proof (DecimalPos.Unsigned.to_uint_nonnil p) as Hp.
    by destruct (Pos.to_uint p).
Qed.

End DecimalFacts.

Lemma well_formed_check s : forallb is_scalar_value s = true -> well_formed s.
Proof.
  intros Hs. apply Forall_forall. intros c Hc.
  apply list_elem_of_In in Hc.
  pose proof (proj1 (forallb_forall _ _) Hs c Hc) as Hb.
  unfold is_scalar_value in Hb. unfold scalar_value.
  apply orb_true_iff in Hb as [Hb|Hb].
  - apply N.ltb_lt in Hb. lia.
  - apply andb_true_iff in Hb as [H1 H2].
    apply N.ltb_lt in H1, H2. lia.
Qed.


(** ** The properties of the specification: deduplication and counting *)

Section PageClaims.
Context `{Runtime}.

(** C1.  Whatever pages a crawl parses, a comment identifier is stored at
    most once; every record found on the pages that passes the text filters
    is stored exactly once, however often it appears; and after the crawl
    [total_comments] is the size of [seen_comment_ids], which is the set of
    the identifiers stored.  The same invariant holds after [parse_profile]
    on a new parser. *)
Theorem comments_are_admitted_once (pages : list Node) (url : str) (max_pages : Z) :
  let st := parse_pages pages __init__ in
  (forall c, appears_in pages c -> ~ text_rejected c ->
     exists u i,
       (exists c', stored st u i = Some c' /\ comment_id c' = comment_id c)
       /\ forall u' i' c',
            stored st u' i' = Some c' -> comment_id c' = comment_id c ->
            u' = u /\ i' = i)
  /\ (forall u1 i1 c1 u2 i2 c2,
        stored st u1 i1 = Some c1 -> stored st u2 i2 = Some c2 ->
        comment_id c1 = comment_id c2 -> u1 = u2 /\ i1 = i2)
  /\ total_comments st = Z.of_nat (size (seen_comment_ids st))
  /\ (forall id, id ∈ seen_comment_ids st <->
                 exists u i c, stored st u i = Some c /\ comment_id c = id)
  /\ dedup_inv (snd (parse_profile url max_pages __init__)).
Proof.
  intros st. destruct (parse_pages_dedup_inv pages) as [I1 I2 I3 I4].
  fold st in I1, I2, I3, I4.
  split; [|split; [exact I4|split; [exact I1|split]]].
  - intros c Hc T.
    destruct (I3 (comment_id c)) as (u & i & c' & Hs & Hid).
    { by apply parse_pages_sees. }
    exists u, i. split; [by exists c'|].
    intros u' i' c'' Hs' Hid'. eapply I4; eauto. congruence.
  - intros id. split; [apply I3|]. intros (u & i & c & Hs & <-). eauto.
  - apply parse_profile_dedup_inv.
Qed.

(** C2.  After any sequence of pages parsed by a new parser, and in the
    mapping [parse_profile] returns, the [count] of every user is the length
    of the list of that user's comments. *)
Theorem count_is_number_of_comments (pages : list Node) (url : str) (max_pages : Z) :
  map_Forall (fun _ d => count d = Z.of_nat (length (comments d)))
             (comments_data (parse_pages pages __init__))
  /\ map_Forall (fun _ d => count d = Z.of_nat (length (comments d)))
                (fst (parse_profile url max_pages __init__)).
Proof.
  assert (Hinit : counts_agree __init__) by apply map_Forall_empty.
  split.
  - apply (parse_pages_keeps counts_agree);
      eauto using counts_agree_frame, counts_agree_admitted.
  - pose proof (parse_profile_keeps counts_agree counts_agree_frame
                  (fun c st _ => counts_agree_admitted c st) url max_pages
                  __init__ Hinit) as Hp.
    destruct (parse_profile_result url max_pages __init__) as [-> | ->];
      [exact Hp | apply map_Forall_empty].
Qed.

(** C9.  A block whose record is rejected, because its text is empty or
    white space, or contains the placeholder of Steam, or because its
    identifier has been seen, leaves [seen_comment_ids], [comments_data] and
    [total_comments] as they were (and the counter of the page too). *)
Theorem rejecting_changes_nothing (n : Z) (st : State) (comment : Node)
    (c : Comment) (st1 : State) :
  _parse_single_comment comment st = (Some c, st1) ->
  whitespace_only (comment_text c)
  \/ Py.contains SYSTEM_MESSAGE (comment_text c) = true
  \/ comment_id c ∈ seen_comment_ids st ->
  seen_comment_ids (snd (parse_block (n, st) comment)) = seen_comment_ids st
  /\ comments_data (snd (parse_block (n, st) comment)) = comments_data st
  /\ total_comments (snd (parse_block (n, st) comment)) = total_comments st
  /\ fst (parse_block (n, st) comment) = n.
Proof.
  intros E R.
  pose proof (parse_single_comment_frame comment st) as Hf.
  rewrite E in Hf. simpl in Hf. destruct Hf as (Hd & Ht & _ & _ & Hs & _).
  rewrite (parse_block_rejected n st comment c st1 E).
  - done.
  - unfold rejected, text_rejected. rewrite Hs. tauto.
Qed.

(** C10.  The number a page returns is the number of records the page
    added: the growth of [total_comments], and of [seen_comment_ids]. *)
Theorem page_returns_new_admissions (html : Node) (st : State) :
  fst (_parse_comments_from_html html st)
  = total_comments (snd (_parse_comments_from_html html st)) - total_comments st
  /\ fst (_parse_comments_from_html html st)
     = Z.of_nat (size (seen_comment_ids (snd (_parse_comments_from_html html st))))
       - Z.of_nat (size (seen_comment_ids st)).
Proof.
  pose proof (fold_parse_block_counted (comment_blocks html) 0 st) as Hc.
  unfold counted in Hc. unfold _parse_comments_from_html. lia.
Qed.

End PageClaims.

(** ** The properties of the specification: one comment block *)

Section BlockFacts.
Context `{Runtime}.

Lemma parse_single_comment_none comment st :
  fst (_parse_single_comment comment st) = None <-> user_link_of comment = None.
Proof.
  unfold _parse_single_comment, user_link_of.
  destruct (match Bs.find _ comment with Some l => Some l | None => _ end);
    simpl; split; done.
Qed.

Lemma parse_single_comment_fields comment st c st1 :
  _parse_single_comment comment st = (Some c, st1) ->
  comment_text c = block_text comment
  /\ comment_id c =
       (let stripped :=
          if Py.startswith (lit "comment_") (block_id comment)
          then Py.replace (lit "comment_") [] (block_id comment)
          else block_id comment in
        if Py.truthy stripped then stripped
        else synthesized_id (user c) (timestamp c) (comment_text c)).
Proof.
  unfold _parse_single_comment, block_text, comment_text_div_of, block_id,
    synthesized_id.
  destruct (match Bs.find _ comment with Some l => Some l | None => _ end);
    simpl; [|discriminate].
  intros [= <- _]. simpl. done.
Qed.

End BlockFacts.

Section ReplaceFacts.

Lemma startswith_app p s : Py.startswith p (p ++ s) = true.
Proof. induction p as [|a p IH]; simpl; [done|]. by rewrite N.eqb_refl. Qed.

Lemma contains_false_startswith old s :
  Py.contains old s = false -> Py.startswith old s = false.
Proof. destruct s; simpl; intros E; by apply orb_false_iff in E as [-> _]. Qed.

Lemma contains_false_tail old c s :
  Py.contains old (c :: s) = false -> Py.contains old s = false.
Proof. simpl. intros E. by apply orb_false_iff in E as [_ ->]. Qed.

(** Where the word does not occur, [replace] changes nothing. *)
Lemma replace_absent old new s :
  Py.contains old s = false -> Py.replace_from old new O s = s.
Proof.
  induction s as [|c s IH]; intros E; [done|].
  cbn [Py.replace_from]. rewrite (contains_false_startswith _ _ E).
  f_equal. apply IH. by eapply contains_false_tail.
Qed.

Lemma replace_skip old new k s :
  (k <= length s)%nat ->
  Py.replace_from old new k s = Py.replace_from old new O (drop k s).
Proof.
  revert k. induction s as [|c s IH]; intros k Hk.
  - destruct k; [done | simpl in Hk; lia].
  - destruct k as [|k]; [done|]. cbn [Py.replace_from drop].
    apply IH. simpl in Hk. lia.
Qed.

(** Stripping the prefix off a word that does not contain it a second
    time. *)
Lemma replace_prefix old rest :
  old <> [] -> Py.contains old rest = false ->
  Py.replace old [] (old ++ rest) = rest.
Proof.
  intros Hold E. unfold Py.replace.
  destruct old as [|a old]; [done|].
  cbn [app Py.replace_from].
  change (a :: old ++ rest) with ((a :: old) ++ rest).
  rewrite startswith_app. cbn [app length Nat.pred].
  rewrite replace_skip by (rewrite length_app; lia).
  rewrite drop_app_length. by apply replace_absent.
Qed.

End ReplaceFacts.

Section BlockClaims.
Context `{Runtime}.


(** C6, as the code has it.  [_parse_single_comment] returns no record
    exactly when the block has no author link.  A block with an author link
    and no text gives a record with the empty text, and it is the loop of
    [_parse_comments_from_html] that drops it. *)
Theorem record_absent_iff_no_author (n : Z) (comment : Node) (st : State) :
  (fst (_parse_single_comment comment st) = None <-> user_link_of comment = None)
  /\ (forall c st1,
        _parse_single_comment comment st = (Some c, st1) ->
        comment_text c = block_text comment
        /\ (whitespace_only (block_text comment) ->
            parse_block (n, st) comment = (n, st1))).
Proof.
  split; [apply parse_single_comment_none|].
  intros c st1 E. destruct (parse_single_comment_fields _ _ _ _ E) as [Ht _].
  split; [done|]. intros W.
  apply (parse_block_rejected n st comment c st1 E).
  left. left. by rewrite Ht.
Qed.

End BlockClaims.


(** C6 at a block with an author and no text: a record comes back. *)
Lemma record_returned_without_text :
  let rt := Sample.runtime [] in
  let r := fst (@_parse_single_comment rt Sample.no_text_block __init__) in
  whitespace_only (block_text Sample.no_text_block)
  /\ r <> None
  /\ (comment_text <$> r) = Some [].
Proof.
  split; [by vm_compute|]. vm_compute. split; congruence.
Qed.

(** ** The properties of the specification: the total count *)

Section CountClaims.
Context `{Runtime}.

Lemma lacks_init_script_none soup :
  lacks_init_script soup ->
  script_total_count (Bs.find_all (Bs.named (lit "script")) soup) = None.
Proof.
  unfold lacks_init_script.
  induction (Bs.find_all (Bs.named (lit "script")) soup) as [|s l IH];
    intros Hl; [done|].
  inversion Hl as [|? ? Hs Hl']; subst. cbn [script_total_count].
  destruct (Bs.string_ s) as [t|]; [|by apply IH].
  rewrite Hs, andb_false_r. by apply IH.
Qed.

(** C8.  On a first page without the initialisation script and without the
    link to all the comments, whose first element with [totalcount] in its
    [id] has the text 42, the count is 42; and when no script gives a count,
    the link is missing or has no number in brackets, and the counter
    element is missing or its text is not a number, the count is 0. *)
Theorem total_count_falls_back (soup : Node) :
  (forall elem,
     lacks_init_script soup ->
     all_comments_link soup = None ->
     totalcount_elem soup = Some elem ->
     Bs.text elem = lit "42" ->
     _get_total_comments_count soup = 42)
  /\ (script_total_count (Bs.find_all (Bs.named (lit "script")) soup) = None ->
      (all_comments_link soup = None
       \/ exists link, all_comments_link soup = Some link
            /\ Re.search (lit "(") isdigit (lit ")") (Bs.get_text_strip link)
               = None) ->
      (totalcount_elem soup = None
       \/ exists elem, totalcount_elem soup = Some elem
            /\ py_int (Py.strip (Bs.text elem)) = None) ->
      _get_total_comments_count soup = 0).
Proof.
  unfold _get_total_comments_count. split.
  - intros elem Hs Hl He Ht.
    rewrite (lacks_init_script_none _ Hs), Hl, He, Ht. reflexivity.
  - intros Hs Hl He. rewrite Hs.
    assert (Hl' : match all_comments_link soup with
                  | Some link =>
                      Re.search (lit "(") isdigit (lit ")")
                                (Bs.get_text_strip link)
                  | None => None
                  end = None).
    { destruct Hl as [-> | (link & -> & ->)]; reflexivity. }
    rewrite Hl'. destruct He as [-> | (elem & -> & ->)]; reflexivity.
Qed.

End CountClaims.

(** C8 on a sample page: the counter element says 42. *)
Lemma total_count_falls_back_witness :
  @_get_total_comments_count (Sample.runtime []) (Sample.counter_page "42") = 42.
Proof.
  eapply (proj1 (@total_count_falls_back (Sample.runtime [])
                   (Sample.counter_page "42"))).
  - by repeat constructor.
  - reflexivity.
  - reflexivity.
  - reflexivity.
Defined.

(** The count of a page whose counter is not a number is 0. *)
Example total_count_not_a_number :
  @_get_total_comments_count (Sample.runtime []) (Sample.counter_page "1,024") = 0.
Proof. reflexivity. Qed.

(** ** The properties of the specification: the page loop and the crawl *)

Section LoopFacts.
Context `{Runtime}.

Lemma parse_block_events n st comment :
  events (snd (parse_block (n, st) comment)) = events st.
Proof.
  destruct (parse_block_spec n st comment)
    as [(st1 & (_ & _ & _ & _ & _ & He) & -> & _)
       | (c & st1 & _ & (_ & _ & _ & _ & _ & He) & _ & ->)]; done.
Qed.

Lemma parse_html_events html st :
  events (snd (_parse_comments_from_html html st)) = events st.
Proof.
  unfold _parse_comments_from_html. generalize 0 as n. revert st.
  induction (comment_blocks html) as [|b blocks IH]; intros st n;
    cbn [fold_left]; [done|].
  pose proof (parse_block_events n st b) as Hb.
  destruct (parse_block (n, st) b) as [n' st']. simpl in Hb.
  by rewrite IH.
Qed.

(** A turn of the loop on a page that was fetched. *)
Lemma page_loop_body_outcome page_num k st url n st' :
  page_outcome page_num st = Some (url, n, st') ->
  page_loop_body page_num k st
  = if n =? 0
    then if 2 <=? k + 1 then (Break, st')
         else (Continue (k + 1), emit (Sleep 200) st')
    else (Continue 0, emit (Sleep 200) st').
Proof.
  unfold page_outcome, page_loop_body, fetch.
  destruct (_get_page_url page_num st) as [page_url|]; [|discriminate].
  change (events (emit (Sleep 500) st)) with (events st ++ [Sleep 500]).
  destruct (session_get _ page_url) as [html|]; [|discriminate].
  destruct (_parse_comments_from_html html _) as [n0 st0].
  by intros [= _ -> ->].
Qed.

Lemma page_outcome_events page_num st url n st' :
  page_outcome page_num st = Some (url, n, st') ->
  events st' = events st ++ [Sleep 500; Get url].
Proof.
  unfold page_outcome.
  destruct (_get_page_url page_num st) as [page_url|]; [|discriminate].
  destruct (session_get _ page_url) as [html|]; [|discriminate].
  pose proof (parse_html_events html
                (emit (Get page_url) (emit (Sleep 500) st))) as He.
  destruct (_parse_comments_from_html html _) as [n0 st0].
  intros [= <- _ <-]. simpl in He. by rewrite He, <- app_assoc.
Qed.

(** A page that cannot be fetched, or whose URL cannot be built, neither
    counts nor sets the count back. *)
Lemma page_loop_body_failed page_num k st :
  page_outcome page_num st = None ->
  fst (page_loop_body page_num k st) = Continue k.
Proof.
  unfold page_outcome, page_loop_body, fetch.
  destruct (_get_page_url page_num st) as [page_url|]; [|done].
  change (events (emit (Sleep 500) st)) with (events st ++ [Sleep 500]).
  destruct (session_get _ page_url) as [html|]; [|done].
  by destruct (_parse_comments_from_html html _).
Qed.

End LoopFacts.

Section LoopClaims.
Context `{Runtime}.

(** C3.  The loop counts the pages in a row that add nothing and is left
    as soon as the count is 2: after two fetched pages [p] and [q] that add
    nothing, the loop is over whatever pages follow, and the last request
    made is the one for [q] (or the one for [p], when the page before [p]
    added nothing either); a page that adds a record sets the count back to
    0. *)
Theorem loop_stops_after_two_empty_pages (p q : Z) (rest : list Z) (k : Z)
    (st : State) (url_p url_q : str) (st_p st_q : State) :
  0 <= k ->
  page_outcome p st = Some (url_p, 0, st_p) ->
  page_outcome q (emit (Sleep 200) st_p) = Some (url_q, 0, st_q) ->
  page_loop (p :: q :: rest) k st = (if k =? 0 then st_q else st_p)
  /\ events (page_loop (p :: q :: rest) k st)
     = events st ++
       (if k =? 0
        then [Sleep 500; Get url_p; Sleep 200; Sleep 500; Get url_q]
        else [Sleep 500; Get url_p])
  /\ (forall page k' s url n s',
        page_outcome page s = Some (url, n, s') ->
        (n = 0 -> 2 <= k' + 1 -> page_loop_body page k' s = (Break, s'))
        /\ (n = 0 -> k' + 1 < 2 ->
            page_loop_body page k' s
            = (Continue (k' + 1), emit (Sleep 200) s'))
        /\ (n <> 0 ->
            page_loop_body page k' s = (Continue 0, emit (Sleep 200) s'))).
Proof.
  intros Hk Hp Hq.
  assert (Hloop : page_loop (p :: q :: rest) k st
                  = if k =? 0 then st_q else st_p).
  { cbn [page_loop]. rewrite (page_loop_body_outcome _ _ _ _ _ _ Hp).
    change (0 =? 0) with true. cbn iota.
    destruct (Z.eqb_spec k 0) as [->|Hne].
    - change (2 <=? 0 + 1) with false. cbn iota. cbn [page_loop].
      rewrite (page_loop_body_outcome _ _ _ _ _ _ Hq). reflexivity.
    - destruct (Z.leb_spec 2 (k + 1)); [reflexivity | lia]. }
  split; [exact Hloop|]. split.
  - rewrite Hloop. destruct (k =? 0).
    + rewrite (page_outcome_events _ _ _ _ _ Hq). simpl.
      rewrite (page_outcome_events _ _ _ _ _ Hp).
      by rewrite <- !app_assoc.
    + apply (page_outcome_events _ _ _ _ _ Hp).
  - intros page k' s url n s' Ho.
    rewrite (page_loop_body_outcome _ _ _ _ _ _ Ho).
    repeat split.
    + intros -> Hk'. destruct (Z.leb_spec 2 (k' + 1)); [done | lia].
    + intros -> Hk'. destruct (Z.leb_spec 2 (k' + 1)); [lia | done].
    + intros Hn. by destruct (Z.eqb_spec n 0).
Qed.


End LoopClaims.

(** ** The properties of the specification: page URLs *)

Section UrlClaims.
Context `{Runtime}.


End UrlClaims.



(** ** The properties on the sample pages *)

(** C9 on a comment that is met a second time. *)
Lemma rejecting_changes_nothing_witness :
  let rt := Sample.runtime [] in
  let st := snd (@_parse_comments_from_html rt Sample.one_block __init__) in
  let again := Sample.comment "comment_101" "bob" [Sample.text "nice profile"] in
  seen_comment_ids (snd (@parse_block rt (0, st) again)) = seen_comment_ids st
  /\ comments_data (snd (@parse_block rt (0, st) again)) = comments_data st
  /\ total_comments (snd (@parse_block rt (0, st) again)) = total_comments st
  /\ fst (@parse_block rt (0, st) again) = 0.
Proof.
  intros rt st again.
  eapply (@rejecting_changes_nothing rt 0 st again).
  - reflexivity.
  - right. right. refine (bool_decide_unpack _ _). vm_compute. exact I.
Defined.

(** C1, C2 and C10 on the page with the placeholder, a comment and its
    copy: one record is admitted. *)
Example one_of_three_blocks_is_admitted :
  let rt := Sample.runtime [] in
  let r := @_parse_comments_from_html rt Sample.three_blocks __init__ in
  fst r = 1 /\ total_comments (snd r) = 1
  /\ size (seen_comment_ids (snd r)) = 1%nat
  /\ (count <$> comments_data (snd r) !! lit "bob") = Some 1
  /\ (length ∘ comments <$> comments_data (snd r) !! lit "bob") = Some 1%nat
  /\ comments_data (snd r) !! lit "alice" = None.
Proof. vm_compute. repeat split; reflexivity. Qed.


(** [str.replace] takes every occurrence of the prefix out of the
    identifier, not the first one only. *)
Example repeated_prefix_is_removed_everywhere :
  (comment_id <$> fst (@_parse_single_comment (Sample.runtime [])
                         Sample.repeated_prefix_block __init__))
  = Some (lit "12").
Proof. reflexivity. Qed.

(** C5 on two blocks without an identifier: the synthesized one is the
    same. *)
Example synthesized_id_is_repeatable :
  let rt := Sample.runtime [] in
  (comment_id <$> fst (@_parse_single_comment rt Sample.no_id_block __init__))
  = (comment_id <$> fst (@_parse_single_comment rt Sample.no_id_block
                           (snd (@_parse_single_comment rt Sample.no_id_block
                                   __init__)))).
Proof. reflexivity. Qed.

(** C3 on the listing of seven pages: after pages 2 to 4 the loop asks for
    pages 5 and 6, which add nothing, and never for page 7. *)
Lemma loop_stops_after_two_empty_pages_witness :
  let rt := Sample.runtime Sample.crawl_site in
  let st4 := @page_loop rt [2; 3; 4] 0 Sample.crawl_start in
  let st := @page_loop rt [5; 6; 7] 0 st4 in
  events st
  = events st4 ++
    [Sleep 500; Get (lit (Sample.listing ++ "?p=5"));
     Sleep 200;
     Sleep 500; Get (lit (Sample.listing ++ "?p=6"))]
  /\ total_comments st = 3.
Proof.
  intros rt st4 st.
  set (st5 := default st4 (snd <$> @page_outcome rt 5 st4)).
  set (st6 := default st4 (snd <$> @page_outcome rt 6 (emit (Sleep 200) st5))).
  destruct (@loop_stops_after_two_empty_pages rt 5 6 [7] 0 st4
              (lit (Sample.listing ++ "?p=5")) (lit (Sample.listing ++ "?p=6"))
              st5 st6)
    as (Hst & Hev & _).
  - lia.
  - vm_compute. reflexivity.
  - vm_compute. reflexivity.
  - split; [exact Hev|]. vm_compute. reflexivity.
Defined.

(** The pages of a listing of seven pages. *)
Example page_range_of_seven : page_range 7 = [2; 3; 4; 5; 6; 7].
Proof. reflexivity. Qed.

(** The whole loop on the same listing. *)
Example seven_pages_crawl :
  let rt := Sample.runtime Sample.crawl_site in
  let st := @_parse_all_pages_optimized rt 7 Sample.crawl_start in
  total_comments st = 3
  /\ List.filter (fun e => match e with Get _ => true | Sleep _ => false end)
                 (events st)
     = map (fun n => Get (lit (Sample.listing ++ "?p=" ++ n)))
           ["2"; "3"; "4"; "5"; "6"]%string.
Proof. vm_compute. split; reflexivity. Qed.


(** C7 when the count of the first page is too large for the division. *)
Example parse_profile_overflow :
  fst (@parse_profile Sample.huge_runtime (lit Sample.profile) 200 __init__) = ∅
  /\ fst (@parse_profile_try Sample.huge_runtime (lit Sample.profile) 200
            (set_profile_url (lit Sample.profile) __init__))
     = Raise OverflowError.
Proof. vm_compute. split; reflexivity. Qed.
(** * Further properties of the page parser *)

Section PageExtras.
Context `{Runtime}.

Lemma fold_parse_block_bounds blocks n st :
  n <= fst (fold_left parse_block blocks (n, st))
     <= n + Z.of_nat (length blocks).
Proof.
  revert n st. induction blocks as [|b blocks IH]; intros n st;
    cbn [fold_left length]; [simpl; lia|].
  destruct (parse_block_spec n st b)
    as [(st1 & _ & -> & _) | (c & st1 & _ & _ & _ & ->)].
  - specialize (IH n st1). lia.
  - specialize (IH (n + 1) (admitted c st1)). lia.
Qed.

(** X1.  The number [_parse_comments_from_html] returns for a page is never
    negative and never more than the number of comment blocks of the page. *)
Theorem page_count_is_bounded (html : Node) (st : State) :
  0 <= fst (_parse_comments_from_html html st)
    <= Z.of_nat (length (comment_blocks html)).
Proof.
  unfold _parse_comments_from_html.
  pose proof (fold_parse_block_bounds (comment_blocks html) 0 st). lia.
Qed.

Lemma filed_by_user_frame st st' :
  same_store st st' -> filed_by_user st -> filed_by_user st'.
Proof. unfold filed_by_user. by intros (-> & _). Qed.

Lemma filed_by_user_admitted c st :
  filed_by_user st -> filed_by_user (admitted c st).
Proof.
  unfold filed_by_user, admitted, user_data; simpl. intros Hst.
  apply map_Forall_insert_2; [|done]. simpl. apply Forall_app. split.
  - destruct (comments_data st !! user c) as [d|] eqn:E; simpl; [|constructor].
    exact (Hst _ _ E).
  - by apply Forall_singleton.
Qed.

(** X2.  Every record is stored under the name of its own author: in the
    store a new parser builds from any pages, and in the mapping
    [parse_profile] returns, the records in the list of user [u] all have
    [user = u]. *)
Theorem records_are_filed_by_user (pages : list Node) (url : str)
    (max_pages : Z) :
  map_Forall (fun u d => Forall (fun c => user c = u) (comments d))
             (comments_data (parse_pages pages __init__))
  /\ map_Forall (fun u d => Forall (fun c => user c = u) (comments d))
                (fst (parse_profile url max_pages __init__)).
Proof.
  assert (Hinit : filed_by_user __init__) by apply map_Forall_empty.
  split.
  - apply (parse_pages_keeps filed_by_user);
      eauto using filed_by_user_frame, filed_by_user_admitted.
  - pose proof (parse_profile_keeps filed_by_user filed_by_user_frame
                  (fun c st _ => filed_by_user_admitted c st) url max_pages
                  __init__ Hinit) as Hp.
    destruct (parse_profile_result url max_pages __init__) as [-> | ->];
      [exact Hp | apply map_Forall_empty].
Qed.

Lemma texts_accepted_frame st st' :
  same_store st st' -> texts_accepted st -> texts_accepted st'.
Proof. unfold texts_accepted. by intros (-> & _). Qed.

Lemma texts_accepted_admitted c st :
  ~ rejected st c -> texts_accepted st -> texts_accepted (admitted c st).
Proof.
  unfold texts_accepted, admitted, user_data; simpl. intros R Hst.
  apply map_Forall_insert_2; [|done]. simpl. apply Forall_app. split.
  - destruct (comments_data st !! user c) as [d|] eqn:E; simpl; [|constructor].
    exact (Hst _ _ E).
  - apply Forall_singleton. unfold rejected in R. tauto.
Qed.

(** X3.  No stored record has an empty or white-space text or a text that
    contains the message of the not yet analysed comments: this holds for
    every record of the store built from any pages, and of the mapping
    [parse_profile] returns. *)
Theorem stored_texts_pass_the_filters (pages : list Node) (url : str)
    (max_pages : Z) :
  map_Forall (fun _ d =>
                Forall (fun c => ~ whitespace_only (comment_text c)
                                 /\ Py.contains SYSTEM_MESSAGE (comment_text c)
                                    = false)
                       (comments d))
             (comments_data (parse_pages pages __init__))
  /\ map_Forall (fun _ d =>
                   Forall (fun c => ~ whitespace_only (comment_text c)
                                    /\ Py.contains SYSTEM_MESSAGE (comment_text c)
                                       = false)
                          (comments d))
                (fst (parse_profile url max_pages __init__)).
Proof.
  assert (Hinit : texts_accepted __init__) by apply map_Forall_empty.
  assert (Hweak : forall m : gmap str UserData,
             map_Forall (fun _ d => Forall (fun c => ~ text_rejected c)
                                           (comments d)) m ->
             map_Forall (fun _ d =>
                Forall (fun c => ~ whitespace_only (comment_text c)
                                 /\ Py.contains SYSTEM_MESSAGE (comment_text c)
                                    = false)
                       (comments d)) m).
  { intros m Hm. eapply map_Forall_impl; [exact Hm|]. intros k d Hd. cbn beta in *.
    eapply Forall_impl; [exact Hd|]. intros c Hc. unfold text_rejected in Hc.
    split; [tauto|]. destruct (Py.contains _ _); [tauto | done]. }
  split; apply Hweak.
  - apply (parse_pages_keeps texts_accepted);
      eauto using texts_accepted_frame, texts_accepted_admitted.
  - pose proof (parse_profile_keeps texts_accepted texts_accepted_frame
                  texts_accepted_admitted url max_pages __init__ Hinit) as Hp.
    destruct (parse_profile_result url max_pages __init__) as [-> | ->];
      [exact Hp | apply map_Forall_empty].
Qed.

(** *** The store only grows *)

Lemma user_data_admitted c st u :
  comments (user_data (admitted c st) u)
  = if decide (u = user c) then comments (user_data st u) ++ [c]
    else comments (user_data st u).
Proof.
  unfold user_data, admitted; simpl. destruct (decide (u = user c)) as [->|Hne].
  - by rewrite lookup_insert_eq.
  - by rewrite lookup_insert_ne.
Qed.

Lemma continues_refl st : continues st st.
Proof. split; [done|]. intros u. done. Qed.

Lemma continues_frame st0 st st' :
  same_store st st' -> continues st0 st -> continues st0 st'.
Proof.
  unfold continues, user_data. intros (E & _) (Hd & Hp). rewrite E. done.
Qed.

Lemma continues_admitted st0 c st :
  continues st0 st -> continues st0 (admitted c st).
Proof.
  intros (Hd & Hp). split.
  - unfold admitted; simpl. rewrite dom_insert_L. set_solver.
  - intros u. rewrite user_data_admitted. destruct (decide (u = user c)).
    + etrans; [apply Hp|]. by apply prefix_app_r.
    + apply Hp.
Qed.

(** X4.  The store is append-only.  Parsing a page, running the page loop
    or a whole [parse_profile] on any parser state keeps every user of
    [comments_data], and the list of comments of each user after the call
    starts with the list it was before: no record is removed, replaced or
    reordered. *)
Theorem store_is_append_only (html : Node) (total_pages : Z) (url : str)
    (max_pages : Z) (st : State) :
  continues st (snd (_parse_comments_from_html html st))
  /\ continues st (_parse_all_pages_optimized total_pages st)
  /\ continues st (snd (parse_profile url max_pages st)).
Proof.
  pose proof (continues_frame st) as Hf.
  pose proof (fun c s (_ : ~ rejected s c) => continues_admitted st c s) as Ha.
  pose proof (continues_refl st) as H0.
  split; [|split].
  - by apply (parse_html_keeps (continues st)).
  - by apply (page_loop_keeps (continues st)).
  - by apply (parse_profile_keeps (continues st)).
Qed.

(** *** Parsing a page again *)

Lemma fold_parse_block_known blocks n st :
  (forall b c s s', b ∈ blocks -> _parse_single_comment b s = (Some c, s') ->
                    ~ text_rejected c -> comment_id c ∈ seen_comment_ids st) ->
  fst (fold_left parse_block blocks (n, st)) = n
  /\ same_store st (snd (fold_left parse_block blocks (n, st))).
Proof.
  revert st. induction blocks as [|b blocks IH]; intros st Hk;
    cbn [fold_left]; [by repeat split|].
  destruct (parse_block_spec n st b)
    as [(st1 & Hsp & -> & _) | (c & st1 & E & Hsp & Hr & _)].
  - destruct (IH st1) as (Hn & Hs).
    + intros b' c s s' Hb E Ht. destruct Hsp as (_ & _ & _ & _ & -> & _).
      eapply Hk; [by right | exact E | exact Ht].
    + split; [exact Hn|]. apply same_parser_store in Hsp.
      destruct Hsp as (E1 & E2 & E3), Hs as (F1 & F2 & F3).
      repeat split; congruence.
  - exfalso. apply Hr. right. destruct Hsp as (_ & _ & _ & _ & -> & _).
    eapply Hk; [by left | exact E |]. intros Ht. apply Hr. by left.
Qed.

(** X5.  Parsing the same page a second time, directly after the first,
    adds nothing: the second call returns 0 and leaves [comments_data],
    [total_comments] and [seen_comment_ids] as the first call left them. *)
Theorem parsing_a_page_again_adds_nothing (html : Node) (st : State) :
  fst (_parse_comments_from_html html
         (snd (_parse_comments_from_html html st))) = 0
  /\ same_store (snd (_parse_comments_from_html html st))
                (snd (_parse_comments_from_html html
                        (snd (_parse_comments_from_html html st)))).
Proof.
  apply fold_parse_block_known. intros b c s s' Hb E Ht.
  unfold _parse_comments_from_html.
  by eapply fold_parse_block_sees.
Qed.

(** *** The counters add up *)

Lemma sum_counts_delete (m : gmap str UserData) u d :
  m !! u = Some d -> sum_counts m = count d + sum_counts (delete u m).
Proof.
  intros E. unfold sum_counts.
  apply (map_fold_delete_L (fun _ d n => count d + n)); [|exact E].
  intros; lia.
Qed.

Lemma sum_counts_insert (m : gmap str UserData) u d :
  sum_counts (<[u := d]> m) = count d + sum_counts (delete u m).
Proof.
  rewrite <- (insert_delete_eq m u d). unfold sum_counts.
  apply (map_fold_insert_L (fun _ d n => count d + n)).
  - intros; lia.
  - apply lookup_delete_eq.
Qed.

Lemma sum_counts_admitted c st :
  total_comments st = sum_counts (comments_data st) ->
  total_comments (admitted c st) = sum_counts (comments_data (admitted c st)).
Proof.
  intros E. unfold admitted; simpl. rewrite sum_counts_insert, E. simpl.
  unfold user_data. destruct (comments_data st !! user c) as [d|] eqn:L; simpl.
  - rewrite (sum_counts_delete _ _ _ L). lia.
  - rewrite (delete_id _ _ L). lia.
Qed.

(** X6.  The [count] fields of the users add up to [total_comments]: in the
    store a new parser builds from any pages, and after [parse_profile]. *)
Theorem counts_add_up_to_total (pages : list Node) (url : str)
    (max_pages : Z) :
  sum_counts (comments_data (parse_pages pages __init__))
  = total_comments (parse_pages pages __init__)
  /\ sum_counts (comments_data (snd (parse_profile url max_pages __init__)))
     = total_comments (snd (parse_profile url max_pages __init__)).
Proof.
  set (P := fun st => total_comments st = sum_counts (comments_data st)).
  assert (Hf : forall st st', same_store st st' -> P st -> P st').
  { unfold P. intros st st' (-> & -> & _). done. }
  assert (Ha : forall c st, ~ rejected st c -> P st -> P (admitted c st)).
  { intros c st _. apply sum_counts_admitted. }
  assert (H0 : P __init__) by reflexivity.
  split; symmetry.
  - by apply (parse_pages_keeps P).
  - by apply (parse_profile_keeps P).
Qed.

End PageExtras.
(** * Further properties of one record *)

Section TrimFacts.

Lemma lstrip_clean s : starts_clean (Py.lstrip s).
Proof.
  induction s as [|c s IH]; simpl; [done|].
  destruct (Py.isspace c) eqn:E; [exact IH | exact E].
Qed.

Lemma lstrip_id s : starts_clean s -> Py.lstrip s = s.
Proof. destruct s as [|c s]; simpl; [done|]. by intros ->. Qed.

Lemma lstrip_suffix s : exists w, s = w ++ Py.lstrip s.
Proof.
  induction s as [|c s (w & IH)]; simpl; [by exists []|].
  destruct (Py.isspace c).
  - exists (c :: w). simpl. by f_equal.
  - by exists [].
Qed.

Lemma starts_clean_app a b : a <> [] -> starts_clean a -> starts_clean (a ++ b).
Proof. by destruct a. Qed.

Lemma starts_clean_prefix a b : a <> [] -> starts_clean (a ++ b) -> starts_clean a.
Proof. by destruct a. Qed.

Lemma strip_clean s :
  starts_clean (Py.strip s) /\ starts_clean (rev (Py.strip s)).
Proof.
  unfold Py.strip, Py.rstrip. split.
  - destruct (lstrip_suffix (rev (Py.lstrip s))) as (w & E).
    apply (f_equal (@rev N)) in E. rewrite rev_involutive, rev_app_distr in E.
    destruct (rev (Py.lstrip (rev (Py.lstrip s)))) as [|c r] eqn:R; [done|].
    apply (starts_clean_prefix _ (rev w)); [done|]. rewrite <- E.
    apply lstrip_clean.
  - rewrite rev_involutive. apply lstrip_clean.
Qed.

Lemma clean_strip s :
  starts_clean s -> starts_clean (rev s) -> Py.strip s = s.
Proof.
  intros Hl Hr. unfold Py.strip, Py.rstrip.
  rewrite (lstrip_id s Hl), (lstrip_id (rev s) Hr). apply rev_involutive.
Qed.

Lemma concat_clean (l : list str) :
  Forall (fun x => x <> [] /\ starts_clean x /\ starts_clean (rev x)) l ->
  starts_clean (concat l) /\ starts_clean (rev (concat l)).
Proof.
  induction 1 as [|x l (Hx & Hl & Hr) Hd (IHl & IHr)]; simpl; [done|]. split.
  - by apply starts_clean_app.
  - rewrite rev_app_distr. destruct (concat l) as [|c r] eqn:E; [done|].
    apply starts_clean_app; [|exact IHr].
    intros E'. apply (f_equal (@length N)) in E'. rewrite length_rev in E'.
    done.
Qed.

(** [get_text(strip=True)] gives a string without white space at either
    end. *)
Lemma get_text_strip_trimmed n :
  Py.strip (Bs.get_text_strip n) = Bs.get_text_strip n.
Proof.
  unfold Bs.get_text_strip.
  destruct (concat_clean (List.filter Py.truthy (map Py.strip (Bs.strings n))))
    as (Hl & Hr); [|by apply clean_strip].
  apply Forall_forall. intros x Hx. apply list_elem_of_In in Hx.
  apply filter_In in Hx as (Hin & Ht). apply in_map_iff in Hin as (s & <- & _).
  split; [by destruct (Py.strip s) | apply strip_clean].
Qed.

End TrimFacts.

Section SearchFacts.

Lemma span_spec cls s :
  Forall (fun c => cls c = true) (Re.span cls s)
  /\ exists rest, s = Re.span cls s ++ rest.
Proof.
  induction s as [|c s (IH & rest & E)]; simpl; [split; [done | by exists []]|].
  destruct (cls c) eqn:C.
  - split; [by constructor|]. exists rest. simpl. by f_equal.
  - split; [done|]. by eexists.
Qed.

Lemma startswith_spec p s :
  Py.startswith p s = true <-> exists rest, s = p ++ rest.
Proof.
  revert s. induction p as [|a p IH]; intros s; simpl.
  - split; [by exists s | done].
  - destruct s as [|b s]; [split; [done | by intros (? & ?)]|].
    rewrite andb_true_iff, N.eqb_eq, IH. split.
    + intros (-> & rest & ->). by exists rest.
    + intros (rest & [= -> ->]). split; [done | by exists rest].
Qed.

Lemma contains_spec sub s :
  Py.contains sub s = true <-> exists l r, s = l ++ sub ++ r.
Proof.
  induction s as [|c s IH]; simpl.
  - rewrite orb_false_r, startswith_spec. split.
    + intros (r & E). by exists [], r.
    + intros (l & r & E). symmetry in E.
      apply app_eq_nil in E as (-> & E). exists r. by rewrite E.
  - rewrite orb_true_iff, startswith_spec, IH. split.
    + intros [(r & E) | (l & r & E)]; [by exists [], r|].
      exists (c :: l), r. simpl. by f_equal.
    + intros ([|a l] & r & E); simpl in E.
      * left. by exists r.
      * right. injection E as <- E. by exists l, r.
Qed.

Lemma match_here_some prefix cls suffix s g :
  Re.match_here prefix cls suffix s = Some g ->
  g <> [] /\ Forall (fun c => cls c = true) g
  /\ exists r, s = prefix ++ g ++ suffix ++ r.
Proof.
  unfold Re.match_here.
  destruct (Py.startswith prefix s) eqn:P; [|done].
  apply startswith_spec in P as (rest & ->). rewrite drop_app_length.
  destruct (span_spec cls rest) as (Hcls & r & E).
  destruct (Re.span cls rest) as [|a g'] eqn:Sp; [done|].
  cbn [Py.truthy andb]. rewrite E at 1. rewrite drop_app_length.
  destruct (Py.startswith suffix r) eqn:S; [|done]. intros [= <-].
  apply startswith_spec in S as (r' & ->).
  split; [done|]. split; [exact Hcls|]. exists r'. by rewrite E.
Qed.

(** What a successful [re.search] of the parser returns: a non-empty run of
    the class that follows an occurrence of the literal. *)
Lemma search_some prefix cls suffix s g :
  Re.search prefix cls suffix s = Some g ->
  g <> [] /\ Forall (fun c => cls c = true) g
  /\ Py.contains (prefix ++ g ++ suffix) s = true.
Proof.
  assert (Hm : forall s, Re.match_here prefix cls suffix s = Some g ->
            g <> [] /\ Forall (fun c => cls c = true) g
            /\ Py.contains (prefix ++ g ++ suffix) s = true).
  { intros s' M. apply match_here_some in M as (Hg & Hc & r & ->).
    split; [done|]. split; [done|]. apply contains_spec. exists [], r.
    simpl. by rewrite <- !app_assoc. }
  induction s as [|c s IH]; cbn [Re.search].
  - destruct (Re.match_here prefix cls suffix []) as [g'|] eqn:M; [|done].
    intros [= ->]. by apply Hm.
  - destruct (Re.match_here prefix cls suffix (c :: s)) as [g'|] eqn:M.
    + intros [= ->]. by apply Hm.
    + intros E. destruct (IH E) as (Hg & Hc & Hs). split; [done|].
      split; [done|]. simpl. rewrite Hs. apply orb_true_r.
Qed.

End SearchFacts.

Section BlockExtras.
Context `{Runtime}.

Lemma isdigit_not_slash c : isdigit c = true -> c <> 47%N.
Proof. intros E ->. vm_compute in E. done. Qed.

Lemma parse_single_comment_author comment st c st1 :
  _parse_single_comment comment st = (Some c, st1) ->
  exists link,
    user_link_of comment = Some link
    /\ user c = Bs.get_text_strip link
    /\ comment_profile_url c = Bs.get_or link (lit "href") []
    /\ steam_id c = (if Py.truthy (comment_profile_url c)
                     then steam_id_of (comment_profile_url c) else None)
    /\ parsed_time c = now_isoformat (clock st)
    /\ clock st1 = S (clock st).
Proof.
  unfold _parse_single_comment, user_link_of, steam_id_of.
  destruct (match Bs.find _ comment with Some l => Some l | None => _ end)
    as [link|]; simpl; [|discriminate].
  intros [= <- <-]. simpl. by exists link.
Qed.

(** X7.  A record [_parse_single_comment] returns never has an empty
    [comment_id]: the key of the deduplication is always a proper string. *)
Theorem comment_id_is_never_empty (comment : Node) (st : State) (c : Comment)
    (st1 : State) :
  _parse_single_comment comment st = (Some c, st1) -> comment_id c <> [].
Proof.
  intros E. destruct (parse_single_comment_fields _ _ _ _ E) as (_ & ->).
  cbv zeta. destruct (Py.truthy _) eqn:T.
  - by destruct (if Py.startswith _ _ then _ else _).
  - unfold synthesized_id. intros E'. apply app_eq_nil in E' as (_ & E').
    done.
Qed.

(** X8.  The name of the author and the text of a record carry no white
    space at either end ([strip] leaves them as they are); so a text that is
    white space only is the empty text, and the second half of the test
    [not text or not text.strip()] never decides. *)
Theorem name_and_text_are_trimmed (comment : Node) (st : State) (c : Comment)
    (st1 : State) :
  _parse_single_comment comment st = (Some c, st1) ->
  Py.strip (user c) = user c
  /\ Py.strip (comment_text c) = comment_text c
  /\ (whitespace_only (comment_text c) <-> comment_text c = []).
Proof.
  intros E.
  destruct (parse_single_comment_author _ _ _ _ E) as (link & _ & Hu & _).
  destruct (parse_single_comment_fields _ _ _ _ E) as (Ht & _).
  assert (Hs : Py.strip (comment_text c) = comment_text c).
  { rewrite Ht. unfold block_text.
    destruct (comment_text_div_of comment); [|done].
    apply get_text_strip_trimmed. }
  split; [rewrite Hu; apply get_text_strip_trimmed|]. split; [exact Hs|].
  rewrite <- strip_nil_iff, Hs. done.
Qed.

(** X9.  The [steam_id] of a record, when there is one, is a non-empty
    string without a slash that follows [/profiles/] or [/id/] in the link
    of the author; a record whose link is empty or absent has none. *)
Theorem steam_id_comes_from_the_link (comment : Node) (st : State)
    (c : Comment) (st1 : State) :
  _parse_single_comment comment st = (Some c, st1) ->
  (comment_profile_url c = [] -> steam_id c = None)
  /\ (forall g, steam_id c = Some g ->
        g <> [] /\ (47%N ∉ g)
        /\ (Py.contains (lit "/profiles/" ++ g) (comment_profile_url c) = true
            \/ Py.contains (lit "/id/" ++ g) (comment_profile_url c) = true)).
Proof.
  intros E.
  destruct (parse_single_comment_author _ _ _ _ E) as (link & _ & _ & _ & Hs & _).
  split; [intros E0; rewrite Hs, E0; done|].
  intros g Hg. rewrite Hs in Hg.
  destruct (Py.truthy (comment_profile_url c)); [|done].
  unfold steam_id_of in Hg.
  destruct (Re.search (lit "/profiles/") isdigit [] (comment_profile_url c))
    as [g'|] eqn:S1.
  - injection Hg as ->. apply search_some in S1 as (Hne & Hcls & Hc).
    rewrite app_nil_r in Hc. split; [done|]. split; [|by left].
    intros Hin. rewrite Forall_forall in Hcls.
    by apply (isdigit_not_slash 47%N); [apply Hcls|].
  - apply search_some in Hg as (Hne & Hcls & Hc).
    rewrite app_nil_r in Hc. split; [done|]. split; [|by right].
    intros Hin. rewrite Forall_forall in Hcls. specialize (Hcls _ Hin).
    done.
Qed.

End BlockExtras.
(** * Further properties of the count of the first page *)

Section IntFacts.
Context `{Runtime}.

Lemma digit_value_ascii c :
  (48 <= c <= 57)%N -> digit_value c = Some (c - 48)%N.
Proof.
  intros Hc. unfold digit_value.
  destruct (N.leb_spec 48 c); [|lia]. destruct (N.leb_spec c 57); [|lia]. done.
Qed.

Lemma isdigit_ascii c : (48 <= c <= 57)%N -> isdigit c = true.
Proof.
  intros Hc. unfold isdigit. rewrite (digit_value_ascii c Hc).
  apply bool_decide_eq_true. by eexists.
Qed.

Lemma digits_not_space c : (48 <= c <= 57)%N -> Py.isspace c = false.
Proof.
  intros Hc. unfold Py.isspace.
  repeat match goal with
         | |- context [(?a <=? ?b)%N] => destruct (N.leb_spec a b); try lia
         | |- context [(?a =? ?b)%N] => destruct (N.eqb_spec a b); try lia
         end; reflexivity.
Qed.

Lemma digits_clean s :
  Forall (fun c => 48 <= c <= 57)%N s -> starts_clean s /\ starts_clean (rev s).
Proof.
  intros Hs. assert (Hc : forall t, Forall (fun c => 48 <= c <= 57)%N t ->
                                    starts_clean t).
  { intros [|c t] Ht; [done|]. simpl. apply digits_not_space.
    by inversion Ht. }
  split; apply Hc; [done|]. by apply Forall_rev.
Qed.

(** The digits [str] writes, read by [int]: Horner's rule. *)
Lemma int_digits_uint d acc :
  int_digits acc true (Py.uint_str d)
  = Some (acc * 10 ^ DecimalPos.Unsigned.usize d
          + DecimalPos.Unsigned.of_lu (Decimal.rev d))%N.
Proof.
  revert acc. induction d; intros acc; cbn [Py.uint_str int_digits];
    [f_equal; simpl; lia|..];
    (rewrite digit_value_ascii by lia; rewrite IHd; f_equal;
     unfold Decimal.rev; cbn [Decimal.revapp];
     rewrite (DecimalPos.Unsigned.of_lu_revapp d (_ Decimal.Nil));
     cbn [DecimalPos.Unsigned.of_lu DecimalPos.Unsigned.usize];
     rewrite N.pow_succ_r'; unfold Decimal.rev; simpl (_ - 48)%N; nia).
Qed.

Lemma int_digits_start d acc :
  d <> Decimal.Nil ->
  int_digits acc false (Py.uint_str d) = int_digits acc true (Py.uint_str d).
Proof.
  destruct d; [done|..]; intros _; cbn [Py.uint_str int_digits];
    by rewrite digit_value_ascii by lia.
Qed.

Lemma to_uint_nonnil n : N.to_uint n <> Decimal.Nil.
Proof.
  destruct n as [|p]; [done|]. apply DecimalPos.Unsigned.to_uint_nonnil.
Qed.

Lemma str_of_N_digits n :
  Forall (fun c => 48 <= c <= 57)%N (Py.str_of_N n) /\ Py.str_of_N n <> [].
Proof.
  split; [apply uint_str_digits|]. unfold Py.str_of_N.
  pose proof (to_uint_nonnil n). by destruct (N.to_uint n).
Qed.

(** [int(str(n)) == n] for a natural number. *)
Lemma py_int_str_of_N n : py_int (Py.str_of_N n) = Some (Z.of_N n).
Proof.
  unfold py_int. destruct (str_of_N_digits n) as (Hd & Hne).
  destruct (digits_clean _ Hd) as (Hl & Hr).
  rewrite (clean_strip _ Hl Hr).
  assert (Hb : (match Py.str_of_N n with
                | 45%N :: body => (true, body)
                | 43%N :: body => (false, body)
                | body => (false, body)
                end) = (false, Py.str_of_N n)).
  { destruct (Py.str_of_N n) as [|c rest]; [done|].
    assert (Hc : (48 <= c <= 57)%N) by (by inversion Hd).
    assert (c = 48 \/ c = 49 \/ c = 50 \/ c = 51 \/ c = 52 \/ c = 53
            \/ c = 54 \/ c = 55 \/ c = 56 \/ c = 57)%N as Hcases by lia.
    repeat (destruct Hcases as [-> | Hcases]; [reflexivity|]).
    by subst c. }
  rewrite Hb. unfold Py.str_of_N.
  rewrite int_digits_start by apply to_uint_nonnil.
  rewrite int_digits_uint. f_equal. f_equal.
  rewrite N.mul_0_l, N.add_0_l, <- DecimalPos.Unsigned.of_uint_alt.
  destruct n as [|p]; [reflexivity | apply DecimalPos.Unsigned.of_to].
Qed.

End IntFacts.

Section SearchFound.

Lemma span_app cls g rest :
  Forall (fun c => cls c = true) g ->
  match rest with c :: _ => cls c = false | [] => True end ->
  Re.span cls (g ++ rest) = g.
Proof.
  induction 1 as [|c g Hc Hg IH]; intros Hr; simpl.
  - destruct rest as [|c rest]; [done|]. simpl. by rewrite Hr.
  - rewrite Hc. f_equal. by apply IH.
Qed.

(** The leftmost match of [a(cls+)b] when [a] does not occur before it. *)
Lemma search_found a cls b pre g post :
  a ∉ pre -> g <> [] -> Forall (fun c => cls c = true) g -> cls b = false ->
  Re.search [a] cls [b] (pre ++ a :: g ++ b :: post) = Some g.
Proof.
  intros Hpre Hne Hg Hb.
  assert (Hm : Re.match_here [a] cls [b] (a :: g ++ b :: post) = Some g).
  { unfold Re.match_here. cbn [Py.startswith]. rewrite N.eqb_refl.
    cbn [andb length drop]. rewrite !drop_0. rewrite span_app by done.
    rewrite drop_app_length. cbn [Py.startswith]. rewrite N.eqb_refl.
    by destruct g. }
  induction pre as [|c pre IH]; cbn [app].
  - destruct g; cbn [Re.search app]; cbn [app] in Hm; by rewrite Hm.
  - cbn [Re.search]. unfold Re.match_here at 1. cbn [Py.startswith].
    destruct (N.eqb_spec a c) as [->|_]; [exfalso; apply Hpre; by left|].
    cbn [andb]. apply IH. intros Hin. apply Hpre. by right.
Qed.

End SearchFound.

Section CountExtras.
Context `{Runtime}.


End CountExtras.
(** * Further properties of the page loop and of [parse_profile] *)

Section TraceFacts.

Lemma omap_pointwise {A B} (f g : A -> option B) (l : list A) :
  (forall x, f x = g x) -> omap f l = omap g l.
Proof.
  intros E. induction l as [|a l IH]; csimpl; [done|].
  by rewrite E, IH.
Qed.

Lemma requests_app a b : requests (a ++ b) = requests a ++ requests b.
Proof. apply omap_app. Qed.

Lemma paced_app a b :
  (forall q, paced_from q a = true) -> (forall q, paced_from q b = true) ->
  forall q, paced_from q (a ++ b) = true.
Proof.
  intros Ha Hb. assert (Hg : forall q, paced_from q a = true ->
                               paced_from q (a ++ b) = true).
  { clear Ha. induction a as [|e a IH]; intros q; [intros _; apply Hb|].
    destruct e as [url|ms]; cbn [app paced_from].
    - destruct q as [[|ms]|]; try done.
      repeat (match goal with |- context [match ?z with _ => _ end] =>
                destruct z end; try done); apply IH.
    - apply IH. }
  intros q. by apply Hg.
Qed.

End TraceFacts.

Section LoopExtras.
Context `{Runtime}.

Lemma parse_block_base n st comment :
  base_comments_url (snd (parse_block (n, st) comment)) = base_comments_url st.
Proof.
  destruct (parse_block_spec n st comment)
    as [(st1 & Hsp & -> & _) | (c & st1 & _ & Hsp & _ & ->)];
    cbn [snd admitted base_comments_url];
    by destruct Hsp as (_ & _ & _ & -> & _).
Qed.

Lemma parse_html_base html st :
  base_comments_url (snd (_parse_comments_from_html html st))
  = base_comments_url st.
Proof.
  unfold _parse_comments_from_html. generalize 0.
  revert st. induction (comment_blocks html) as [|b blocks IH]; intros st n;
    cbn [fold_left]; [done|].
  destruct (parse_block (n, st) b) as [n1 st1] eqn:E.
  rewrite IH. by rewrite <- (parse_block_base n st b), E.
Qed.

Lemma page_url_of_base st st' p :
  base_comments_url st' = base_comments_url st ->
  page_url_of st' p = page_url_of st p.
Proof. unfold page_url_of, _get_page_url. by intros ->. Qed.

(** One turn of the loop: what it adds to the events. *)
Lemma page_loop_body_trace page_num k st :
  exists added,
    events (snd (page_loop_body page_num k st)) = events st ++ added
    /\ requests added = option_list (page_url_of st page_num)
    /\ (forall q, paced_from q added = true)
    /\ base_comments_url (snd (page_loop_body page_num k st))
       = base_comments_url st.
Proof.
  unfold page_loop_body, page_url_of.
  destruct (_get_page_url page_num st) as [url|e].
  2:{ exists []. by rewrite app_nil_r. }
  unfold fetch. cbn [events emit].
  destruct (session_get (events st ++ [Sleep 500]) url) as [html|].
  2:{ exists [Sleep 500; Get url]. cbn [snd events emit].
      by rewrite <- app_assoc. }
  destruct (_parse_comments_from_html html _) as [n st'] eqn:E.
  pose proof (parse_html_events html (emit (Get url) (emit (Sleep 500) st)))
    as Hev.
  pose proof (parse_html_base html (emit (Get url) (emit (Sleep 500) st)))
    as Hb.
  rewrite E in Hev, Hb. cbn [snd events emit base_comments_url] in Hev, Hb.
  destruct (n =? 0); [destruct (2 <=? k + 1)|].
  - exists [Sleep 500; Get url]. cbn [snd]. rewrite Hev, <- app_assoc. done.
  - exists [Sleep 500; Get url; Sleep 200]. cbn [snd events emit].
    rewrite Hev, <- !app_assoc. done.
  - exists [Sleep 500; Get url; Sleep 200]. cbn [snd events emit].
    rewrite Hev, <- !app_assoc. done.
Qed.

Lemma page_loop_trace page_nums k st :
  exists (j : nat) added,
    events (page_loop page_nums k st) = events st ++ added
    /\ requests added = omap (page_url_of st) (take j page_nums)
    /\ (forall q, paced_from q added = true).
Proof.
  revert k st. induction page_nums as [|p page_nums IH]; intros k st.
  - exists O, []. by rewrite app_nil_r.
  - cbn [page_loop].
    destruct (page_loop_body_trace p k st) as (a1 & He1 & Hr1 & Hp1 & Hb1).
    destruct (page_loop_body p k st) as [[k'|] st1]; cbn [snd] in *.
    + destruct (IH k' st1) as (j & a2 & He2 & Hr2 & Hp2).
      exists (S j), (a1 ++ a2). split; [by rewrite He2, He1, app_assoc|].
      split; [|by apply paced_app].
      rewrite requests_app, Hr1, Hr2. csimpl.
      rewrite (omap_pointwise (page_url_of st1) (page_url_of st))
        by (intros x; by apply page_url_of_base).
      by destruct (page_url_of st p).
    + exists 1%nat, a1. split; [done|]. split; [|done].
      rewrite Hr1. csimpl. rewrite ?take_0. csimpl.
      by destruct (page_url_of st p).
Qed.

Lemma omap_length_le {A B} (f : A -> option B) (l : list A) :
  (length (omap f l) <= length l)%nat.
Proof.
  induction l as [|a l IH]; csimpl; [lia|].
  destruct (f a); csimpl; lia.
Qed.

Lemma loop_trace_bound total_pages st :
  exists added : list Event,
    events (_parse_all_pages_optimized total_pages st) = events st ++ added
    /\ Z.of_nat (length (requests added)) <= Z.max 0 (total_pages - 1).
Proof.
  unfold _parse_all_pages_optimized.
  destruct (page_loop_trace (page_range total_pages) 0 st)
    as (j & added & He & Hr & _).
  exists added. split; [done|]. rewrite Hr.
  pose proof (omap_length_le (page_url_of st)
                (take j (page_range total_pages))) as Hl.
  rewrite length_take in Hl. unfold page_range in *.
  rewrite length_seqZ in Hl. lia.
Qed.

(** X11.  The page loop asks for the pages in order and without gaps: the
    requests it adds are the URLs [_get_page_url] gives for the first pages
    of [range(2, total_pages + 1)], up to the page where the loop stops
    (a page whose URL cannot be built is passed over); so it makes at most
    [total_pages - 1] requests, and none for [total_pages <= 1]. *)
Theorem loop_requests_pages_in_order (total_pages : Z) (st : State) :
  exists (j : nat) (added : list Event),
    events (_parse_all_pages_optimized total_pages st) = events st ++ added
    /\ requests added
       = omap (page_url_of st) (take j (page_range total_pages))
    /\ Z.of_nat (length (requests added)) <= Z.max 0 (total_pages - 1).
Proof.
  unfold _parse_all_pages_optimized.
  destruct (page_loop_trace (page_range total_pages) 0 st)
    as (j & added & He & Hr & _).
  exists j, added. split; [done|]. split; [done|]. rewrite Hr.
  pose proof (omap_length_le (page_url_of st)
                (take j (page_range total_pages))) as Hl.
  rewrite length_take in Hl. unfold page_range in *.
  rewrite length_seqZ in Hl. lia.
Qed.

(** X12.  Rate limiting: in the events the page loop adds, every request
    comes directly after a pause of 500 milliseconds. *)
Theorem loop_requests_are_paced (total_pages : Z) (st : State) :
  exists added : list Event,
    events (_parse_all_pages_optimized total_pages st) = events st ++ added
    /\ paced_from None added = true.
Proof.
  unfold _parse_all_pages_optimized.
  destruct (page_loop_trace (page_range total_pages) 0 st)
    as (j & added & He & _ & Hp).
  by exists added.
Qed.

Lemma parse_profile_trace url max_pages st :
  exists added : list Event,
    events (snd (parse_profile url max_pages st))
    = events st ++ Get url :: added
    /\ (max_pages <> 0 ->
        Z.of_nat (length (requests added)) <= Z.max 0 (max_pages - 1)).
Proof.
  unfold parse_profile, parse_profile_try, fetch.
  cbn [events set_profile_url].
  set (st0 := emit (Get url) (set_profile_url url st)).
  assert (H0 : events st0 = events st ++ [Get url]) by done.
  assert (Hfirst : forall html,
            events (snd (_parse_comments_from_html html st0))
            = events st ++ [Get url]).
  { intros html. by rewrite parse_html_events. }
  assert (Hnil : forall evs, evs = events st ++ [Get url] ->
            exists added : list Event,
              evs = events st ++ Get url :: added
              /\ (max_pages <> 0 ->
                  Z.of_nat (length (requests added))
                  <= Z.max 0 (max_pages - 1))).
  { intros evs ->. exists []. split; [done|]. simpl. lia. }
  destruct (session_get (events st) url) as [html|]; [|by apply Hnil].
  destruct (0 <? _get_total_comments_count html).
  2:{ specialize (Hfirst html).
      destruct (_parse_comments_from_html html st0) as [n st1].
      by apply Hnil. }
  destruct (_get_all_comments_url html url) as [[|c base]|].
  1,3: specialize (Hfirst html);
       destruct (_parse_comments_from_html html st0) as [n st1];
       by apply Hnil.
  destruct (math_ceil_div _ _) as [total_pages|e].
  2:{ destruct e; by apply Hnil. }
  pose proof (parse_html_events html (set_base_comments_url (c :: base) st0))
    as Hev.
  destruct (_parse_comments_from_html html _) as [n st1].
  cbn [snd events set_base_comments_url] in Hev.
  set (pages := if negb (max_pages =? 0) then Z.min total_pages max_pages
                else total_pages).
  destruct (Z.ltb_spec 1 pages); cbn [snd].
  - destruct (loop_trace_bound pages st1) as (added & He & Hl).
    exists added. rewrite He, Hev, H0, <- app_assoc. split; [done|].
    intros Hm. unfold pages in Hl.
    destruct (Z.eqb_spec max_pages 0) as [|_]; [done|]. cbn [negb] in Hl. lia.
  - apply Hnil. by rewrite Hev.
Qed.

(** X13.  [max_pages] bounds the requests of a crawl: for [max_pages]
    other than 0, [parse_profile] asks for the profile first and then makes
    at most [max_pages - 1] further requests (none for a negative
    [max_pages]). *)
Theorem max_pages_bounds_the_requests (url : str) (max_pages : Z)
    (st : State) :
  max_pages <> 0 ->
  exists added : list Event,
    events (snd (parse_profile url max_pages st))
    = events st ++ Get url :: added
    /\ Z.of_nat (length (requests added)) <= Z.max 0 (max_pages - 1).
Proof.
  intros Hm.
  destruct (parse_profile_trace url max_pages st) as (added & He & Hb).
  exists added. auto.
Qed.

(** X14.  When the first page gives no positive count, or no listing URL
    is found for it, [parse_profile] still parses the first page: it makes
    the one request and returns the store after that page. *)
Theorem first_page_is_parsed_without_a_count (url : str) (max_pages : Z)
    (st : State) (html : Node) :
  session_get (events st) url = Page html ->
  _get_total_comments_count html <= 0
  \/ _get_all_comments_url html url = None
  \/ _get_all_comments_url html url = Some [] ->
  parse_profile url max_pages st
  = (comments_data
       (snd (_parse_comments_from_html html
               (emit (Get url) (set_profile_url url st)))),
     snd (_parse_comments_from_html html
            (emit (Get url) (set_profile_url url st)))).
Proof.
  intros Hget Hcase. unfold parse_profile, parse_profile_try, fetch.
  cbn [events set_profile_url]. rewrite Hget.
  destruct (Z.ltb_spec 0 (_get_total_comments_count html)) as [Hpos|_].
  - destruct Hcase as [Hc | [-> | ->]]; [lia|..];
      by destruct (_parse_comments_from_html html _).
  - by destruct (_parse_comments_from_html html _).
Qed.

(** X22.  The mapping [parse_profile] returns is the store of the parser:
    when the profile is fetched and the count of the first page is below
    2^53 (so that the number of pages can be computed), the result is
    [comments_data] as the crawl leaves it. *)
Theorem returned_mapping_is_the_store (url : str) (max_pages : Z)
    (st : State) (html : Node) :
  session_get (events st) url = Page html ->
  _get_total_comments_count html < 2 ^ 53 ->
  fst (parse_profile url max_pages st)
  = comments_data (snd (parse_profile url max_pages st)).
Proof.
  intros Hget Hc. unfold parse_profile, parse_profile_try, fetch.
  cbn [events set_profile_url]. rewrite Hget.
  destruct (0 <? _get_total_comments_count html).
  2:{ by destruct (_parse_comments_from_html html _). }
  destruct (_get_all_comments_url html url) as [[|c base]|].
  1,3: by destruct (_parse_comments_from_html html _).
  unfold math_ceil_div.
  destruct (Z.ltb_spec (_get_total_comments_count html) (2 ^ 53)); [|lia].
  by destruct (_parse_comments_from_html html _).
Qed.

End LoopExtras.
(** * Properties of the start of [main] *)

Section MainFacts.

Lemma after_literal_some p s r : after_literal p s = Some r -> s = p ++ r.
Proof.
  unfold after_literal. destruct (Py.startswith p s) eqn:E; [|done].
  apply startswith_spec in E as (rest & ->). rewrite drop_app_length.
  by intros [= ->].
Qed.

Lemma after_literal_app p r : after_literal p (p ++ r) = Some r.
Proof.
  unfold after_literal. by rewrite startswith_app, drop_app_length.
Qed.

Lemma name_shape rest :
  match after_literal (lit "/") rest with
  | Some (c :: _) => negb (c =? 47)%N
  | _ => false
  end = true ->
  exists c rest', rest = lit "/" ++ c :: rest' /\ c <> 47%N.
Proof.
  destruct (after_literal (lit "/") rest) as [[|c rest']|] eqn:E; try done.
  apply after_literal_some in E. intros Hc. exists c, rest'. split; [done|].
  apply negb_true_iff in Hc. by apply N.eqb_neq.
Qed.

Lemma host_and_path_shape rest :
  match after_literal (lit "://steamcommunity.com/") rest with
  | None => false
  | Some rest =>
      match after_literal (lit "id") rest with
      | Some rest =>
          match after_literal (lit "/") rest with
          | Some (c :: _) => negb (c =? 47)%N
          | _ => false
          end
      | None => false
      end
      || match after_literal (lit "profiles") rest with
         | Some rest =>
             match after_literal (lit "/") rest with
             | Some (c :: _) => negb (c =? 47)%N
             | _ => false
             end
         | None => false
         end
  end = true ->
  exists kind c rest',
    rest = lit "://steamcommunity.com/" ++ kind ++ lit "/" ++ c :: rest'
    /\ (kind = lit "id" \/ kind = lit "profiles") /\ c <> 47%N.
Proof.
  destruct (after_literal (lit "://steamcommunity.com/") rest) as [r1|] eqn:E1;
    [|done].
  apply after_literal_some in E1 as ->. intros Hk.
  apply orb_true_iff in Hk as [Hk | Hk].
  - destruct (after_literal (lit "id") r1) as [r2|] eqn:E2; [|done].
    apply after_literal_some in E2 as ->.
    apply name_shape in Hk as (c & rest' & -> & Hc).
    exists (lit "id"), c, rest'. auto.
  - destruct (after_literal (lit "profiles") r1) as [r2|] eqn:E2; [|done].
    apply after_literal_some in E2 as ->.
    apply name_shape in Hk as (c & rest' & -> & Hc).
    exists (lit "profiles"), c, rest'. auto.
Qed.

(** The URLs the pattern accepts. *)
Lemma profile_url_match_shape url :
  profile_url_match url = true <-> profile_url_shape url.
Proof.
  split.
  - unfold profile_url_match.
    destruct (after_literal (lit "http") url) as [r0|] eqn:E0; [|done].
    apply after_literal_some in E0 as ->. cbv zeta. intros Hm.
    apply orb_true_iff in Hm as [Hm | Hm].
    + destruct (after_literal (lit "s") r0) as [r1|] eqn:E1; [|done].
      apply after_literal_some in E1 as ->.
      apply host_and_path_shape in Hm as (kind & c & rest' & -> & Hk & Hc).
      exists (lit "https"), kind, c, rest'. auto.
    + apply host_and_path_shape in Hm as (kind & c & rest' & -> & Hk & Hc).
      exists (lit "http"), kind, c, rest'. auto.
  - intros (scheme & kind & c & rest & -> & Hs & Hk & Hc).
    apply N.eqb_neq in Hc.
    destruct Hs as [-> | ->], Hk as [-> | ->];
      vm_compute; vm_compute in Hc; by rewrite Hc.
Qed.

Lemma strip_stays_clean p s :
  s <> [] -> starts_clean p -> p <> [] ->
  starts_clean (rev s) -> Py.strip (p ++ s) = p ++ s.
Proof.
  intros Hs Hp Hne Hr. apply clean_strip; [by apply starts_clean_app|].
  rewrite rev_app_distr. apply starts_clean_app; [|done].
  intros E. apply (f_equal (@length N)) in E. rewrite length_rev in E.
  by destruct s.
Qed.

Lemma lstrip_whitespace l s :
  whitespace_only l -> Py.lstrip (l ++ s) = Py.lstrip s.
Proof. induction 1 as [|c l Hc Hl IH]; simpl; [done|]. by rewrite Hc. Qed.

Lemma strip_padded l1 s l2 :
  whitespace_only l1 -> whitespace_only l2 ->
  s <> [] -> starts_clean s -> starts_clean (rev s) ->
  Py.strip (l1 ++ s ++ l2) = s.
Proof.
  intros H1 H2 Hne Hl Hr. unfold Py.strip, Py.rstrip.
  rewrite (lstrip_whitespace l1) by done.
  rewrite (lstrip_id (s ++ l2)) by (by apply starts_clean_app).
  rewrite rev_app_distr, (lstrip_whitespace (rev l2)) by (by apply Forall_rev).
  rewrite (lstrip_id (rev s)) by done. apply rev_involutive.
Qed.

End MainFacts.

Section MainExtras.
Context `{Runtime}.

Lemma main_profile_url_shape line url :
  main_profile_url line = Some url ->
  profile_url_shape url
  /\ (url = Py.strip line \/ url = lit "https://" ++ Py.strip line).
Proof.
  unfold main_profile_url.
  destruct (Py.truthy (Py.strip line)); [|done]. cbn [negb].
  destruct (negb (_ || _)).
  - destruct (profile_url_match _) eqn:M; [|done]. cbn [negb]. intros E.
    assert (url = lit "https://" ++ Py.strip line) as -> by congruence.
    split; [by apply profile_url_match_shape | by right].
  - destruct (profile_url_match _) eqn:M; [|done]. cbn [negb]. intros E.
    assert (url = Py.strip line) as -> by congruence.
    split; [by apply profile_url_match_shape | by left].
Qed.

(** X15.  The URL [main] passes to the parser is the line without the
    white space around it, with [https://] put in front when the line names
    no scheme, and it always has the shape
    [http(s)://steamcommunity.com/(id|profiles)/name...] with a name that
    does not start with a slash: no other line gets to the parser. *)
Theorem main_passes_profile_urls_only (line url : str) :
  main_profile_url line = Some url ->
  profile_url_shape url
  /\ (url = Py.strip line \/ url = lit "https://" ++ Py.strip line).
Proof. apply main_profile_url_shape. Qed.

(** X16.  The test of [main] looks at the start of the URL only: whatever
    is appended to an accepted URL, the result is accepted too. *)
Theorem url_test_ignores_what_follows (url rest : str) :
  profile_url_match url = true -> profile_url_match (url ++ rest) = true.
Proof.
  rewrite !profile_url_match_shape.
  intros (scheme & kind & c & rest' & -> & Hs & Hk & Hc).
  exists scheme, kind, c, (rest' ++ rest). split; [|done].
  by rewrite <- !app_assoc.
Qed.

(** X17.  Preparing the URL is idempotent: a URL [main] has accepted is
    accepted again, as it is. *)
Theorem accepted_url_is_accepted_again (line url : str) :
  main_profile_url line = Some url -> main_profile_url url = Some url.
Proof.
  unfold main_profile_url.
  destruct (Py.strip line) as [|c s] eqn:S; [done|]. cbn [Py.truthy negb].
  destruct (strip_clean line) as (Hl & Hr). rewrite S in Hl, Hr.
  destruct (_ || _) eqn:P; cbn [negb].
  - destruct (profile_url_match (c :: s)) eqn:M; [|done]. intros [= <-].
    rewrite (clean_strip _ Hl Hr). cbn [Py.truthy negb]. rewrite P.
    cbn [negb]. by rewrite M.
  - destruct (profile_url_match (lit "https://" ++ c :: s)) eqn:M; [|done].
    cbn [negb]. intros E.
    assert (url = lit "https://" ++ c :: s) as -> by congruence.
    clear E.
    rewrite (strip_stays_clean (lit "https://") (c :: s)) by done.
    change (Py.truthy (lit "https://" ++ c :: s)) with true. cbn [negb].
    rewrite (startswith_app (lit "https://")), orb_true_r. cbn [negb].
    by rewrite M.
Qed.


(** X19.  A crawl started by [main] asks for a profile of
    steamcommunity.com first, and with the default number of pages it
    makes at most 200 requests. *)
Theorem main_crawls_a_steam_profile (url_line pages_line : str)
    (r : gmap str UserData * State) :
  main_crawl url_line pages_line = Some r ->
  exists url added,
    events (snd r) = Get url :: added
    /\ profile_url_shape url
    /\ (whitespace_only pages_line ->
        Z.of_nat (length (requests (Get url :: added))) <= 200).
Proof.
  unfold main_crawl.
  destruct (main_profile_url url_line) as [url|] eqn:U; [|done].
  destruct (main_max_pages pages_line) as [max_pages|] eqn:M; [|done].
  intros [= <-].
  destruct (parse_profile_trace url max_pages __init__) as (added & He & Hb).
  exists url, added. split; [exact He|].
  split; [by apply main_profile_url_shape in U as (? & _)|].
  intros Hw. unfold main_max_pages in M.
  apply strip_nil_iff in Hw. rewrite Hw in M. injection M as <-.
  specialize (Hb ltac:(lia)). cbn [requests omap] in *. csimpl. lia.
Qed.

End MainExtras.
(** * The listing URL built from the URL of the profile *)

Section ListingFacts.

Lemma search_skip p cls suffix c s :
  Py.startswith p (c :: s) = false ->
  Re.search p cls suffix (c :: s) = Re.search p cls suffix s.
Proof. intros E. cbn [Re.search]. unfold Re.match_here. by rewrite E. Qed.

Lemma search_here p cls g rest :
  g <> [] -> Forall (fun c => cls c = true) g ->
  match rest with c :: _ => cls c = false | [] => True end ->
  Re.search p cls [] (p ++ g ++ rest) = Some g.
Proof.
  intros Hne Hg Hr.
  assert (Hm : Re.match_here p cls [] (p ++ g ++ rest) = Some g).
  { unfold Re.match_here. rewrite startswith_app, drop_app_length.
    rewrite span_app by done. by destruct g. }
  destruct (p ++ g ++ rest); cbn [Re.search]; by rewrite Hm.
Qed.

End ListingFacts.

Section ListingExtras.
Context `{Runtime}.

(** X20.  When the first page has no link to all the comments and no
    profile data, the listing URL is built from the URL of the profile, and
    always with [https]: a profile [.../profiles/<digits>] gives
    [https://steamcommunity.com/profiles/<digits>/allcomments], and a
    profile [.../id/<name>], in a URL where [/profiles/] does not occur,
    gives [https://steamcommunity.com/id/<name>/allcomments]. *)
Theorem listing_url_from_the_profile_url (soup : Node)
    (scheme name rest : str) :
  (forall link, all_comments_link soup = Some link ->
                Bs.get link (lit "href") = None
                \/ Bs.get link (lit "href") = Some []) ->
  (forall data, re_profile_data (Bs.text soup) = Some data ->
                json_steamid data = None) ->
  scheme = lit "http" \/ scheme = lit "https" ->
  name <> [] ->
  (Forall (fun c => isdigit c = true) name ->
   match rest with c :: _ => isdigit c = false | [] => True end ->
   _get_all_comments_url soup
     (scheme ++ lit "://steamcommunity.com/profiles/" ++ name ++ rest)
   = Some (lit "https://steamcommunity.com/profiles/" ++ name
           ++ lit "/allcomments"))
  /\ (47%N ∉ name ->
      match rest with c :: _ => c = 47%N | [] => True end ->
      Py.contains (lit "/profiles/")
        (scheme ++ lit "://steamcommunity.com/id/" ++ name ++ rest) = false ->
      _get_all_comments_url soup
        (scheme ++ lit "://steamcommunity.com/id/" ++ name ++ rest)
      = Some (lit "https://steamcommunity.com/id/" ++ name
              ++ lit "/allcomments")).
Proof.
  intros Hlink Hdata Hs Hne.
  assert (Hhref : match all_comments_link soup with
                  | Some link =>
                      match Bs.get link (lit "href") with
                      | Some href => if Py.truthy href then Some href else None
                      | None => None
                      end
                  | None => None
                  end = None).
  { destruct (all_comments_link soup) as [link|]; [|done].
    by destruct (Hlink link eq_refl) as [-> | ->]. }
  assert (Hid : match re_profile_data (Bs.text soup) with
                | Some data => json_steamid data
                | None => None
                end = None).
  { destruct (re_profile_data (Bs.text soup)) as [data|]; [|done].
    by apply Hdata. }
  split.
  - intros Hdig Hrest. unfold _get_all_comments_url. rewrite Hhref, Hid.
    assert (Hc : Py.contains (lit "/profiles/")
                   (scheme ++ lit "://steamcommunity.com/profiles/" ++ name
                    ++ rest) = true).
    { apply contains_spec.
      exists (scheme ++ lit "://steamcommunity.com"), (name ++ rest).
      by rewrite <- !app_assoc. }
    rewrite Hc.
    assert (Hsearch : Re.search (lit "/profiles/") isdigit []
                        (scheme ++ lit "://steamcommunity.com/profiles/"
                         ++ name ++ rest) = Some name).
    { pose proof (search_here (lit "/profiles/") isdigit name rest Hne Hdig
                    Hrest) as Hh.
      destruct Hs as [-> | ->].
      - change (lit "http" ++ lit "://steamcommunity.com/profiles/" ++ name
                ++ rest)
          with (lit "http://steamcommunity.com"
                ++ lit "/profiles/" ++ name ++ rest).
        set (tail := lit "/profiles/" ++ name ++ rest) in *.
        let x := eval vm_compute in (lit "http://steamcommunity.com") in
        change (lit "http://steamcommunity.com") with x.
        cbn [app]. rewrite !search_skip by reflexivity. exact Hh.
      - change (lit "https" ++ lit "://steamcommunity.com/profiles/" ++ name
                ++ rest)
          with (lit "https://steamcommunity.com"
                ++ lit "/profiles/" ++ name ++ rest).
        set (tail := lit "/profiles/" ++ name ++ rest) in *.
        let x := eval vm_compute in (lit "https://steamcommunity.com") in
        change (lit "https://steamcommunity.com") with x.
        cbn [app]. rewrite !search_skip by reflexivity. exact Hh. }
    by rewrite Hsearch.
  - intros Hname Hrest Hnp. unfold _get_all_comments_url.
    rewrite Hhref, Hid, Hnp.
    assert (Hc : Py.contains (lit "/id/")
                   (scheme ++ lit "://steamcommunity.com/id/" ++ name
                    ++ rest) = true).
    { apply contains_spec.
      exists (scheme ++ lit "://steamcommunity.com"), (name ++ rest).
      by rewrite <- !app_assoc. }
    rewrite Hc.
    assert (Hsearch : Re.search (lit "/id/") (fun c => negb (c =? 47)%N) []
                        (scheme ++ lit "://steamcommunity.com/id/"
                         ++ name ++ rest) = Some name).
    { assert (Hh : Re.search (lit "/id/") (fun c => negb (c =? 47)%N) []
                     (lit "/id/" ++ name ++ rest) = Some name).
      { apply search_here; [done| |].
        - apply Forall_forall. intros c Hc'. apply negb_true_iff.
          apply N.eqb_neq. by intros ->.
        - destruct rest as [|c rest]; [done|]. by rewrite Hrest. }
      destruct Hs as [-> | ->].
      - change (lit "http" ++ lit "://steamcommunity.com/id/" ++ name
                ++ rest)
          with (lit "http://steamcommunity.com"
                ++ lit "/id/" ++ name ++ rest).
        set (tail := lit "/id/" ++ name ++ rest) in *.
        let x := eval vm_compute in (lit "http://steamcommunity.com") in
        change (lit "http://steamcommunity.com") with x.
        cbn [app]. rewrite !search_skip by reflexivity. exact Hh.
      - change (lit "https" ++ lit "://steamcommunity.com/id/" ++ name
                ++ rest)
          with (lit "https://steamcommunity.com"
                ++ lit "/id/" ++ name ++ rest).
        set (tail := lit "/id/" ++ name ++ rest) in *.
        let x := eval vm_compute in (lit "https://steamcommunity.com") in
        change (lit "https://steamcommunity.com") with x.
        cbn [app]. rewrite !search_skip by reflexivity. exact Hh. }
    by rewrite Hsearch.
Qed.

(** X21.  The link of the page comes first: when the link to all the
    comments has an absolute [href] (one that starts with [http]), that
    [href] is the listing URL as it stands, whatever the URL of the profile
    and the profile data are, and [_normalize_url] leaves it unchanged. *)
Theorem absolute_link_is_the_listing_url (soup link : Node)
    (href base_url : str) :
  all_comments_link soup = Some link ->
  Bs.get link (lit "href") = Some href ->
  Py.startswith (lit "http") href = true ->
  _normalize_url href base_url = Ok href
  /\ _get_all_comments_url soup base_url = Some href.
Proof.
  intros Hl Hh Hs. apply startswith_spec in Hs as (rest & ->).
  assert (Hn : _normalize_url (lit "http" ++ rest) base_url
               = Ok (lit "http" ++ rest)).
  { unfold _normalize_url.
    change (Py.startswith (lit "/") (lit "http" ++ rest)) with false.
    by rewrite (startswith_app (lit "http")). }
  split; [exact Hn|]. unfold _get_all_comments_url. rewrite Hl, Hh.
  change (Py.truthy (lit "http" ++ rest)) with true. cbv iota.
  by rewrite Hn.
Qed.

End ListingExtras.
(** * The further properties on sample inputs *)

(** X7 on a block without an [id] attribute. *)
Lemma comment_id_is_never_empty_witness :
  let rt := Sample.runtime [] in
  exists c st1,
    @_parse_single_comment rt Sample.no_id_block __init__ = (Some c, st1)
    /\ comment_id c <> [].
Proof.
  intros rt. eexists _, _. split; [reflexivity|].
  eapply (@comment_id_is_never_empty rt Sample.no_id_block __init__ _ _ eq_refl).
Defined.

(** X8 on a block whose text is surrounded by white space. *)
Lemma name_and_text_are_trimmed_witness :
  let rt := Sample.runtime [] in
  let block := Sample.comment "comment_5" "bob" [Sample.text "  hello  "] in
  exists c st1,
    @_parse_single_comment rt block __init__ = (Some c, st1)
    /\ Py.strip (user c) = user c
    /\ Py.strip (comment_text c) = comment_text c
    /\ (whitespace_only (comment_text c) <-> comment_text c = []).
Proof.
  intros rt block. eexists _, _. split; [reflexivity|].
  eapply (@name_and_text_are_trimmed rt block __init__ _ _ eq_refl).
Defined.

(** X9 on a block whose author has a custom URL. *)
Lemma steam_id_comes_from_the_link_witness :
  let rt := Sample.runtime [] in
  let block := Sample.comment "comment_5" "bob" [Sample.text "hello"] in
  exists c st1,
    @_parse_single_comment rt block __init__ = (Some c, st1)
    /\ steam_id c = Some (lit "bob")
    /\ lit "bob" <> [] /\ (47%N ∉ lit "bob")
    /\ (Py.contains (lit "/profiles/" ++ lit "bob") (comment_profile_url c)
        = true
        \/ Py.contains (lit "/id/" ++ lit "bob") (comment_profile_url c)
           = true).
Proof.
  intros rt block. eexists _, _. split; [reflexivity|].
  split; [reflexivity|].
  eapply (proj2 (@steam_id_comes_from_the_link rt block __init__ _ _ eq_refl)).
  reflexivity.
Defined.


(** X13 with two pages allowed. *)
Lemma max_pages_bounds_the_requests_witness :
  let rt := Sample.runtime Sample.crawl_site in
  exists added : list Event,
    events (snd (@parse_profile rt (lit Sample.profile) 2 __init__))
    = events __init__ ++ Get (lit Sample.profile) :: added
    /\ Z.of_nat (length (requests added)) <= Z.max 0 (2 - 1).
Proof.
  intros rt.
  apply (@max_pages_bounds_the_requests rt (lit Sample.profile) 2 __init__).
  lia.
Defined.

(** X14 on a profile whose page has one comment and no count. *)
Lemma first_page_is_parsed_without_a_count_witness :
  let rt := Sample.runtime [(Sample.profile, Sample.one_block)] in
  let st := emit (Get (lit Sample.profile))
              (set_profile_url (lit Sample.profile) __init__) in
  @_get_total_comments_count rt Sample.one_block <= 0
  /\ @parse_profile rt (lit Sample.profile) 200 __init__
     = (comments_data (snd (@_parse_comments_from_html rt Sample.one_block st)),
        snd (@_parse_comments_from_html rt Sample.one_block st)).
Proof.
  intros rt st.
  assert (Hc : @_get_total_comments_count rt Sample.one_block <= 0)
    by (vm_compute; discriminate).
  split; [exact Hc|].
  apply (@first_page_is_parsed_without_a_count rt (lit Sample.profile) 200
           __init__ Sample.one_block).
  - reflexivity.
  - left. exact Hc.
Defined.

(** X15 on a line without a scheme and with spaces around it. *)
Lemma main_passes_profile_urls_only_witness :
  profile_url_shape (lit "https://steamcommunity.com/id/bob")
  /\ (lit "https://steamcommunity.com/id/bob"
      = Py.strip (lit "  steamcommunity.com/id/bob ")
      \/ lit "https://steamcommunity.com/id/bob"
         = lit "https://" ++ Py.strip (lit "  steamcommunity.com/id/bob ")).
Proof.
  apply (main_passes_profile_urls_only (lit "  steamcommunity.com/id/bob ")).
  vm_compute. reflexivity.
Defined.

(** X16 on a URL that goes on after the name. *)
Lemma url_test_ignores_what_follows_witness :
  profile_url_match (lit "https://steamcommunity.com/id/bob"
                     ++ lit "/../../market") = true.
Proof.
  apply (url_test_ignores_what_follows
           (lit "https://steamcommunity.com/id/bob") (lit "/../../market")).
  vm_compute. reflexivity.
Defined.

(** X17 on the same line. *)
Lemma accepted_url_is_accepted_again_witness :
  main_profile_url (lit "https://steamcommunity.com/id/bob")
  = Some (lit "https://steamcommunity.com/id/bob").
Proof.
  apply (accepted_url_is_accepted_again (lit "  steamcommunity.com/id/bob ")).
  vm_compute. reflexivity.
Defined.


(** X19 on a profile that can be fetched, with the default number of
    pages. *)
Lemma main_crawls_a_steam_profile_witness :
  let rt := Sample.runtime [(Sample.profile, Sample.one_block)] in
  exists url added,
    events (snd (@parse_profile rt (lit Sample.profile) 200 __init__))
    = Get url :: added
    /\ profile_url_shape url
    /\ (whitespace_only [] ->
        Z.of_nat (length (requests (Get url :: added))) <= 200).
Proof.
  intros rt.
  apply (@main_crawls_a_steam_profile rt (lit "steamcommunity.com/id/bob") []
           (@parse_profile rt (lit Sample.profile) 200 __init__)).
  vm_compute. reflexivity.
Defined.

(** X20 on a profile with a custom URL and a page without a link. *)
Lemma listing_url_from_the_profile_url_witness :
  let rt := Sample.runtime [] in
  @_get_all_comments_url rt Sample.one_block
    (lit "http" ++ lit "://steamcommunity.com/id/" ++ lit "bob" ++ lit "/")
  = Some (lit "https://steamcommunity.com/id/" ++ lit "bob"
          ++ lit "/allcomments").
Proof.
  intros rt.
  apply (@listing_url_from_the_profile_url rt Sample.one_block (lit "http")
           (lit "bob") (lit "/")).
  - intros link E. vm_compute in E. discriminate.
  - intros data E. vm_compute in E. discriminate.
  - by left.
  - discriminate.
  - intros Hin. apply list_elem_of_In in Hin. vm_compute in Hin.
    intuition discriminate.
  - reflexivity.
  - vm_compute. reflexivity.
Defined.

(** X22 on a profile whose page has one comment. *)
Lemma returned_mapping_is_the_store_witness :
  let rt := Sample.runtime [(Sample.profile, Sample.one_block)] in
  fst (@parse_profile rt (lit Sample.profile) 200 __init__)
  = comments_data (snd (@parse_profile rt (lit Sample.profile) 200 __init__)).
Proof.
  intros rt.
  apply (@returned_mapping_is_the_store rt (lit Sample.profile) 200 __init__
           Sample.one_block).
  - reflexivity.
  - vm_compute. reflexivity.
Defined.

(** The branch on [/profiles/] comes first and has no way back: a custom
    URL in which [/profiles/] occurs without digits gets no listing URL. *)
Example custom_url_with_profiles_in_it :
  @_get_all_comments_url (Sample.runtime []) Sample.one_block
    (lit "https://steamcommunity.com/id/bob/profiles/") = None.
Proof. vm_compute. reflexivity. Qed.

(** X21 on a page whose link names the listing in full. *)
Lemma absolute_link_is_the_listing_url_witness :
  let rt := Sample.runtime [] in
  let link :=
    Sample.tag "a" [("class", "commentthread_allcommentslink");
                    ("href", "https://steamcommunity.com/id/bob/allcomments")]%string
      [Sample.text "View all comments (1234)"] in
  @_normalize_url rt (lit "https://steamcommunity.com/id/bob/allcomments")
    (lit "https://steamcommunity.com/profiles/1")
  = Ok (lit "https://steamcommunity.com/id/bob/allcomments")
  /\ @_get_all_comments_url rt (Sample.page [link])
       (lit "https://steamcommunity.com/profiles/1")
     = Some (lit "https://steamcommunity.com/id/bob/allcomments").
Proof.
  intros rt link.
  apply (@absolute_link_is_the_listing_url rt (Sample.page [link]) link);
    reflexivity.
Defined.

(** The line [0] is read as the number 0, which [parse_profile] takes as
    no limit; a line that is not a number makes [int] raise. *)
Example zero_pages_and_no_number :
  let rt := Sample.runtime [] in
  @main_max_pages rt (lit "0") = Some 0
  /\ @main_max_pages rt (lit "ten") = None.
Proof. vm_compute. split; reflexivity. Qed.
